(** * otel-prompt-vault: vault storage, integrity and envelope encryption

    A shallow embedding of the Go sources

      - package crypto, envelope.go: [NewEnvelope], [Encrypt], [Decrypt],
        [SignMetadata], [VerifyMetadata]               (module [Crypto])
      - package storage: [Reference], the [Backend] interface and the
        S3-compatible backend with [Store], [Retrieve], [Close]
                                                       (module [Storage])
      - package promptvaultprocessor: [processSpan]    (module [Processor])

    together with the parts of the Go standard library they call
    (encoding/hex, crypto/subtle, crypto/sha256, crypto/hmac, crypto/aes,
    crypto/cipher's GCM), written out so that every definition computes.

    Conventions.  A Go [[]byte] is a [list byte]; a Go [string] is a
    [String.string] (both are byte sequences, [[]byte(s)] is
    [list_byte_of_string]).  Machine integers are [Z] with the wrap-around
    written out.  A Go call that returns [(T, error)] returns [result T]; a
    run-time panic is the third constructor of [result].  What a call
    reads or changes outside its arguments (the entropy source, the
    object store behind the HTTP client, the log) is passed in and
    returned. *)

From Stdlib Require Import ZArith NArith List Strings.String Strings.Ascii Strings.Byte Bool Lia.
Import ListNotations.
From Stdlib Require DecimalString DecimalNat.

(* ================================================================= *)
(** ** Outcomes of a Go call *)

Inductive result (E A : Type) : Type :=
| Ok (a : A)
| Err (e : E)
| Panic (msg : string).
Arguments Ok {E A} a.
Arguments Err {E A} e.
Arguments Panic {E A} msg.

Definition is_ok {E A} (r : result E A) : bool :=
  match r with Ok _ => true | _ => false end.

Definition is_err {E A} (r : result E A) : bool :=
  match r with Err _ => true | _ => false end.

(** Sequencing: an error or a panic ends the call. *)
Definition bind {E A B} (r : result E A) (k : A -> result E B) : result E B :=
  match r with
  | Ok a => k a
  | Err e => Err e
  | Panic m => Panic m
  end.

(** [fmt.Errorf("...: %w", err)]: the callee's error wrapped in the
    caller's. *)
Definition wrap {E E' A} (f : E -> E') (r : result E A) : result E' A :=
  match r with
  | Ok a => Ok a
  | Err e => Err (f e)
  | Panic m => Panic m
  end.

(** A call that has no error result. *)
Definition never {E A} (r : result Empty_set A) : result E A :=
  wrap (fun x : Empty_set => match x with end) r.

Declare Scope go_scope.
Delimit Scope go_scope with go.
Notation "x <- r ;; k" := (bind r (fun x => k))
  (at level 61, r at next level, right associativity) : go_scope.

(* ================================================================= *)
(** ** Bytes *)

Module Bytes.
Local Open Scope Z_scope.

Definition to_Z (b : byte) : Z := Z.of_N (Byte.to_N b).

Definition of_Z (z : Z) : byte :=
  match Byte.of_N (Z.to_N (z mod 256)) with
  | Some b => b
  | None => x00
  end.

(** [x ^ y] on [uint8]. *)
Definition xor (a b : byte) : byte := of_Z (Z.lxor (to_Z a) (to_Z b)).

(** [[]byte(s)] and [string(b)]. *)
Definition of_string (s : string) : list byte := list_byte_of_string s.
Definition to_string (l : list byte) : string := string_of_list_byte l.

(** Big-endian encoding of the low [8*n] bits of [z] on [n] bytes. *)
Fixpoint be (n : nat) (z : Z) : list byte :=
  match n with
  | O => []
  | S m => of_Z (Z.shiftr z (8 * Z.of_nat m)) :: be m z
  end.

(** Big-endian value of a byte sequence. *)
Definition be_val (l : list byte) : Z :=
  fold_left (fun acc b => acc * 256 + to_Z b) l 0.

(** Element-wise xor over the common prefix: the loop
    [for i := range a { dst[i] = a[i] ^ b[i] }] with [len b >= len a]. *)
Fixpoint xor_list (a b : list byte) : list byte :=
  match a, b with
  | x :: a', y :: b' => xor x y :: xor_list a' b'
  | _, _ => []
  end.

(** The sequence cut into chunks of [n] bytes ([k] chunks at most; the
    last one may be short). *)
Fixpoint chunks (n : nat) (k : nat) (l : list byte) : list (list byte) :=
  match k with
  | O => []
  | S k' =>
      match l with
      | [] => []
      | _ => firstn n l :: chunks n k' (skipn n l)
      end
  end.

End Bytes.

(* ================================================================= *)
(** ** encoding/hex *)

Module Hex.
Local Open Scope Z_scope.

(** [hextable = "0123456789abcdef"]. *)
Definition hextable : list ascii :=
  list_ascii_of_string "0123456789abcdef".

Definition digit (v : Z) : ascii := nth (Z.to_nat v) hextable "0"%char.

(** [EncodeToString]: two lower-case digits per byte, high nibble first. *)
Fixpoint EncodeToString (src : list byte) : string :=
  match src with
  | [] => EmptyString
  | b :: rest =>
      let v := Bytes.to_Z b in
      String (digit (Z.shiftr v 4))
        (String (digit (Z.land v 0x0f)) (EncodeToString rest))
  end.

(** [reverseHexTable]: the value of a hex digit of either case, [None]
    for every other byte (the table's 0xff entries). *)
Definition fromHexChar (c : ascii) : option Z :=
  let n := Z.of_N (N_of_ascii c) in
  if (48 <=? n) && (n <=? 57) then Some (n - 48)
  else if (97 <=? n) && (n <=? 102) then Some (n - 97 + 10)
  else if (65 <=? n) && (n <=? 70) then Some (n - 65 + 10)
  else None.

Definition isHexDigit (c : ascii) : bool :=
  match fromHexChar c with Some _ => true | None => false end.

Inductive DecodeError : Type :=
| InvalidByteError (c : ascii)
| ErrLength.

(** [Decode]: pairs of digits are consumed left to right; the first
    invalid byte is reported; an odd length is reported after its last
    byte was found to be a digit. The bytes decoded so far are returned
    with the error, as [DecodeString] returns [src[:n], err]. *)
Fixpoint Decode (src : string) : list byte * option DecodeError :=
  match src with
  | EmptyString => ([], None)
  | String p EmptyString =>
      match fromHexChar p with
      | None => ([], Some (InvalidByteError p))
      | Some _ => ([], Some ErrLength)
      end
  | String p (String q rest) =>
      match fromHexChar p with
      | None => ([], Some (InvalidByteError p))
      | Some a =>
          match fromHexChar q with
          | None => ([], Some (InvalidByteError q))
          | Some b =>
              let (out, err) := Decode rest in
              (Bytes.of_Z (Z.lor (Z.shiftl a 4) b) :: out, err)
          end
      end
  end.

Definition DecodeString (s : string) : list byte * option DecodeError :=
  Decode s.

End Hex.

(* ================================================================= *)
(** ** crypto/subtle *)

Module Subtle.
Local Open Scope Z_scope.

(** [int((uint32(x^y) - 1) >> 31)]. *)
Definition ConstantTimeByteEq (x y : Z) : Z :=
  Z.shiftr ((Z.lxor x y - 1) mod 2 ^ 32) 31.

(** The accumulator [v |= x[i] ^ y[i]] over two slices of one length. *)
Fixpoint accumulate (v : Z) (x y : list byte) : Z :=
  match x, y with
  | a :: x', b :: y' =>
      accumulate (Z.lor v (Z.lxor (Bytes.to_Z a) (Bytes.to_Z b))) x' y'
  | _, _ => v
  end.

Definition ConstantTimeCompare (x y : list byte) : Z :=
  if negb (Nat.eqb (List.length x) (List.length y)) then 0
  else ConstantTimeByteEq (accumulate 0 x y) 0.

End Subtle.

(* ================================================================= *)
(** ** crypto/sha256 (FIPS 180-4) *)

Module Sha256.
Local Open Scope Z_scope.

Definition BlockSize : nat := 64.
Definition Size : nat := 32.

Definition u32 (x : Z) : Z := x mod 2 ^ 32.
Definition add32 (x y : Z) : Z := u32 (x + y).
Definition rotr (n x : Z) : Z :=
  Z.lor (Z.shiftr x n) (u32 (Z.shiftl x (32 - n))).
Definition not32 (x : Z) : Z := Z.lxor x (2 ^ 32 - 1).

Definition Ch (x y z : Z) : Z := Z.lxor (Z.land x y) (Z.land (not32 x) z).
Definition Maj (x y z : Z) : Z :=
  Z.lxor (Z.lxor (Z.land x y) (Z.land x z)) (Z.land y z).
Definition bigsigma0 (x : Z) : Z :=
  Z.lxor (Z.lxor (rotr 2 x) (rotr 13 x)) (rotr 22 x).
Definition bigsigma1 (x : Z) : Z :=
  Z.lxor (Z.lxor (rotr 6 x) (rotr 11 x)) (rotr 25 x).
Definition sigma0 (x : Z) : Z :=
  Z.lxor (Z.lxor (rotr 7 x) (rotr 18 x)) (Z.shiftr x 3).
Definition sigma1 (x : Z) : Z :=
  Z.lxor (Z.lxor (rotr 17 x) (rotr 19 x)) (Z.shiftr x 10).

(** The round constants are the first 32 bits of the fractional parts of
    the cube roots of the first 64 primes, the initial state those of
    the square roots of the first 8; both tables are computed here from
    that definition. *)
Definition is_prime (n : Z) : bool :=
  (2 <=? n) &&
  forallb (fun d => negb (n mod d =? 0))
          (map Z.of_nat (seq 2 (Z.to_nat (Z.sqrt n) - 1))).

Definition primes : list Z :=
  Eval vm_compute in firstn 64 (filter is_prime (map Z.of_nat (seq 2 320))).

(** Integer cube root below [2^36], one bit at a time. *)
Definition cbrt (n : Z) : Z :=
  fold_left
    (fun r b => let r' := r + 2 ^ Z.of_nat b in
                if r' * r' * r' <=? n then r' else r)
    (rev (seq 0 36)) 0.

Definition K : list Z :=
  Eval vm_compute in map (fun p => u32 (cbrt (p * 2 ^ 96))) primes.

Definition init : list Z :=
  Eval vm_compute in map (fun p => u32 (Z.sqrt (p * 2 ^ 64))) (firstn 8 primes).

(** Padding: 0x80, zeros up to 56 mod 64, then the bit length on 64
    bits, big-endian. *)
Definition pad (msg : list byte) : list byte :=
  let l := Z.of_nat (List.length msg) in
  msg ++ [Bytes.of_Z 0x80]
      ++ repeat x00 (Z.to_nat ((55 - l) mod 64))
      ++ Bytes.be 8 ((8 * l) mod 2 ^ 64).

Definition words (block : list byte) : list Z :=
  map Bytes.be_val (Bytes.chunks 4 16 block).

(** Message schedule [W_0 .. W_63]. *)
Definition schedule (block : list byte) : list Z :=
  fold_left
    (fun W t =>
       W ++ [add32 (add32 (sigma1 (nth (t - 2) W 0)) (nth (t - 7) W 0))
                   (add32 (sigma0 (nth (t - 15) W 0)) (nth (t - 16) W 0))])
    (seq 16 48) (words block).

Record state : Type := mkState
  { sa : Z; sb : Z; sc : Z; sd : Z; se : Z; sf : Z; sg : Z; sh : Z }.

Definition round (W : list Z) (s : state) (t : nat) : state :=
  let t1 := add32 (add32 (add32 (sh s) (bigsigma1 (se s)))
                         (add32 (Ch (se s) (sf s) (sg s)) (nth t K 0)))
                  (nth t W 0) in
  let t2 := add32 (bigsigma0 (sa s)) (Maj (sa s) (sb s) (sc s)) in
  mkState (add32 t1 t2) (sa s) (sb s) (sc s)
          (add32 (sd s) t1) (se s) (sf s) (sg s).

Definition compress (s : state) (block : list byte) : state :=
  let W := schedule block in
  let r := fold_left (round W) (seq 0 64) s in
  mkState (add32 (sa s) (sa r)) (add32 (sb s) (sb r))
          (add32 (sc s) (sc r)) (add32 (sd s) (sd r))
          (add32 (se s) (se r)) (add32 (sf s) (sf r))
          (add32 (sg s) (sg r)) (add32 (sh s) (sh r)).

Definition init_state : state :=
  mkState (nth 0 init 0) (nth 1 init 0) (nth 2 init 0) (nth 3 init 0)
          (nth 4 init 0) (nth 5 init 0) (nth 6 init 0) (nth 7 init 0).

(** [Sum256]: the 32-byte digest. *)
Definition Sum256 (data : list byte) : list byte :=
  let p := pad data in
  let s := fold_left compress (Bytes.chunks 64 (List.length p) p) init_state in
  List.concat (map (Bytes.be 4)
              [sa s; sb s; sc s; sd s; se s; sf s; sg s; sh s]).

End Sha256.

(* ================================================================= *)
(** ** crypto/hmac *)

Module Hmac.
Local Open Scope Z_scope.

Definition xor_const (c : Z) (l : list byte) : list byte :=
  map (fun b => Bytes.of_Z (Z.lxor (Bytes.to_Z b) c)) l.

(** [hmac.New(sha256.New, key)]: a key longer than the block size is
    hashed first; the key is then zero-padded to the block size. *)
Definition block_key (key : list byte) : list byte :=
  let k := if (Sha256.BlockSize <? List.length key)%nat
           then Sha256.Sum256 key else key in
  k ++ repeat x00 (Sha256.BlockSize - List.length k).

(** [mac.Write(msg); mac.Sum(nil)]. *)
Definition Sum (key msg : list byte) : list byte :=
  let k := block_key key in
  Sha256.Sum256 (xor_const 0x5c k ++ Sha256.Sum256 (xor_const 0x36 k ++ msg)).

(** [hmac.Equal]: [subtle.ConstantTimeCompare(mac1, mac2) == 1]. *)
Definition Equal (mac1 mac2 : list byte) : bool :=
  Subtle.ConstantTimeCompare mac1 mac2 =? 1.

End Hmac.

(* ================================================================= *)
(** ** crypto/aes (FIPS 197) *)

Module Aes.
Local Open Scope Z_scope.

Definition BlockSize : nat := 16.

(** Arithmetic of GF(2^8) modulo x^8 + x^4 + x^3 + x + 1. *)
Definition xtime (a : Z) : Z :=
  let s := Z.shiftl a 1 in
  if Z.testbit a 7 then Z.land (Z.lxor s 0x1b) 0xff else s.

Definition gmul (a b : Z) : Z :=
  fst (fold_left
         (fun (st : Z * (Z * Z)) (_ : nat) =>
            let '(acc, (x, y)) := st in
            ((if Z.odd y then Z.lxor acc x else acc), (xtime x, Z.shiftr y 1)))
         (seq 0 8) (0, (a, b))).

(** The multiplicative inverse is the 254th power (0 maps to 0). *)
Definition ginv (a : Z) : Z :=
  fold_left (fun acc (_ : nat) => gmul acc a) (seq 0 253) a.

Definition rotl8 (x n : Z) : Z :=
  Z.land (Z.lor (Z.shiftl x n) (Z.shiftr x (8 - n))) 0xff.

Definition sbox_entry (a : Z) : Z :=
  let b := ginv a in
  Z.lxor (Z.lxor (Z.lxor (Z.lxor (Z.lxor b (rotl8 b 1)) (rotl8 b 2))
                         (rotl8 b 3)) (rotl8 b 4)) 0x63.

Definition sbox : list Z :=
  Eval vm_compute in map (fun i => sbox_entry (Z.of_nat i)) (seq 0 256).

Definition SubByte (x : Z) : Z := nth (Z.to_nat x) sbox 0.

(** Key schedule on 32-bit words, most significant byte first. *)
Definition word_byte (w : Z) (i : nat) : Z :=
  Z.land (Z.shiftr w (8 * (3 - Z.of_nat i))) 0xff.

Definition SubWord (w : Z) : Z :=
  Z.lor (Z.lor (Z.shiftl (SubByte (word_byte w 0)) 24)
               (Z.shiftl (SubByte (word_byte w 1)) 16))
        (Z.lor (Z.shiftl (SubByte (word_byte w 2)) 8)
               (SubByte (word_byte w 3))).

Definition RotWord (w : Z) : Z :=
  Z.land (Z.lor (Z.shiftl w 8) (Z.shiftr w 24)) 0xffffffff.

Definition Rcon (i : nat) : Z :=
  Z.shiftl (fold_left (fun acc (_ : nat) => xtime acc) (seq 0 (i - 1)) 1) 24.

Definition expandKey (key : list byte) : list Z :=
  let nk := (List.length key / 4)%nat in
  let total := (4 * (nk + 7))%nat in
  fold_left
    (fun W i =>
       let temp := nth (i - 1) W 0 in
       let temp :=
         if (i mod nk =? 0)%nat
         then Z.lxor (SubWord (RotWord temp)) (Rcon (i / nk))
         else if ((6 <? nk) && (i mod nk =? 4))%nat
              then SubWord temp
              else temp in
       W ++ [Z.lxor (nth (i - nk) W 0) temp])
    (seq nk (total - nk))
    (map Bytes.be_val (Bytes.chunks 4 nk key)).

(** The cipher state is the 16 input bytes in order: byte [r + 4c] is
    row [r] of column [c]. *)
Definition AddRoundKey (W : list Z) (round : nat) (st : list Z) : list Z :=
  map (fun i => Z.lxor (nth i st 0)
                       (word_byte (nth (4 * round + i / 4) W 0) (i mod 4)))
      (seq 0 16).

Definition SubBytes (st : list Z) : list Z := map SubByte st.

Definition ShiftRows (st : list Z) : list Z :=
  map (fun i => let r := (i mod 4)%nat in
                let c := (i / 4)%nat in
                nth (r + 4 * ((c + r) mod 4)) st 0)
      (seq 0 16).

Definition MixColumns (st : list Z) : list Z :=
  map (fun i =>
         let r := (i mod 4)%nat in
         let c := (i / 4)%nat in
         let a := fun k => nth ((r + k) mod 4 + 4 * c) st 0 in
         Z.lxor (Z.lxor (gmul 2 (a 0%nat)) (gmul 3 (a 1%nat)))
                (Z.lxor (a 2%nat) (a 3%nat)))
      (seq 0 16).

Record Block : Type := mkBlock { rounds : nat; enc : list Z }.

Inductive KeySizeError : Type := KeySize (n : nat).

(** [aes.NewCipher]: keys of 16, 24 or 32 bytes only. *)
Definition NewCipher (key : list byte) : result KeySizeError Block :=
  let k := List.length key in
  if ((k =? 16) || (k =? 24) || (k =? 32))%nat
  then Ok (mkBlock (k / 4 + 6) (expandKey key))
  else Err (KeySize k).

(** [Block.Encrypt] of one 16-byte block. *)
Definition Encrypt (b : Block) (src : list byte) : list byte :=
  let W := enc b in
  let st := AddRoundKey W 0 (map Bytes.to_Z src) in
  let st := fold_left
              (fun st r => AddRoundKey W r (MixColumns (ShiftRows (SubBytes st))))
              (seq 1 (rounds b - 1)) st in
  let st := AddRoundKey W (rounds b) (ShiftRows (SubBytes st)) in
  map Bytes.of_Z st.

End Aes.

(* ================================================================= *)
(** ** crypto/cipher: Galois/Counter Mode (NIST SP 800-38D) with the
       standard 12-byte nonce and 16-byte tag, as [cipher.NewGCM] builds it *)

Module Gcm.
Local Open Scope Z_scope.

Definition NonceSize : nat := 12.
Definition TagSize : nat := 16.

Inductive error : Type :=
| errBlockSize   (* "cipher: NewGCM requires 128-bit block cipher" *)
| errOpen.       (* "cipher: message authentication failed" *)

Record GCM : Type := mkGCM { cipher : Aes.Block }.

Definition NewGCM (b : Aes.Block) : result error GCM :=
  if (Aes.BlockSize =? 16)%nat then Ok (mkGCM b) else Err errBlockSize.

(** Multiplication in GF(2^128); a block is read as a 128-bit integer,
    most significant bit first, and the reduction constant is
    [0xe1 << 120]. *)
Definition gf_mul (x y : Z) : Z :=
  fst (fold_left
         (fun (st : Z * Z) (i : nat) =>
            let (z, v) := st in
            ((if Z.testbit x (127 - Z.of_nat i) then Z.lxor z v else z),
             (if Z.odd v
              then Z.lxor (Z.shiftr v 1) (Z.shiftl 0xe1 120)
              else Z.shiftr v 1)))
         (seq 0 128) (0, y)).

Definition pad16 (l : list byte) : list byte :=
  l ++ repeat x00 ((16 - List.length l mod 16) mod 16).

Definition ghash (h : Z) (aad ct : list byte) : Z :=
  let input :=
    pad16 aad ++ pad16 ct
      ++ Bytes.be 8 (8 * Z.of_nat (List.length aad))
      ++ Bytes.be 8 (8 * Z.of_nat (List.length ct)) in
  fold_left (fun acc blk => gf_mul (Z.lxor acc (Bytes.be_val blk)) h)
            (Bytes.chunks 16 (List.length input) input) 0.

(** The initial counter block for a 12-byte nonce, and the increment of
    its last 32 bits. *)
Definition counter0 (nonce : list byte) : list byte :=
  nonce ++ Bytes.be 4 1.

Definition inc32 (ctr : list byte) : list byte :=
  firstn 12 ctr ++ Bytes.be 4 ((Bytes.be_val (skipn 12 ctr) + 1) mod 2 ^ 32).

Fixpoint keystream (b : Aes.Block) (ctr : list byte) (nblocks : nat)
  : list byte :=
  match nblocks with
  | O => []
  | S n => Aes.Encrypt b ctr ++ keystream b (inc32 ctr) n
  end.

(** Counter-mode encryption and decryption are the same xor. *)
Definition counterCrypt (b : Aes.Block) (ctr data : list byte) : list byte :=
  Bytes.xor_list data (keystream b ctr ((List.length data + 15) / 16)).

(** The tag: GHASH under [H = E(0^128)], masked with [E(counter0)]. *)
Definition auth (b : Aes.Block) (nonce ct aad : list byte) : list byte :=
  let h := Bytes.be_val (Aes.Encrypt b (repeat x00 16)) in
  Bytes.xor_list (Bytes.be 16 (ghash h aad ct))
                 (Aes.Encrypt b (counter0 nonce)).

(** Largest plaintext: [((1 << 32) - 2) * BlockSize] bytes. *)
Definition maxPlaintext : Z := (2 ^ 32 - 2) * 16.

(** [Seal(dst, nonce, plaintext, data)] appends to [dst]; it returns no
    error, and panics on a nonce of the wrong length or a plaintext
    above [maxPlaintext]. *)
Definition Seal (g : GCM) (dst nonce plaintext data : list byte)
  : result Empty_set (list byte) :=
  if negb (List.length nonce =? NonceSize)%nat
  then Panic "crypto/cipher: incorrect nonce length given to GCM"
  else if maxPlaintext <? Z.of_nat (List.length plaintext)
  then Panic "crypto/cipher: message too large for GCM"
  else
    let ct := counterCrypt (cipher g) (inc32 (counter0 nonce)) plaintext in
    Ok (dst ++ ct ++ auth (cipher g) nonce ct data).

(** [Open(dst, nonce, ciphertext, data)]: the last 16 bytes are the tag;
    nothing is decrypted unless the tag matches. *)
Definition Open (g : GCM) (dst nonce ciphertext data : list byte)
  : result error (list byte) :=
  if negb (List.length nonce =? NonceSize)%nat
  then Panic "crypto/cipher: incorrect nonce length given to GCM"
  else if (List.length ciphertext <? TagSize)%nat
  then Err errOpen
  else if maxPlaintext + Z.of_nat TagSize <? Z.of_nat (List.length ciphertext)
  then Err errOpen
  else
    let n := (List.length ciphertext - TagSize)%nat in
    let tag := skipn n ciphertext in
    let ct := firstn n ciphertext in
    let expectedTag := auth (cipher g) nonce ct data in
    if negb (Subtle.ConstantTimeCompare expectedTag tag =? 1)
    then Err errOpen
    else Ok (dst ++ counterCrypt (cipher g) (inc32 (counter0 nonce)) ct).

(** What [Open] accepts, in the words of SP 800-38D: the input carries
    a tag, is within the size limit, and the tag is the one [auth]
    computes over what precedes it. *)
Definition authentic (g : GCM) (nonce ciphertext data : list byte) : Prop :=
  (TagSize <= List.length ciphertext)%nat /\
  Z.of_nat (List.length ciphertext) <= maxPlaintext + Z.of_nat TagSize /\
  auth (cipher g) nonce
       (firstn (List.length ciphertext - TagSize) ciphertext) data
  = skipn (List.length ciphertext - TagSize) ciphertext.

End Gcm.

(* ================================================================= *)
(** ** crypto/rand and io.ReadFull *)

Module Rand.

(** The state of [rand.Reader]: the bytes the entropy source delivers
    next.  A source that runs dry is a failing read. *)
Definition Reader : Type := list byte.

Inductive error : Type := EOF | ErrUnexpectedEOF.

(** [io.ReadFull(rand.Reader, buf)] with [len(buf) = n]. *)
Definition ReadFull (r : Reader) (n : nat) : Reader * result error (list byte) :=
  if (n <=? List.length r)%nat
  then (skipn n r, Ok (firstn n r))
  else ([], Err (match r with [] => EOF | _ => ErrUnexpectedEOF end)).

End Rand.

(* ================================================================= *)
(** ** package crypto: envelope.go *)

Module Crypto.
Local Open Scope go_scope.

(** [type Envelope struct { key, hmacSecret []byte }]. *)
Record Envelope : Type := mkEnvelope
  { key : list byte;
    hmacSecret : list byte }.

Inductive error : Type :=
| InvalidHexKey (cause : Hex.DecodeError)   (* "invalid hex key: %w" *)
| KeyLength (got : nat)     (* "key must be 256 bits (32 bytes), got %d bytes" *)
| CreateCipher (cause : Aes.KeySizeError)   (* "failed to create cipher: %w" *)
| CreateGCM (cause : Gcm.error)             (* "failed to create GCM: %w" *)
| GenerateNonce (cause : Rand.error)        (* "failed to generate nonce: %w" *)
| CiphertextTooShort                        (* "ciphertext too short" *)
| DecryptionFailed (cause : Gcm.error).     (* "decryption failed: %w" *)

(** [NewEnvelope]. *)
Definition NewEnvelope (hexKey hmacSecret : string) : result error Envelope :=
  match Hex.DecodeString hexKey with
  | (_, Some err) => Err (InvalidHexKey err)
  | (key, None) =>
      if negb (List.length key =? 32)%nat
      then Err (KeyLength (List.length key))
      else Ok (mkEnvelope key (Bytes.of_string hmacSecret))
  end.

(** [Encrypt]: the nonce is read from [rand.Reader], whose state is
    threaded through; [gcm.Seal(nonce, nonce, plaintext, nil)] appends
    ciphertext and tag to the nonce. *)
Definition Encrypt (e : Envelope) (rnd : Rand.Reader) (plaintext : list byte)
  : Rand.Reader * result error (list byte) :=
  match wrap CreateCipher (Aes.NewCipher (key e)) with
  | Ok block =>
      match wrap CreateGCM (Gcm.NewGCM block) with
      | Ok gcm =>
          let (rnd', r) := Rand.ReadFull rnd Gcm.NonceSize in
          (rnd',
           nonce <- wrap GenerateNonce r ;;
           never (Gcm.Seal gcm nonce nonce plaintext []))
      | Err x => (rnd, Err x)
      | Panic m => (rnd, Panic m)
      end
  | Err x => (rnd, Err x)
  | Panic m => (rnd, Panic m)
  end.

(** [Decrypt]. *)
Definition Decrypt (e : Envelope) (ciphertext : list byte)
  : result error (list byte) :=
  block <- wrap CreateCipher (Aes.NewCipher (key e)) ;;
  gcm <- wrap CreateGCM (Gcm.NewGCM block) ;;
  let nonceSize := Gcm.NonceSize in
  if (List.length ciphertext <? nonceSize)%nat
  then Err CiphertextTooShort
  else
    let nonce := firstn nonceSize ciphertext in
    let ciphertext := skipn nonceSize ciphertext in
    wrap DecryptionFailed (Gcm.Open gcm [] nonce ciphertext []).

(** The AEAD that [Encrypt] and [Decrypt] build from the key on every
    call, for a key [aes.NewCipher] accepts. *)
Definition gcmOf (e : Envelope) : Gcm.GCM :=
  Gcm.mkGCM (Aes.mkBlock (List.length (key e) / 4 + 6) (Aes.expandKey (key e))).

(** [SignMetadata]. *)
Definition SignMetadata (e : Envelope) (metadata : string) : string :=
  Hex.EncodeToString (Hmac.Sum (hmacSecret e) (Bytes.of_string metadata)).

(** [VerifyMetadata]. *)
Definition VerifyMetadata (e : Envelope) (metadata signature : string) : bool :=
  let expected := SignMetadata e metadata in
  Hmac.Equal (Bytes.of_string expected) (Bytes.of_string signature).

End Crypto.

(* ================================================================= *)
(** ** net/http, as far as the object-store backend uses it *)

Module Http.

Record Request : Type := mkRequest
  { Method : string;
    URL : string;
    Header : list (string * string);
    ContentLength : Z;
    Body : list byte }.

(** A response: the status line, and what [io.ReadAll(resp.Body)]
    yields (the bytes read, and the read error if the body breaks off). *)
Record Response : Type := mkResponse
  { StatusCode : Z;
    RespBody : list byte;
    ReadErr : option string }.

Inductive error : Type :=
| BadRequest (url : string)       (* http.NewRequestWithContext failed *)
| Transport (msg : string).       (* client.Do failed: refused, timeout, ... *)

(** The client and the server behind it.  [W] is the state of the
    world the requests act on; [validURL] is the success of
    [url.Parse] inside [http.NewRequestWithContext]. *)
Class Client (W : Type) : Type :=
  { validURL : string -> bool;
    Do : W -> Request -> W * result error Response }.

Definition NewRequest {W : Type} `{Client W} (method url : string) (body : list byte)
  : result error Request :=
  if validURL url
  then Ok (mkRequest method url [] 0 body)
  else Err (BadRequest url).

Definition SetHeader (k v : string) (r : Request) : Request :=
  mkRequest (Method r) (URL r) ((k, v) :: Header r) (ContentLength r) (Body r).

Definition SetContentLength (n : Z) (r : Request) : Request :=
  mkRequest (Method r) (URL r) (Header r) n (Body r).

End Http.

(* ================================================================= *)
(** ** package storage: the reference, the backend interface, the S3 backend *)

Module Storage.
Local Open Scope string_scope.

(** [type Reference struct]. *)
Record Reference : Type := mkReference
  { URI : string;
    Checksum : string;
    Encrypted : bool;
    SizeBytes : Z }.

Inductive error : Type :=
| BucketRequired                             (* "s3 bucket is required" *)
| CreateRequest (cause : Http.error)         (* "failed to create S3 request: %w" *)
| PutFailed (cause : Http.error)             (* "S3 PUT failed: %w" *)
| PutStatus (code : Z) (body : list byte)    (* "S3 PUT returned status %d: %s" *)
| GetFailed (cause : Http.error)             (* "S3 GET failed: %w" *)
| GetStatus (code : Z) (body : list byte)    (* "S3 GET returned status %d: %s" *)
| ReadResponse (cause : string)              (* "failed to read S3 response: %w" *)
| ChecksumMismatch (expected got : string).  (* "checksum mismatch: expected %s, got %s" *)

(** [type Backend interface]: [W] is the state of the storage medium. *)
Class Backend (B W : Type) : Type :=
  { Store : B -> W -> string -> string -> string -> list byte
            -> W * result error Reference;
    Retrieve : B -> W -> Reference -> W * result error (list byte);
    Close : B -> W -> W * option error }.

(** [type S3Backend struct] (the HTTP client is the [Http.Client]
    instance). *)
Record S3Backend : Type := mkS3Backend
  { endpoint : string;
    bucket : string;
    prefix : string;
    accessKey : string;
    secretKey : string;
    useSSL : bool }.

Record S3Config : Type := mkS3Config
  { Endpoint : string;
    Bucket : string;
    Prefix : string;
    Region : string;
    AccessKey : string;
    SecretKey : string;
    UseSSL : bool }.

(** [NewS3Backend]. *)
Definition NewS3Backend (cfg : S3Config) : result error S3Backend :=
  if String.eqb (Bucket cfg) ""
  then Err BucketRequired
  else Ok (mkS3Backend (Endpoint cfg) (Bucket cfg) (Prefix cfg)
                       (AccessKey cfg) (SecretKey cfg) (UseSSL cfg)).

(** The URI prefix both methods spell out. *)
Definition uriPrefix : string := "promptvault://s3/".

Definition scheme (s : S3Backend) : string :=
  if useSSL s then "https" else "http".

Section S3.
Context {W : Type} `{Http.Client W}.

(** [S3Backend.Store]. *)
Definition S3Store (s : S3Backend) (w : W)
           (traceID spanID attrKey : string) (data : list byte)
  : W * result error Reference :=
  let hash := Sha256.Sum256 data in
  let checksum := Hex.EncodeToString hash in
  let key := prefix s ++ traceID ++ "/" ++ spanID ++ "/" ++ attrKey in
  let url := scheme s ++ "://" ++ endpoint s ++ "/" ++ bucket s ++ "/" ++ key in
  match Http.NewRequest "PUT" url data with
  | Ok req =>
      let req := Http.SetHeader "Content-Type" "application/octet-stream" req in
      let req := Http.SetContentLength (Z.of_nat (List.length data)) req in
      match Http.Do w req with
      | (w', Ok resp) =>
          if (300 <=? Http.StatusCode resp)%Z
          then (w', Err (PutStatus (Http.StatusCode resp) (Http.RespBody resp)))
          else
            (w', Ok (mkReference (uriPrefix ++ bucket s ++ "/" ++ key)
                                 checksum
                                 false
                                 (Z.of_nat (List.length data))))
      | (w', Err err) => (w', Err (PutFailed err))
      | (w', Panic m) => (w', Panic m)
      end
  | Err err => (w, Err (CreateRequest err))
  | Panic m => (w, Panic m)
  end.

(** [S3Backend.Retrieve].  The slice expression
    [ref.URI[len("promptvault://s3/"):]] panics when the URI is shorter
    than the 17 bytes it skips. *)
Definition S3Retrieve (s : S3Backend) (w : W) (ref : Reference)
  : W * result error (list byte) :=
  let n := String.length uriPrefix in
  if (String.length (URI ref) <? n)%nat
  then (w, Panic "runtime error: slice bounds out of range")
  else
    let path := String.substring n (String.length (URI ref) - n) (URI ref) in
    let url := scheme s ++ "://" ++ endpoint s ++ "/" ++ path in
    match Http.NewRequest "GET" url [] with
    | Ok req =>
        match Http.Do w req with
        | (w', Ok resp) =>
            if (300 <=? Http.StatusCode resp)%Z
            then (w', Err (GetStatus (Http.StatusCode resp) (Http.RespBody resp)))
            else
              match Http.ReadErr resp with
              | Some err => (w', Err (ReadResponse err))
              | None =>
                  let data := Http.RespBody resp in
                  let hash := Sha256.Sum256 data in
                  let checksum := Hex.EncodeToString hash in
                  if negb (String.eqb checksum (Checksum ref))
                  then (w', Err (ChecksumMismatch (Checksum ref) checksum))
                  else (w', Ok data)
              end
        | (w', Err err) => (w', Err (GetFailed err))
        | (w', Panic m) => (w', Panic m)
        end
    | Err err => (w, Err (CreateRequest err))
    | Panic m => (w, Panic m)
    end.

(** The object path [Retrieve] takes from a URI, and the URL it asks
    for. *)
Definition objectPath (uri : string) : string :=
  String.substring (String.length uriPrefix)
                   (String.length uri - String.length uriPrefix) uri.

Definition objectURL (s : S3Backend) (uri : string) : string :=
  scheme s ++ "://" ++ endpoint s ++ "/" ++ objectPath uri.

(** "The bytes read back from the storage medium": the GET of the
    object's URL is answered with a status below 300 and a body that is
    read to its end, [data]; the medium is left in state [w']. *)
Definition readsBack (s : S3Backend) (w : W) (ref : Reference)
           (w' : W) (data : list byte) : Prop :=
  (String.length uriPrefix <= String.length (URI ref))%nat /\
  exists req resp,
    Http.NewRequest "GET" (objectURL s (URI ref)) [] = Ok req /\
    Http.Do w req = (w', Ok resp) /\
    (Http.StatusCode resp < 300)%Z /\
    Http.ReadErr resp = None /\
    Http.RespBody resp = data.

(** [S3Backend.Close]: idle connections are dropped, nothing is sent. *)
Definition S3Close (s : S3Backend) (w : W) : W * option error := (w, None).

#[global] Instance S3_Backend : Backend S3Backend W :=
  {| Store := S3Store; Retrieve := S3Retrieve; Close := S3Close |}.

End S3.

End Storage.

(* ================================================================= *)
(** ** pdata: the parts of a span the processor touches *)

Module Pdata.
Local Open Scope string_scope.

(** [pcommon.Value]; [Str()] is the empty string on every value that is
    not a string. *)
Inductive Value : Type :=
| ValueEmpty
| ValueStr (s : string)
| ValueInt (i : Z)
| ValueBool (b : bool)
| ValueBytes (b : list byte).

Definition Str (v : Value) : string :=
  match v with
  | ValueStr s => s
  | _ => ""
  end.

(** [pcommon.Map]: key/value pairs in insertion order. *)
Definition Map : Type := list (string * Value).

(** [PutStr]: the first entry of the key is overwritten, or a new entry
    is appended. *)
Fixpoint PutStr (k v : string) (m : Map) : Map :=
  match m with
  | [] => [(k, ValueStr v)]
  | (k', v') :: rest =>
      if String.eqb k' k then (k, ValueStr v) :: rest
      else (k', v') :: PutStr k v rest
  end.

(** [Remove]: the first entry of the key is overwritten with the last
    entry of the map, which is then cut off. *)
Fixpoint removeWith (k : string) (filler : string * Value) (m : Map) : Map :=
  match m with
  | [] => []
  | [(k', v')] => if String.eqb k' k then [] else [(k', v')]
  | (k', v') :: rest =>
      if String.eqb k' k then filler :: removelast rest
      else (k', v') :: removeWith k filler rest
  end.

Definition Remove (k : string) (m : Map) : Map :=
  match m with
  | [] => []
  | e :: _ => removeWith k (last m e) m
  end.

(** [TraceID.String()] and [SpanID.String()]: hex, or the empty string
    for the all-zero identifier. *)
Definition idString (id : list byte) : string :=
  if forallb (fun b => Z.eqb (Bytes.to_Z b) 0) id then ""
  else Hex.EncodeToString id.

Record Span : Type := mkSpan
  { TraceID : list byte;
    SpanID : list byte;
    Attributes : Map }.

End Pdata.

(* ================================================================= *)
(** ** package promptvaultprocessor: processSpan *)

Module Processor.
Local Open Scope string_scope.
Import Pdata.

(** [VaultConfig]. *)
Record VaultConfig : Type := mkVaultConfig
  { Keys : list string;
    SizeThreshold : Z;
    Mode : string }.

(** [type vaultProcessor struct]; [envelope] is [None] for the nil
    pointer, [keySet] is the set of [cfg.Vault.Keys]. *)
Record vaultProcessor (B : Type) : Type := mkProcessor
  { cfg : VaultConfig;
    backend : B;
    envelope : option Crypto.Envelope;
    keySet : list string }.
Arguments cfg {B} _.
Arguments backend {B} _.
Arguments envelope {B} _.
Arguments keySet {B} _.

(** [p.keySet[k]]: false for a key that is absent. *)
Definition inKeySet {B} (p : vaultProcessor B) (k : string) : bool :=
  existsb (String.eqb k) (keySet p).

(** What [p.logger.Error] records. *)
Inductive logEntry : Type :=
| EncryptionFailed (key : string) (err : Crypto.error)
| StoreFailed (key : string) (err : Storage.error).

Record pendingOp : Type := mkOp { key : string; ref : Storage.Reference }.

Definition setEncrypted (r : Storage.Reference) : Storage.Reference :=
  Storage.mkReference (Storage.URI r) (Storage.Checksum r) true
                      (Storage.SizeBytes r).

Section ProcessSpan.
Context {B W : Type} `{Storage.Backend B W}.

(** [json.Marshal] of a [Reference]. *)
Variable Marshal : Storage.Reference -> string.

(** Everything the processor acts on: the storage medium, the entropy
    source and the log. *)
Record Env : Type := mkEnv
  { world : W;
    entropy : Rand.Reader;
    logs : list logEntry }.

(** The callback of [span.Attributes().Range]: one attribute. *)
Definition visit (p : vaultProcessor B) (traceID spanID : string)
           (acc : Env * list pendingOp) (kv : string * Value)
  : result Empty_set (Env * list pendingOp) :=
  let (env, ops) := acc in
  let (k, v) := kv in
  if negb (inKeySet p k) then Ok acc
  else
    let val := Str v in
    if (Z.of_nat (String.length val) <? SizeThreshold (cfg p))%Z then Ok acc
    else
      let data := Bytes.of_string val in
      (* Encrypt if enabled: [data = encrypted]. *)
      let (rnd, encrypted) :=
        match envelope p with
        | Some e => Crypto.Encrypt e (entropy env) data
        | None => (entropy env, Ok data)
        end in
      match encrypted with
      | Err err =>
          Ok (mkEnv (world env) rnd (logs env ++ [EncryptionFailed k err])%list, ops)
      | Panic m => Panic m
      | Ok data =>
          match Storage.Store (backend p) (world env) traceID spanID k data with
          | (w, Err err) =>
              Ok (mkEnv w rnd (logs env ++ [StoreFailed k err])%list, ops)
          | (w, Panic m) => Panic m
          | (w, Ok r) =>
              let r := match envelope p with
                       | Some _ => setEncrypted r
                       | None => r
                       end in
              Ok (mkEnv w rnd (logs env), (ops ++ [mkOp k r])%list)
          end
      end.

Fixpoint range (p : vaultProcessor B) (traceID spanID : string)
         (acc : Env * list pendingOp) (attrs : Map)
  : result Empty_set (Env * list pendingOp) :=
  match attrs with
  | [] => Ok acc
  | kv :: rest =>
      bind (visit p traceID spanID acc kv)
           (fun acc' => range p traceID spanID acc' rest)
  end.

(** The first half of [processSpan]: the pending operations. *)
Definition collectOps (p : vaultProcessor B) (env : Env) (span : Span)
  : result Empty_set (Env * list pendingOp) :=
  range p (idString (TraceID span)) (idString (SpanID span))
        (env, []) (Attributes span).

(** What the loop records under an enabled envelope [e], in terms of the
    span: the operation is for an attribute [(k, v)] of the span, and
    its reference describes the bytes [c] that [Encrypt] made of the
    value, which are the bytes handed to [Store]. *)
Definition recordedEncrypted (e : Crypto.Envelope) (span : Span)
           (op : pendingOp) : Prop :=
  exists v rnd rnd' c,
    In (key op, v) (Attributes span) /\
    Crypto.Encrypt e rnd (Bytes.of_string (Str v)) = (rnd', Ok c) /\
    Storage.Checksum (ref op) = Hex.EncodeToString (Sha256.Sum256 c) /\
    Storage.SizeBytes (ref op) = Z.of_nat (List.length c) /\
    Storage.Encrypted (ref op) = true.

(** The second half: the switch on [cfg.Vault.Mode], one operation. *)
Definition apply (p : vaultProcessor B) (attrs : Map) (op : pendingOp) : Map :=
  let refJSON := Marshal (ref op) in
  if String.eqb (Mode (cfg p)) "replace_with_ref" then
    PutStr (key op) refJSON attrs
  else if String.eqb (Mode (cfg p)) "drop" then
    PutStr (key op ++ ".vault_ref") refJSON (Remove (key op) attrs)
  else if String.eqb (Mode (cfg p)) "keep_and_ref" then
    PutStr (key op ++ ".vault_ref") refJSON attrs
  else attrs.

(** [processSpan]. *)
Definition processSpan (p : vaultProcessor B) (env : Env) (span : Span)
  : result Empty_set (Env * Span) :=
  bind (collectOps p env span)
       (fun r => let (env', ops) := r in
                 Ok (env', mkSpan (TraceID span) (SpanID span)
                                  (fold_left (apply p) ops (Attributes span)))).

End ProcessSpan.

End Processor.

(* ================================================================= *)
(** ** An object store to run the backend against

    The HTTP side of an S3-compatible server that keeps objects in
    memory, in the manner of an [httptest] server: PUT stores the body
    under the URL and answers 200, GET answers 200 with the object or
    404, every other method 405.  It stands for the environment in the
    closed examples; the general statements hold for every
    [Http.Client]. *)

Module MemS3.
Local Open Scope string_scope.

Record world : Type := mkWorld { objects : list (string * list byte) }.

Definition empty : world := mkWorld [].

Fixpoint lookup (url : string) (l : list (string * list byte))
  : option (list byte) :=
  match l with
  | [] => None
  | (u, d) :: rest => if String.eqb u url then Some d else lookup url rest
  end.

Definition printable (c : ascii) : bool :=
  let n := N_of_ascii c in (N.ltb 32 n) && negb (N.eqb n 127).

Definition serve (w : world) (r : Http.Request)
  : world * result Http.error Http.Response :=
  if String.eqb (Http.Method r) "PUT" then
    (mkWorld ((Http.URL r, Http.Body r) :: objects w),
     Ok (Http.mkResponse 200 [] None))
  else if String.eqb (Http.Method r) "GET" then
    match lookup (Http.URL r) (objects w) with
    | Some d => (w, Ok (Http.mkResponse 200 d None))
    | None => (w, Ok (Http.mkResponse 404 (Bytes.of_string "NoSuchKey") None))
    end
  else (w, Ok (Http.mkResponse 405 [] None)).

#[global] Instance client : Http.Client world :=
  {| Http.validURL := fun u => forallb printable (list_ascii_of_string u);
     Http.Do := serve |}.

End MemS3.


(* ================================================================= *)
(** ** A fixed configuration for the closed examples *)

Module Fixture.
Local Open Scope string_scope.

(** The key of the repository's tests ([testKey] in envelope_test.go). *)
Definition testKey : string :=
  "0123456789abcdef0123456789abcdef0123456789abcdef0123456789abcdef".

Definition env : Crypto.Envelope :=
  Crypto.mkEnvelope (fst (Hex.DecodeString testKey))
                    (Bytes.of_string "test-hmac-secret").

Definition s3 : Storage.S3Backend :=
  Storage.mkS3Backend "localhost:9000" "prompts" "pv/" "" "" false.

Definition vault : Processor.VaultConfig :=
  Processor.mkVaultConfig ["gen_ai.prompt"] 0 "replace_with_ref".

Definition proc (e : option Crypto.Envelope)
  : Processor.vaultProcessor Storage.S3Backend :=
  Processor.mkProcessor Storage.S3Backend vault s3 e ["gen_ai.prompt"].

Definition span : Pdata.Span :=
  Pdata.mkSpan (map (fun i => Bytes.of_Z (Z.of_nat i)) (seq 1 16))
               (map (fun i => Bytes.of_Z (Z.of_nat i)) (seq 1 8))
               [("gen_ai.prompt", Pdata.ValueStr "hello");
                ("gen_ai.model", Pdata.ValueStr "gpt-4")].

(** The scenario of the storage tests. *)
Definition prompt : list byte :=
  Bytes.of_string "This is a sensitive prompt content".

Definition stored : MemS3.world * result Storage.error Storage.Reference :=
  Storage.S3Store s3 MemS3.empty "trace123" "span456" "gen_ai.input.messages"
                  prompt.

(** Twelve bytes of entropy: the nonce of the first encryption. *)
Definition entropy : Rand.Reader := Bytes.of_string "abcdefghijkl".

Definition start : Processor.Env := Processor.mkEnv MemS3.empty entropy [].

(** Shorthands of the known-answer examples: hex in, hex out. *)
Definition unhex (s : string) : list byte := fst (Hex.DecodeString s).

Definition sha256_hex (s : string) : string :=
  Hex.EncodeToString (Sha256.Sum256 (Bytes.of_string s)).

Definition aes_hex (k p : string) : string :=
  match Aes.NewCipher (unhex k) with
  | Ok b => Hex.EncodeToString (Aes.Encrypt b (unhex p))
  | _ => ""
  end.

Definition gcm_hex (k n p : string) : string :=
  match Aes.NewCipher (unhex k) with
  | Ok b =>
      match Gcm.Seal (Gcm.mkGCM b) [] (unhex n) (unhex p) [] with
      | Ok c => Hex.EncodeToString c
      | _ => ""
      end
  | _ => ""
  end.

Definition zeroKey : string :=
  "0000000000000000000000000000000000000000000000000000000000000000".

(** A processor in a given mode with a given threshold, a backend whose
    endpoint is no host name, and a span with two configured keys. *)
Definition procWith (mode : string) (threshold : Z) (e : option Crypto.Envelope)
  : Processor.vaultProcessor Storage.S3Backend :=
  Processor.mkProcessor Storage.S3Backend
    (Processor.mkVaultConfig ["gen_ai.prompt"; "gen_ai.completion"] threshold mode)
    s3 e ["gen_ai.prompt"; "gen_ai.completion"].

Definition unreachable : Processor.vaultProcessor Storage.S3Backend :=
  Processor.mkProcessor Storage.S3Backend
    (Processor.mkVaultConfig ["gen_ai.prompt"] 0 "drop")
    (Storage.mkS3Backend "no host" "prompts" "pv/" "" "" false)
    None ["gen_ai.prompt"].

Definition chat : Pdata.Span :=
  Pdata.mkSpan (map (fun i => Bytes.of_Z (Z.of_nat i)) (seq 1 16))
               (map (fun i => Bytes.of_Z (Z.of_nat i)) (seq 1 8))
               [("gen_ai.prompt", Pdata.ValueStr "What is the meaning of life?");
                ("gen_ai.model", Pdata.ValueStr "gpt-4");
                ("gen_ai.completion", Pdata.ValueStr "42")].

(** Shorthands of the test scenarios. *)
Definition envelopeOf (hexKey secret : string) : Crypto.Envelope :=
  match Crypto.NewEnvelope hexKey secret with
  | Ok e => e
  | _ => Crypto.mkEnvelope [] []
  end.

Definition sealed (e : Crypto.Envelope) (nonce plaintext : string) : list byte :=
  match Crypto.Encrypt e (Bytes.of_string nonce) (Bytes.of_string plaintext) with
  | (_, Ok c) => c
  | _ => []
  end.

End Fixture.

(* ================================================================= *)
(** ** package promptvaultprocessor: configuration *)

Module Config.
Local Open Scope string_scope.

(** [FilesystemConfig], [S3Config], [StorageConfig], [CryptoConfig] and
    [Config]; [VaultConfig] is [Processor.VaultConfig]. *)
Record FilesystemConfig : Type := mkFilesystemConfig { BasePath : string }.

Record S3Config : Type := mkS3Config
  { Endpoint : string;
    Bucket : string;
    Prefix : string;
    Region : string;
    AccessKey : string;
    SecretKey : string;
    UseSSL : bool }.

Record StorageConfig : Type := mkStorageConfig
  { Backend : string;
    Filesystem : FilesystemConfig;
    S3 : S3Config }.

Record CryptoConfig : Type := mkCryptoConfig
  { Enable : bool;
    KeySource : string;
    StaticKey : string;
    EnvVar : string;
    HMACSecret : string }.

Record Config : Type := mkConfig
  { Storage : StorageConfig;
    Vault : Processor.VaultConfig;
    Crypto : CryptoConfig }.

Inductive error : Type :=
| UnsupportedBackend (b : string) (* "unsupported storage backend: %q ..." *)
| BasePathRequired   (* "filesystem.base_path is required when backend is filesystem" *)
| BucketRequired     (* "s3.bucket is required when backend is s3" *)
| UnsupportedMode (m : string)       (* "unsupported vault mode: %q" *)
| KeysRequired       (* "vault.keys must contain at least one attribute key" *)
| UnsupportedKeySource (k : string). (* "unsupported crypto key_source: %q" *)

(** [Validate]: the first failing check is reported; [None] is [nil]. *)
Definition Validate (c : Config) : option error :=
  let backend := Backend (Storage c) in
  if negb (String.eqb backend "filesystem" || String.eqb backend "s3")
  then Some (UnsupportedBackend backend)
  else if String.eqb backend "filesystem"
          && String.eqb (BasePath (Filesystem (Storage c))) ""
  then Some BasePathRequired
  else if String.eqb backend "s3" && String.eqb (Bucket (S3 (Storage c))) ""
  then Some BucketRequired
  else
    let mode := Processor.Mode (Vault c) in
    if negb (String.eqb mode "replace_with_ref" || String.eqb mode "drop"
             || String.eqb mode "keep_and_ref")
    then Some (UnsupportedMode mode)
    else if (List.length (Processor.Keys (Vault c)) =? 0)%nat
    then Some KeysRequired
    else if Enable (Crypto c)
    then
      let source := KeySource (Crypto c) in
      if negb (String.eqb source "env" || String.eqb source "static")
      then Some (UnsupportedKeySource source)
      else None
    else None.

(** [createDefaultConfig]. *)
Definition createDefaultConfig : Config :=
  mkConfig
    (mkStorageConfig "filesystem" (mkFilesystemConfig "/tmp/promptvault")
                     (mkS3Config "" "" "" "" "" "" false))
    (Processor.mkVaultConfig
       ["gen_ai.system_instructions"; "gen_ai.input.messages";
        "gen_ai.output.messages"; "gen_ai.prompt"; "gen_ai.completion"]
       0 "replace_with_ref")
    (mkCryptoConfig false "" "" "" "").

End Config.

(* ================================================================= *)
(** ** package promptvaultprocessor: the processor's life cycle, span
       events and ConsumeTraces *)

Module Collector.
Local Open Scope string_scope.

(** [ptrace.SpanEvent]: its name and its attributes. *)
Record Event : Type := mkEvent
  { EventName : string;
    EventAttributes : Pdata.Map }.

(** A span with its events; [ptrace.Traces] as resource spans of scope
    spans of spans. *)
Record SpanData : Type := mkSpanData
  { span : Pdata.Span;
    Events : list Event }.

Definition Traces : Type := list (list (list SpanData)).

(** What the logger receives. *)
Inductive logLine : Type :=
| Started (backend mode : string) (encryption : bool) (keys : nat)
    (* "Prompt vault processor started" *)
| SpanLog (entry : Processor.logEntry)
    (* "encryption failed", "vault store failed" *)
| EventEncryptionFailed (key : string) (err : Crypto.error)
    (* "encryption failed (event)" *)
| EventStoreFailed (key : string) (err : Storage.error).
    (* "vault store failed (event)" *)

Inductive error : Type :=
| InvalidConfig (cause : Config.error)      (* "invalid config: %w" *)
| InitFilesystem (cause : Storage.error)    (* "failed to init filesystem backend: %w" *)
| InitS3 (cause : Storage.error)            (* "failed to init S3 backend: %w" *)
| InitEncryption (cause : Crypto.error).    (* "failed to init encryption: %w" *)

(** [%d] of a non-negative [int]. *)
Definition itoa (i : nat) : string :=
  DecimalString.NilZero.string_of_uint (Nat.to_uint i).

(** [fmt.Sprintf("%s/event_%d/%s", spanID, i, k)]. *)
Definition eventKey (spanID : string) (i : nat) (k : string) : string :=
  spanID ++ "/event_" ++ itoa i ++ "/" ++ k.

Section Lifecycle.
Context {W FS : Type} {client : Http.Client W} {fsBackend : Storage.Backend FS W}.

(** [storage.NewFilesystemBackend], whose file is not part of the
    sources at hand: any constructor of a backend of type [FS]. *)
Variable NewFilesystemBackend : string -> W -> W * result Storage.error FS.

(** [os.Getenv]. *)
Variable Getenv : string -> string.

(** [json.Marshal] of a [Reference]. *)
Variable Marshal : Storage.Reference -> string.

(** The next consumer of the pipeline, [p.next.ConsumeTraces]. *)
Variable Next : W -> Traces -> W * option string.

(** A value of the interface [storage.Backend]: one of the two
    implementations, or nil.  A method called on nil panics; [Close] is
    called by [Shutdown] only, behind its test for nil. *)
Definition Impl : Type := (FS + Storage.S3Backend)%type.

Definition nilDereference : string :=
  "runtime error: invalid memory address or nil pointer dereference".

#[global] Instance Interface : Storage.Backend (option Impl) W :=
  {| Storage.Store := fun b w t s k d =>
       match b with
       | None => (w, Panic nilDereference)
       | Some (inl fs) => Storage.Store fs w t s k d
       | Some (inr s3) => Storage.S3Store s3 w t s k d
       end;
     Storage.Retrieve := fun b w r =>
       match b with
       | None => (w, Panic nilDereference)
       | Some (inl fs) => Storage.Retrieve fs w r
       | Some (inr s3) => Storage.S3Retrieve s3 w r
       end;
     Storage.Close := fun b w =>
       match b with
       | None => (w, None)
       | Some (inl fs) => Storage.Close fs w
       | Some (inr s3) => Storage.S3Close s3 w
       end |}.

(** [type vaultProcessor struct], all of it but the logger and the next
    consumer. *)
Record vaultProcessor : Type := mkVaultProcessor
  { cfg : Config.Config;
    backend : option Impl;
    envelope : option Crypto.Envelope;
    keySet : list string }.

(** The processor as [processSpan] reads it. *)
Definition view (p : vaultProcessor)
  : Processor.vaultProcessor (option Impl) :=
  Processor.mkProcessor (option Impl) (Config.Vault (cfg p)) (backend p)
                        (envelope p) (keySet p).

(** [newProcessor]: the key set holds [cfg.Vault.Keys]. *)
Definition newProcessor (c : Config.Config) : result error vaultProcessor :=
  match Config.Validate c with
  | Some err => Err (InvalidConfig err)
  | None =>
      Ok (mkVaultProcessor c None None (Processor.Keys (Config.Vault c)))
  end.

(** [Start]: the processor as the call leaves it, what was logged and
    the outcome ([Ok tt] is [nil]). *)
Definition Start (p : vaultProcessor) (w : W)
  : W * vaultProcessor * list logLine * result error unit :=
  let storage := Config.Storage (cfg p) in
  let crypto := Config.Crypto (cfg p) in
  let initEncryption (w1 : W) (p1 : vaultProcessor) :=
    let started :=
      [Started (Config.Backend storage) (Processor.Mode (Config.Vault (cfg p)))
               (Config.Enable crypto)
               (List.length (Processor.Keys (Config.Vault (cfg p))))] in
    if Config.Enable crypto then
      let hexKey := if String.eqb (Config.KeySource crypto) "env"
                    then Getenv (Config.EnvVar crypto)
                    else Config.StaticKey crypto in
      match Crypto.NewEnvelope hexKey (Config.HMACSecret crypto) with
      | Ok env =>
          (w1, mkVaultProcessor (cfg p1) (backend p1) (Some env) (keySet p1),
           started, Ok tt)
      | Err err => (w1, p1, [], Err (InitEncryption err))
      | Panic m => (w1, p1, [], Panic m)
      end
    else (w1, p1, started, Ok tt) in
  if String.eqb (Config.Backend storage) "filesystem" then
    match NewFilesystemBackend (Config.BasePath (Config.Filesystem storage)) w with
    | (w1, Ok be) =>
        initEncryption w1 (mkVaultProcessor (cfg p) (Some (inl be))
                                            (envelope p) (keySet p))
    | (w1, Err err) => (w1, p, [], Err (InitFilesystem err))
    | (w1, Panic m) => (w1, p, [], Panic m)
    end
  else if String.eqb (Config.Backend storage) "s3" then
    let c := Config.S3 storage in
    match Storage.NewS3Backend
            (Storage.mkS3Config (Config.Endpoint c) (Config.Bucket c)
                                (Config.Prefix c) (Config.Region c)
                                (Config.AccessKey c) (Config.SecretKey c)
                                (Config.UseSSL c)) with
    | Ok be =>
        initEncryption w (mkVaultProcessor (cfg p) (Some (inr be))
                                           (envelope p) (keySet p))
    | Err err => (w, p, [], Err (InitS3 err))
    | Panic m => (w, p, [], Panic m)
    end
  else initEncryption w p.

(** [Shutdown]. *)
Definition Shutdown (p : vaultProcessor) (w : W) : W * option Storage.error :=
  match backend p with
  | Some b => Storage.Close (Some b) w
  | None => (w, None)
  end.

(** What the processor acts on while traces pass. *)
Record State : Type := mkState
  { world : W;
    entropy : Rand.Reader;
    log : list logLine }.

(** [processSpan] in this state: its log entries are appended. *)
Definition spanStep (p : vaultProcessor) (st : State) (sp : Pdata.Span)
  : result Empty_set (State * Pdata.Span) :=
  bind (Processor.processSpan Marshal (view p)
          (Processor.mkEnv (world st) (entropy st) []) sp)
       (fun r => let (env, sp') := r in
                 Ok (mkState (Processor.world env) (Processor.entropy env)
                             (log st ++ map SpanLog (Processor.logs env))%list,
                     sp')).

(** The callback of [event.Attributes().Range] in [processSpanEvents]:
    one attribute of event [i]. *)
Definition visitEvent (p : vaultProcessor) (traceID spanID : string) (i : nat)
           (acc : State * list Processor.pendingOp)
           (kv : string * Pdata.Value)
  : result Empty_set (State * list Processor.pendingOp) :=
  let (st, ops) := acc in
  let (k, v) := kv in
  if negb (Processor.inKeySet (view p) k) then Ok acc
  else
    let val := Pdata.Str v in
    if (Z.of_nat (String.length val)
        <? Processor.SizeThreshold (Config.Vault (cfg p)))%Z then Ok acc
    else
      let data := Bytes.of_string val in
      let (rnd, encrypted) :=
        match envelope p with
        | Some e => Crypto.Encrypt e (entropy st) data
        | None => (entropy st, Ok data)
        end in
      match encrypted with
      | Err err =>
          Ok (mkState (world st) rnd
                      (log st ++ [EventEncryptionFailed k err])%list, ops)
      | Panic m => Panic m
      | Ok data =>
          match Storage.Store (backend p) (world st) traceID spanID
                              (eventKey spanID i k) data with
          | (w, Err err) =>
              Ok (mkState w rnd (log st ++ [EventStoreFailed k err])%list, ops)
          | (w, Panic m) => Panic m
          | (w, Ok r) =>
              let r := match envelope p with
                       | Some _ => Processor.setEncrypted r
                       | None => r
                       end in
              Ok (mkState w rnd (log st), (ops ++ [Processor.mkOp k r])%list)
          end
      end.

Fixpoint rangeEvent (p : vaultProcessor) (traceID spanID : string) (i : nat)
         (acc : State * list Processor.pendingOp) (attrs : Pdata.Map)
  : result Empty_set (State * list Processor.pendingOp) :=
  match attrs with
  | [] => Ok acc
  | kv :: rest =>
      bind (visitEvent p traceID spanID i acc kv)
           (fun acc' => rangeEvent p traceID spanID i acc' rest)
  end.

(** The body of the loop over the events: event [i]. *)
Definition eventStep (p : vaultProcessor) (traceID spanID : string) (i : nat)
           (st : State) (ev : Event) : result Empty_set (State * Event) :=
  bind (rangeEvent p traceID spanID i (st, []) (EventAttributes ev))
       (fun r => let (st', ops) := r in
                 Ok (st', mkEvent (EventName ev)
                                  (fold_left (Processor.apply Marshal (view p))
                                             ops (EventAttributes ev)))).

Fixpoint eventsFrom (p : vaultProcessor) (traceID spanID : string) (i : nat)
         (st : State) (events : list Event)
  : result Empty_set (State * list Event) :=
  match events with
  | [] => Ok (st, [])
  | ev :: rest =>
      bind (eventStep p traceID spanID i st ev)
           (fun r => let (st1, ev') := r in
              bind (eventsFrom p traceID spanID (S i) st1 rest)
                   (fun r' => let (st2, rest') := r' in Ok (st2, ev' :: rest')))
  end.

(** [processSpanEvents]. *)
Definition processSpanEvents (p : vaultProcessor) (st : State)
           (sp : Pdata.Span) (events : list Event)
  : result Empty_set (State * list Event) :=
  eventsFrom p (Pdata.idString (Pdata.TraceID sp))
             (Pdata.idString (Pdata.SpanID sp)) 0 st events.

(** One span of [ConsumeTraces]: [processSpan], then
    [processSpanEvents]. *)
Definition spanDataStep (p : vaultProcessor) (st : State) (d : SpanData)
  : result Empty_set (State * SpanData) :=
  bind (spanStep p st (span d))
       (fun r => let (st1, sp') := r in
          bind (processSpanEvents p st1 sp' (Events d))
               (fun r' => let (st2, evs') := r' in
                          Ok (st2, mkSpanData sp' evs'))).

(** A loop [for i := 0; i < xs.Len(); i++] that updates each element in
    place. *)
Fixpoint forEach {A : Type} (f : State -> A -> result Empty_set (State * A))
         (st : State) (l : list A) : result Empty_set (State * list A) :=
  match l with
  | [] => Ok (st, [])
  | x :: rest =>
      bind (f st x)
           (fun r => let (st1, x') := r in
              bind (forEach f st1 rest)
                   (fun r' => let (st2, rest') := r' in Ok (st2, x' :: rest')))
  end.

(** [ConsumeTraces]: the state afterwards, the traces handed to the next
    consumer, and the error returned, which is the next consumer's. *)
Definition ConsumeTraces (p : vaultProcessor) (st : State) (td : Traces)
  : result Empty_set (State * Traces * option string) :=
  bind (forEach (forEach (forEach (spanDataStep p))) st td)
       (fun r => let (st1, td') := r in
                 let (w, err) := Next (world st1) td' in
                 Ok (mkState w (entropy st1) (log st1), td', err)).

End Lifecycle.

End Collector.

(* ================================================================= *)
(** ** cmd/promptvaultctl *)

Module Ctl.
Local Open Scope string_scope.

Inductive error : Type :=
| ArgCount (n : nat)                    (* "expected 1-2 arguments, got %d" *)
| ParseReference (cause : string)       (* "failed to parse vault reference: %w" *)
| OpenVault (cause : Storage.error)     (* "failed to open vault: %w" *)
| RetrieveContent (cause : Storage.error) (* "failed to retrieve content: %w" *)
| KeyRequired       (* "PROMPTVAULT_KEY env var required for encrypted content" *)
| InitDecryption (cause : Crypto.error) (* "failed to init decryption: %w" *)
| DecryptionFailed (cause : Crypto.error). (* "decryption failed: %w" *)

(** The line end that [fmt.Println] writes. *)
Definition newline : string := String (ascii_of_nat 10) "".

Section RunGet.
Context {W FS : Type} {fsBackend : Storage.Backend FS W}.

(** [storage.NewFilesystemBackend], [os.Getenv] and [json.Unmarshal]
    into a [storage.Reference]. *)
Variable NewFilesystemBackend : string -> W -> W * result Storage.error FS.
Variable Getenv : string -> string.
Variable Unmarshal : string -> result string Storage.Reference.

(** The part of [runGet] after [defer be.Close()]: what is written to
    the standard output, and the outcome. *)
Definition fetch (be : FS) (ref : Storage.Reference) (w : W)
  : W * list string * result error unit :=
  match Storage.Retrieve be w ref with
  | (w1, Err err) => (w1, [], Err (RetrieveContent err))
  | (w1, Panic m) => (w1, [], Panic m)
  | (w1, Ok data) =>
      let decrypted :=
        if Storage.Encrypted ref then
          let hexKey := Getenv "PROMPTVAULT_KEY" in
          let hmacSecret := Getenv "PROMPTVAULT_HMAC_SECRET" in
          if String.eqb hexKey "" then Err KeyRequired
          else
            bind (wrap InitDecryption (Crypto.NewEnvelope hexKey hmacSecret))
                 (fun env => wrap DecryptionFailed (Crypto.Decrypt env data))
        else Ok data in
      match decrypted with
      | Ok data => (w1, [Bytes.to_string data ++ newline], Ok tt)
      | Err err => (w1, [], Err err)
      | Panic m => (w1, [], Panic m)
      end
  end.

(** [runGet]; the deferred [be.Close()] runs last, its error is
    dropped. *)
Definition runGet (args : list string) (w : W)
  : W * list string * result error unit :=
  let run (basePath refJSON : string) :=
    match Unmarshal refJSON with
    | Err err => (w, [], Err (ParseReference err))
    | Panic m => (w, [], Panic m)
    | Ok ref =>
        match NewFilesystemBackend basePath w with
        | (w1, Err err) => (w1, [], Err (OpenVault err))
        | (w1, Panic m) => (w1, [], Panic m)
        | (w1, Ok be) =>
            let '(w2, out, r) := fetch be ref w1 in
            (fst (Storage.Close be w2), out, r)
        end
    end in
  match args with
  | [refJSON] => run "/tmp/promptvault" refJSON
  | [basePath; refJSON] => run basePath refJSON
  | _ => (w, [], Err (ArgCount (List.length args)))
  end.

End RunGet.

End Ctl.

(* ================================================================= *)
(** ** A collector and a vault for the closed examples *)

Module Scenario.
Local Open Scope string_scope.

(** A configuration on the object store of [Fixture.s3], with a static
    key. *)
Definition config (enable : bool) (hexKey : string) : Config.Config :=
  Config.mkConfig
    (Config.mkStorageConfig "s3" (Config.mkFilesystemConfig "")
       (Config.mkS3Config "localhost:9000" "prompts" "pv/" "" "" "" false))
    (Processor.mkVaultConfig ["gen_ai.prompt"] 0 "replace_with_ref")
    (Config.mkCryptoConfig enable "static" hexKey "" "test-hmac-secret").

(** In the examples the object store stands for the filesystem backend
    too: the base path is its prefix. *)
Definition openStore (basePath : string) (w : MemS3.world)
  : MemS3.world * result Storage.error Storage.S3Backend :=
  (w, Storage.NewS3Backend
        (Storage.mkS3Config "localhost:9000" "prompts" basePath "" "" "" false)).

Definition getenv (name : string) : string :=
  if String.eqb name "PROMPTVAULT_KEY" then Fixture.testKey else "".

Definition next (w : MemS3.world) (td : Collector.Traces)
  : MemS3.world * option string := (w, None).

(** The processor as [newProcessor] returns it, and as [Start] leaves
    it. *)
Definition fresh (c : Config.Config)
  : Collector.vaultProcessor (FS := Storage.S3Backend) :=
  Collector.mkVaultProcessor c None None (Processor.Keys (Config.Vault c)).

Definition running : Collector.vaultProcessor (FS := Storage.S3Backend) :=
  Collector.mkVaultProcessor (config true Fixture.testKey)
                             (Some (inr Fixture.s3)) (Some Fixture.env)
                             ["gen_ai.prompt"].

Definition state : Collector.State :=
  Collector.mkState MemS3.empty (Bytes.of_string "abcdefghijklmnopqrstuvwx") [].

Definition prompted : Pdata.Map := [("gen_ai.prompt", Pdata.ValueStr "hi")].

(** One span with one event. *)
Definition traces : Collector.Traces :=
  [[[Collector.mkSpanData Fixture.span
       [Collector.mkEvent "gen_ai.content.prompt" prompted]]]].

(** A vault that holds one encrypted value, and its reference. *)
Definition deposit : MemS3.world * result Storage.error Storage.Reference :=
  Storage.S3Store
    (Storage.mkS3Backend "localhost:9000" "prompts" "/tmp/promptvault/" "" "" false)
    MemS3.empty "trace123" "span456" "gen_ai.prompt"
    (Fixture.sealed Fixture.env "abcdefghijkl" "hello").

Definition vault : MemS3.world := fst deposit.

Definition reference : Storage.Reference :=
  match snd deposit with
  | Ok r => Processor.setEncrypted r
  | _ => Storage.mkReference "" "" true 0
  end.

Definition unmarshal (refJSON : string) : result string Storage.Reference :=
  if String.eqb refJSON "ref" then Ok reference
  else Err "invalid character".

End Scenario.

(* ================================================================= *)
(** ** Predicates used in the statements *)

Module Shape.

(** A character of [hextable]: a digit or a letter from [a] to [f]. *)
Definition isLowerHexDigit (c : ascii) : bool :=
  existsb (Ascii.eqb c) Hex.hextable.

(** A string of lower-case hex digits. *)
Definition lowerHex (s : string) : bool :=
  forallb isLowerHexDigit (list_ascii_of_string s).

(** The check that the two digits [EncodeToString] writes for [b] are
    lower-case and are read back by [fromHexChar] as [b]. *)
Definition digitsReadBack (b : byte) : bool :=
  let hi := Hex.digit (Z.shiftr (Bytes.to_Z b) 4) in
  let lo := Hex.digit (Z.land (Bytes.to_Z b) 15) in
  isLowerHexDigit hi && isLowerHexDigit lo &&
  match Hex.fromHexChar hi, Hex.fromHexChar lo with
  | Some x, Some y => Byte.eqb (Bytes.of_Z (Z.lor (Z.shiftl x 4) y)) b
  | _, _ => false
  end.

(** An attribute the processor offloads: its key is configured and its
    string value is not below the threshold. *)
Definition qualifies {B : Type} (p : Processor.vaultProcessor B)
           (kv : string * Pdata.Value) : bool :=
  Processor.inKeySet p (fst kv) &&
  negb (Z.of_nat (String.length (Pdata.Str (snd kv)))
        <? Processor.SizeThreshold (Processor.cfg p))%Z.

(** The name of the attribute that holds the reference in the modes
    [drop] and [keep_and_ref]. *)
Definition refKey (k : string) : string := (k ++ ".vault_ref")%string.

(** What the attribute loop records without envelope on the S3
    backend, in terms of the span: the reference of the attribute's
    value itself. *)
Definition recordedPlain (p : Processor.vaultProcessor Storage.S3Backend)
           (traceID spanID : string) (span : Pdata.Span)
           (op : Processor.pendingOp) : Prop :=
  exists v,
    In (Processor.key op, v) (Pdata.Attributes span) /\
    Processor.ref op
    = Storage.mkReference
        (Storage.uriPrefix ++ Storage.bucket (Processor.backend p) ++ "/"
           ++ (Storage.prefix (Processor.backend p) ++ traceID ++ "/"
                 ++ spanID ++ "/" ++ Processor.key op))%string
        (Hex.EncodeToString (Sha256.Sum256 (Bytes.of_string (Pdata.Str v))))
        false
        (Z.of_nat (String.length (Pdata.Str v))).

(** What the attribute loop of event [i] records on the S3 backend:
    the reference of the bytes stored (the value's own bytes, or what
    [Encrypt] made of them), under the key that [processSpanEvents]
    builds. *)
Definition eventReference {FS : Type} (p : Collector.vaultProcessor (FS := FS))
           (s3 : Storage.S3Backend) (traceID spanID : string) (i : nat)
           (attrs : Pdata.Map) (op : Processor.pendingOp) : Prop :=
  exists v data,
    In (Processor.key op, v) attrs /\
    match Collector.envelope p with
    | Some e => exists rnd rnd',
        Crypto.Encrypt e rnd (Bytes.of_string (Pdata.Str v)) = (rnd', Ok data)
    | None => data = Bytes.of_string (Pdata.Str v)
    end /\
    Processor.ref op
    = Storage.mkReference
        ("promptvault://s3/" ++ Storage.bucket s3 ++ "/"
           ++ (Storage.prefix s3 ++ traceID ++ "/" ++ spanID ++ "/"
                 ++ (spanID ++ "/event_" ++ Collector.itoa i ++ "/"
                       ++ Processor.key op)))%string
        (Hex.EncodeToString (Sha256.Sum256 data))
        (match Collector.envelope p with Some _ => true | None => false end)
        (Z.of_nat (List.length data)).

(** What [ConsumeTraces] leaves of the traces whatever it offloads:
    the nesting, the identifiers of the spans and the names of their
    events. *)
Definition outline (td : Collector.Traces)
  : list (list (list (list byte * list byte * list string))) :=
  map (map (map (fun d => (Pdata.TraceID (Collector.span d),
                           Pdata.SpanID (Collector.span d),
                           map Collector.EventName (Collector.Events d))))) td.



End Shape.

(* ================================================================= *)
(** * Properties *)

(* ----------------------------------------------------------------- *)
(** ** Known answers

    The library models against the published vectors: FIPS 180-4 for
    SHA-256, RFC 4231 for HMAC-SHA256, FIPS 197 appendix C for AES, and
    test cases 13 to 15 of the GCM specification for AES-256-GCM. *)

Module KnownAnswers.
Import Fixture.
Local Open Scope string_scope.

Example hex_roundtrip :
  Hex.DecodeString "00ff7F" = (map Bytes.of_Z [0; 255; 127]%Z, None) /\
  Hex.EncodeToString (map Bytes.of_Z [0; 255; 127]%Z) = "00ff7f".
Proof. split; vm_compute; reflexivity. Qed.

Example hex_rejects :
  snd (Hex.DecodeString "0g") = Some (Hex.InvalidByteError "g") /\
  snd (Hex.DecodeString "abc") = Some Hex.ErrLength.
Proof. split; vm_compute; reflexivity. Qed.

Example sha256_constants :
  nth 0 Sha256.K 0%Z = 0x428a2f98%Z /\
  nth 63 Sha256.K 0%Z = 0xc67178f2%Z /\
  nth 0 Sha256.init 0%Z = 0x6a09e667%Z /\
  nth 7 Sha256.init 0%Z = 0x5be0cd19%Z.
Proof. repeat split. Qed.

Example sha256_empty :
  sha256_hex ""
  = "e3b0c44298fc1c149afbf4c8996fb92427ae41e4649b934ca495991b7852b855".
Proof. vm_compute. reflexivity. Qed.

Example sha256_abc :
  sha256_hex "abc"
  = "ba7816bf8f01cfea414140de5dae2223b00361a396177a9cb410ff61f20015ad".
Proof. vm_compute. reflexivity. Qed.

Example sha256_two_blocks :
  sha256_hex "abcdbcdecdefdefgefghfghighijhijkijkljklmklmnlmnomnopnopq"
  = "248d6a61d20638b8e5c026930c3e6039a33ce45964ff2167f6ecedd419db06c1".
Proof. vm_compute. reflexivity. Qed.

Example hmac_rfc4231_case2 :
  Hex.EncodeToString
    (Hmac.Sum (Bytes.of_string "Jefe")
              (Bytes.of_string "what do ya want for nothing?"))
  = "5bdcc146bf60754e6a042426089575c75a003f089d2739839dec58b964ec3843".
Proof. vm_compute. reflexivity. Qed.

Example aes_sbox : map Aes.SubByte [0; 1; 0x53; 0xff]%Z = [0x63; 0x7c; 0xed; 0x16]%Z.
Proof. vm_compute. reflexivity. Qed.

Example aes128_fips197 :
  aes_hex "000102030405060708090a0b0c0d0e0f" "00112233445566778899aabbccddeeff"
  = "69c4e0d86a7b0430d8cdb78070b4c55a".
Proof. vm_compute. reflexivity. Qed.

Example aes192_fips197 :
  aes_hex "000102030405060708090a0b0c0d0e0f1011121314151617"
          "00112233445566778899aabbccddeeff"
  = "dda97ca4864cdfe06eaf70a0ec0d7191".
Proof. vm_compute. reflexivity. Qed.

Example aes256_fips197 :
  aes_hex "000102030405060708090a0b0c0d0e0f101112131415161718191a1b1c1d1e1f"
          "00112233445566778899aabbccddeeff"
  = "8ea2b7ca516745bfeafc49904b496089".
Proof. vm_compute. reflexivity. Qed.

Example gcm_case13 :
  gcm_hex zeroKey "000000000000000000000000" ""
  = "530f8afbc74536b9a963b4f1c4cb738b".
Proof. vm_compute. reflexivity. Qed.

Example gcm_case14 :
  gcm_hex zeroKey "000000000000000000000000" "00000000000000000000000000000000"
  = "cea7403d4d606b6e074ec5d3baf39d18" ++ "d0d1c8a799996bf0265b98b5d48ab919".
Proof. vm_compute. reflexivity. Qed.

Example gcm_case15 :
  gcm_hex "feffe9928665731c6d6a8f9467308308feffe9928665731c6d6a8f9467308308"
          "cafebabefacedbaddecaf888"
          ("d9313225f88406e5a55909c5aff5269a86a7a9531534f7da2e4c303d8a318a72"
           ++ "1c3c0c95956809532fcf0e2449a6b525b16aedf5aa0de657ba637b391aafd255")
  = "522dc1f099567d07f47f37a32a84427d643a8cdcbfe5c0c97598a2bd2555d1aa"
    ++ "8cb08e48590dbb3da7b08b1056828838c5f61e6393ba7a0abcc9f662898015ad"
    ++ "b094dac5d93471bdec1a502270e3cc6c".
Proof. vm_compute. reflexivity. Qed.

End KnownAnswers.

(* ----------------------------------------------------------------- *)
(** ** Outcomes *)

Lemma Ok_inj {E A} (a b : A) : @Ok E A a = Ok b -> a = b.
Proof. intros H. injection H. auto. Qed.

Lemma pair_inj {A B} (a a' : A) (b b' : B) : (a, b) = (a', b') -> a = a' /\ b = b'.
Proof. intros H. injection H. auto. Qed.

(* ----------------------------------------------------------------- *)
(** ** Bytes *)

Module BytesFacts.
Local Open Scope Z_scope.
Import Bytes.

Lemma to_Z_range (b : byte) : 0 <= to_Z b < 256.
Proof.
  unfold to_Z. pose proof (Byte.to_N_bounded b) as Hb.
  lia.
Qed.

Lemma of_to_Z (b : byte) : of_Z (to_Z b) = b.
Proof.
  unfold of_Z. rewrite Z.mod_small by apply to_Z_range.
  unfold to_Z. rewrite N2Z.id, Byte.of_to_N. reflexivity.
Qed.

Lemma to_of_Z (z : Z) : to_Z (of_Z z) = z mod 256.
Proof.
  unfold of_Z, to_Z.
  assert (Hr : 0 <= z mod 256 < 256) by (apply Z.mod_pos_bound; lia).
  destruct (Byte.of_N (Z.to_N (z mod 256))) as [b|] eqn:E.
  - apply Byte.to_of_N in E. rewrite E. rewrite Z2N.id; lia.
  - apply Byte.of_N_None_iff in E. lia.
Qed.

Lemma to_Z_inj (a b : byte) : to_Z a = to_Z b -> a = b.
Proof.
  intros E. rewrite <- (of_to_Z a), <- (of_to_Z b), E. reflexivity.
Qed.

(** The xor of two values below [2^8] is below [2^8]. *)
Lemma lxor_byte_range (x y : Z) :
  0 <= x < 256 -> 0 <= y < 256 -> 0 <= Z.lxor x y < 256.
Proof.
  intros Hx Hy.
  assert (Hn : 0 <= Z.lxor x y) by (apply Z.lxor_nonneg; lia).
  split; [exact Hn|].
  destruct (Z.eq_dec (Z.lxor x y) 0) as [E|E]; [lia|].
  change 256 with (2 ^ 8). apply Z.log2_lt_pow2; [lia|].
  eapply Z.le_lt_trans; [apply Z.log2_lxor; lia|].
  apply Z.max_lub_lt.
  - destruct (Z.eq_dec x 0) as [->|]; [cbn; lia|]. apply Z.log2_lt_pow2; lia.
  - destruct (Z.eq_dec y 0) as [->|]; [cbn; lia|]. apply Z.log2_lt_pow2; lia.
Qed.

Lemma to_Z_xor (a b : byte) : to_Z (xor a b) = Z.lxor (to_Z a) (to_Z b).
Proof.
  unfold xor. rewrite to_of_Z.
  apply Z.mod_small, lxor_byte_range; apply to_Z_range.
Qed.

Lemma xor_involutive (a k : byte) : xor (xor a k) k = a.
Proof.
  apply to_Z_inj. rewrite !to_Z_xor.
  rewrite Z.lxor_assoc, Z.lxor_nilpotent, Z.lxor_0_r. reflexivity.
Qed.

Lemma xor_list_length (a b : list byte) :
  List.length (xor_list a b) = Nat.min (List.length a) (List.length b).
Proof.
  revert b. induction a as [|x a IH]; intros [|y b]; simpl; auto.
Qed.

(** Xoring twice with a stream at least as long as the data gives the
    data back. *)
Lemma xor_list_twice (a k : list byte) :
  (List.length a <= List.length k)%nat -> xor_list (xor_list a k) k = a.
Proof.
  revert k. induction a as [|x a IH]; intros [|y k] Hl; simpl in *;
    try reflexivity; try lia.
  rewrite xor_involutive, IH by lia. reflexivity.
Qed.

Lemma be_length (n : nat) (z : Z) : List.length (be n z) = n.
Proof. induction n; simpl; auto. Qed.

End BytesFacts.

(* ----------------------------------------------------------------- *)
(** ** crypto/subtle *)

Module SubtleFacts.
Local Open Scope Z_scope.
Import Subtle.

Lemma accumulate_nonneg (x y : list byte) (v : Z) :
  0 <= v -> 0 <= accumulate v x y.
Proof.
  revert y v. induction x as [|a x IH]; intros [|b y] v Hv; simpl; auto.
  apply IH. apply Z.lor_nonneg. split; [exact Hv|].
  apply Z.lxor_nonneg.
  pose proof (BytesFacts.to_Z_range a). pose proof (BytesFacts.to_Z_range b).
  lia.
Qed.

Lemma accumulate_same (x : list byte) (v : Z) : accumulate v x x = v.
Proof.
  revert v. induction x as [|a x IH]; intros v; simpl; auto.
  rewrite Z.lxor_nilpotent, Z.lor_0_r. apply IH.
Qed.

(** The accumulator stays 0 only over equal slices. *)
Lemma accumulate_zero (x y : list byte) (v : Z) :
  List.length x = List.length y ->
  accumulate v x y = 0 -> v = 0 /\ x = y.
Proof.
  revert y v. induction x as [|a x IH]; intros [|b y] v Hl Ha;
    simpl in *; try discriminate; auto.
  apply IH in Ha; [|lia]. destruct Ha as [Hv ->].
  apply Z.lor_eq_0_iff in Hv. destruct Hv as [-> Hx].
  apply Z.lxor_eq, BytesFacts.to_Z_inj in Hx. subst. auto.
Qed.

Lemma accumulate_bound (x y : list byte) (v : Z) :
  0 <= v < 256 -> 0 <= accumulate v x y < 256.
Proof.
  revert y v. induction x as [|a x IH]; intros [|b y] v Hv; simpl; auto.
  apply IH.
  pose proof (BytesFacts.lxor_byte_range _ _ (BytesFacts.to_Z_range a)
                (BytesFacts.to_Z_range b)) as Hx.
  split; [apply Z.lor_nonneg; lia|].
  destruct (Z.eq_dec (Z.lor v (Z.lxor (Bytes.to_Z a) (Bytes.to_Z b))) 0) as [E|E];
    [lia|].
  change 256 with (2 ^ 8). apply Z.log2_lt_pow2.
  - assert (0 <= Z.lor v (Z.lxor (Bytes.to_Z a) (Bytes.to_Z b)))
      by (apply Z.lor_nonneg; lia). lia.
  - rewrite Z.log2_lor by lia. apply Z.max_lub_lt.
    + destruct (Z.eq_dec v 0) as [->|]; [cbn; lia|]. apply Z.log2_lt_pow2; lia.
    + destruct (Z.eq_dec (Z.lxor (Bytes.to_Z a) (Bytes.to_Z b)) 0) as [->|];
        [cbn; lia|]. apply Z.log2_lt_pow2; lia.
Qed.

Lemma ConstantTimeByteEq_zero (v : Z) :
  0 <= v < 256 -> (ConstantTimeByteEq v 0 = 1 <-> v = 0).
Proof.
  intros Hv. unfold ConstantTimeByteEq. rewrite Z.lxor_0_r.
  rewrite Z.shiftr_div_pow2 by lia.
  split.
  - intros E. destruct (Z.eq_dec v 0) as [|Hn]; [assumption|exfalso].
    rewrite Z.mod_small in E by lia.
    rewrite Z.div_small in E by lia. discriminate.
  - intros ->. reflexivity.
Qed.

(** [ConstantTimeCompare] answers 1 exactly on equal slices. *)
Lemma ConstantTimeCompare_eq (x y : list byte) :
  ConstantTimeCompare x y = 1 <-> x = y.
Proof.
  unfold ConstantTimeCompare.
  destruct (Nat.eqb (List.length x) (List.length y)) eqn:El; simpl.
  - apply Nat.eqb_eq in El.
    rewrite ConstantTimeByteEq_zero by (apply accumulate_bound; lia).
    split.
    + intros Ha. apply (accumulate_zero _ _ 0 El Ha).
    + intros ->. apply accumulate_same.
  - apply Nat.eqb_neq in El. split; [discriminate|].
    intros ->. contradiction El. reflexivity.
Qed.

Lemma ConstantTimeCompare_refl (x : list byte) : ConstantTimeCompare x x = 1.
Proof. apply ConstantTimeCompare_eq. reflexivity. Qed.

End SubtleFacts.

(* ----------------------------------------------------------------- *)
(** ** AES and GCM *)

Module GcmFacts.
Import Gcm.

Lemma Encrypt_length (b : Aes.Block) (src : list byte) :
  List.length (Aes.Encrypt b src) = 16%nat.
Proof.
  unfold Aes.Encrypt, Aes.AddRoundKey.
  rewrite !length_map, length_seq. reflexivity.
Qed.

Lemma keystream_length (b : Aes.Block) (n : nat) (ctr : list byte) :
  List.length (keystream b ctr n) = (16 * n)%nat.
Proof.
  revert ctr. induction n as [|n IH]; intros ctr; cbn [keystream];
    [reflexivity|].
  rewrite length_app, Encrypt_length, IH. lia.
Qed.

Lemma blocks_cover (n : nat) : (n <= 16 * ((n + 15) / 16))%nat.
Proof.
  pose proof (Nat.div_mod_eq (n + 15) 16) as E.
  pose proof (Nat.mod_upper_bound (n + 15) 16) as U. lia.
Qed.

Lemma counterCrypt_length (b : Aes.Block) (ctr d : list byte) :
  List.length (counterCrypt b ctr d) = List.length d.
Proof.
  unfold counterCrypt.
  rewrite BytesFacts.xor_list_length, keystream_length.
  pose proof (blocks_cover (List.length d)). lia.
Qed.

(** Counter mode is its own inverse. *)
Lemma counterCrypt_involutive (b : Aes.Block) (ctr d : list byte) :
  counterCrypt b ctr (counterCrypt b ctr d) = d.
Proof.
  unfold counterCrypt at 1. rewrite counterCrypt_length.
  unfold counterCrypt. apply BytesFacts.xor_list_twice.
  rewrite keystream_length. apply blocks_cover.
Qed.

Lemma auth_length (b : Aes.Block) (nonce ct aad : list byte) :
  List.length (auth b nonce ct aad) = 16%nat.
Proof.
  unfold auth.
  rewrite BytesFacts.xor_list_length, BytesFacts.be_length, Encrypt_length.
  reflexivity.
Qed.

Lemma firstn_length_app {A} (a b : list A) : firstn (List.length a) (a ++ b) = a.
Proof. induction a; simpl; congruence. Qed.

Lemma skipn_length_app {A} (a b : list A) : skipn (List.length a) (a ++ b) = b.
Proof. induction a; simpl; congruence. Qed.

(** What a successful [Seal] returns. *)
Lemma Seal_Ok (g : GCM) (dst nonce pt aad c : list byte) :
  Seal g dst nonce pt aad = Ok c ->
  List.length nonce = NonceSize /\
  (Z.of_nat (List.length pt) <= maxPlaintext)%Z /\
  c = dst ++ counterCrypt (cipher g) (inc32 (counter0 nonce)) pt
          ++ auth (cipher g) nonce
                  (counterCrypt (cipher g) (inc32 (counter0 nonce)) pt) aad.
Proof.
  unfold Seal.
  destruct (Nat.eqb_spec (List.length nonce) NonceSize) as [En|En]; simpl;
    [|discriminate].
  destruct (Z.ltb_spec maxPlaintext (Z.of_nat (List.length pt))) as [Hm|Hm];
    [discriminate|].
  intros [= <-]. auto.
Qed.

(** [Open] decides [authentic], and decrypts exactly then. *)
Lemma Open_authentic (g : GCM) (nonce c aad : list byte) :
  List.length nonce = NonceSize ->
  authentic g nonce c aad ->
  Open g [] nonce c aad
  = Ok (counterCrypt (cipher g) (inc32 (counter0 nonce))
                     (firstn (List.length c - TagSize) c)).
Proof.
  intros Hn (Ht & Hm & Ha). unfold Open.
  rewrite Hn, Nat.eqb_refl. simpl negb. cbv iota.
  destruct (Nat.ltb_spec (List.length c) TagSize) as [Hl|Hl]; [lia|].
  destruct (Z.ltb_spec (maxPlaintext + Z.of_nat TagSize)
                       (Z.of_nat (List.length c))) as [Hx|Hx]; [lia|].
  cbv zeta. rewrite Ha, SubtleFacts.ConstantTimeCompare_refl. reflexivity.
Qed.

Lemma Open_not_authentic (g : GCM) (nonce c aad : list byte) :
  List.length nonce = NonceSize ->
  ~ authentic g nonce c aad ->
  Open g [] nonce c aad = Err errOpen.
Proof.
  intros Hn Hna. unfold Open.
  rewrite Hn, Nat.eqb_refl. simpl negb. cbv iota.
  destruct (Nat.ltb_spec (List.length c) TagSize) as [Hl|Hl]; [reflexivity|].
  destruct (Z.ltb_spec (maxPlaintext + Z.of_nat TagSize)
                       (Z.of_nat (List.length c))) as [Hx|Hx]; [reflexivity|].
  cbv zeta.
  destruct (Z.eqb_spec
              (Subtle.ConstantTimeCompare
                 (auth (cipher g) nonce
                       (firstn (List.length c - TagSize) c) aad)
                 (skipn (List.length c - TagSize) c)) 1) as [E|E];
    [|reflexivity].
  exfalso. apply Hna. apply SubtleFacts.ConstantTimeCompare_eq in E.
  unfold authentic. auto.
Qed.

(** What [Seal] produces is authentic, and opens to the plaintext. *)
Lemma Seal_authentic (g : GCM) (nonce pt aad c : list byte) :
  Seal g [] nonce pt aad = Ok c -> authentic g nonce c aad.
Proof.
  intros Hs. apply Seal_Ok in Hs. destruct Hs as (Hn & Hm & ->).
  simpl app. unfold authentic.
  rewrite length_app, counterCrypt_length, auth_length.
  replace (List.length pt + 16 - TagSize)%nat
    with (List.length (counterCrypt (cipher g) (inc32 (counter0 nonce)) pt))
    by (rewrite counterCrypt_length; unfold TagSize; lia).
  rewrite firstn_length_app, skipn_length_app.
  unfold TagSize. repeat split; lia || reflexivity.
Qed.

Lemma Open_Seal (g : GCM) (nonce pt aad c : list byte) :
  Seal g [] nonce pt aad = Ok c -> Open g [] nonce c aad = Ok pt.
Proof.
  intros Hs. pose proof (Seal_authentic _ _ _ _ _ Hs) as Ha.
  apply Seal_Ok in Hs. destruct Hs as (Hn & Hm & Hc).
  rewrite (Open_authentic _ _ _ _ Hn Ha). f_equal.
  subst c. simpl app.
  rewrite length_app, counterCrypt_length, auth_length.
  replace (List.length pt + 16 - TagSize)%nat
    with (List.length (counterCrypt (cipher g) (inc32 (counter0 nonce)) pt))
    by (rewrite counterCrypt_length; unfold TagSize; lia).
  rewrite firstn_length_app. apply counterCrypt_involutive.
Qed.

End GcmFacts.

(* ----------------------------------------------------------------- *)
(** ** encoding/hex *)

Module HexFacts.
Import Hex.

(** Strings, two characters at a time. *)
Lemma string_pairs_ind (P : string -> Prop) :
  P EmptyString ->
  (forall c, P (String c EmptyString)) ->
  (forall c d s, P s -> P (String c (String d s))) ->
  forall s, P s.
Proof.
  intros H0 H1 H2 s.
  assert (H : P s /\ forall c, P (String c s)).
  { induction s as [|d s [IHs IHc]]; split; auto. }
  apply H.
Qed.

(** [Decode] succeeds exactly on an even number of hex digits. *)
Lemma Decode_ok_iff (s : string) :
  snd (Decode s) = None <->
  Nat.even (String.length s) = true /\
  forallb isHexDigit (list_ascii_of_string s) = true.
Proof.
  induction s as [|c|c d s IH] using string_pairs_ind.
  - simpl. tauto.
  - cbn [Decode]. unfold isHexDigit. simpl.
    destruct (fromHexChar c); simpl; split; intros H;
      try discriminate; destruct H; discriminate.
  - cbn [Decode]. cbn [String.length Nat.even list_ascii_of_string forallb].
    unfold isHexDigit at 1 2.
    destruct (fromHexChar c) as [a|]; simpl.
    2:{ split; [discriminate|]. intros [_ H]. discriminate. }
    destruct (fromHexChar d) as [b|]; simpl.
    2:{ split; [discriminate|]. intros [_ H]. discriminate. }
    destruct (Decode s) as [out err]. simpl in *. exact IH.
Qed.

(** A successful [Decode] yields one byte per two characters. *)
Lemma Decode_length (s : string) :
  snd (Decode s) = None ->
  String.length s = (2 * List.length (fst (Decode s)))%nat.
Proof.
  induction s as [|c|c d s IH] using string_pairs_ind.
  - reflexivity.
  - cbn [Decode]. destruct (fromHexChar c); simpl; discriminate.
  - cbn [Decode].
    destruct (fromHexChar c) as [a|]; [|simpl; discriminate].
    destruct (fromHexChar d) as [b|]; [|simpl; discriminate].
    destruct (Decode s) as [out err]. simpl in *. intros E.
    rewrite (IH E). lia.
Qed.

End HexFacts.

(* ----------------------------------------------------------------- *)
(** ** envelope.go *)

Module CryptoFacts.
Import Crypto.

Lemma NewCipher_Ok_inv (k : list byte) (b : Aes.Block) :
  Aes.NewCipher k = Ok b ->
  b = Aes.mkBlock (List.length k / 4 + 6) (Aes.expandKey k).
Proof.
  unfold Aes.NewCipher.
  destruct ((List.length k =? 16)%nat || (List.length k =? 24)%nat
            || (List.length k =? 32)%nat); [|discriminate].
  intros [= <-]. reflexivity.
Qed.

Lemma NewCipher_256 (k : list byte) :
  List.length k = 32%nat ->
  Aes.NewCipher k = Ok (Aes.mkBlock (List.length k / 4 + 6) (Aes.expandKey k)).
Proof. intros E. unfold Aes.NewCipher. rewrite E. reflexivity. Qed.

(** What a successful construction says about the envelope. *)
Lemma NewEnvelope_Ok_inv (hexKey secret : string) (e : Envelope) :
  NewEnvelope hexKey secret = Ok e ->
  Hex.DecodeString hexKey = (key e, None) /\
  List.length (key e) = 32%nat /\
  hmacSecret e = Bytes.of_string secret.
Proof.
  unfold NewEnvelope.
  destruct (Hex.DecodeString hexKey) as [k [err|]]; [discriminate|].
  destruct (Nat.eqb_spec (List.length k) 32) as [E|E]; simpl; [|discriminate].
  intros [= <-]. simpl. auto.
Qed.

(** With a key the cipher accepts, [Decrypt] is the length check
    followed by [Open] under [gcmOf]. *)
Lemma Decrypt_keyed (e : Envelope) (b : Aes.Block) (blob : list byte) :
  Aes.NewCipher (key e) = Ok b ->
  Decrypt e blob
  = if (List.length blob <? Gcm.NonceSize)%nat
    then Err CiphertextTooShort
    else wrap DecryptionFailed
              (Gcm.Open (gcmOf e) [] (firstn Gcm.NonceSize blob)
                        (skipn Gcm.NonceSize blob) []).
Proof.
  intros Hb. unfold Decrypt. rewrite Hb.
  apply NewCipher_Ok_inv in Hb. subst b. reflexivity.
Qed.

(** What a successful [Encrypt] returns: the nonce read from the
    entropy source, the counter-mode ciphertext and the tag. *)
Lemma Encrypt_Ok_inv (e : Envelope) (rnd rnd' : Rand.Reader) (p c : list byte) :
  Encrypt e rnd p = (rnd', Ok c) ->
  exists b,
    Aes.NewCipher (key e) = Ok b /\
    (Gcm.NonceSize <= List.length rnd)%nat /\
    rnd' = skipn Gcm.NonceSize rnd /\
    Gcm.Seal (gcmOf e) (firstn Gcm.NonceSize rnd) (firstn Gcm.NonceSize rnd) p []
    = Ok c.
Proof.
  unfold Encrypt.
  destruct (Aes.NewCipher (key e)) as [b|x|m] eqn:Hb; simpl wrap;
    try (intros [= _ ?]; discriminate).
  pose proof (NewCipher_Ok_inv _ _ Hb) as ->.
  change (wrap CreateGCM (Gcm.NewGCM
            (Aes.mkBlock (List.length (key e) / 4 + 6) (Aes.expandKey (key e)))))
    with (@Ok error _ (gcmOf e)).
  cbv iota beta.
  unfold Rand.ReadFull.
  destruct (Nat.leb_spec Gcm.NonceSize (List.length rnd)) as [Hl|Hl].
  - cbn [wrap bind]. intros Heq.
    apply pair_equal_spec in Heq. destruct Heq as [Hr Hs].
    exists (Aes.mkBlock (List.length (key e) / 4 + 6) (Aes.expandKey (key e))).
    repeat split; auto.
    unfold gcmOf in *.
    destruct (Gcm.Seal _ (firstn Gcm.NonceSize rnd)
                       (firstn Gcm.NonceSize rnd) p []) as [c'|[]|m];
      unfold never, wrap in Hs; congruence.
  - cbn [wrap bind]. intros Heq.
    apply pair_equal_spec in Heq. destruct Heq as [_ Hs]. discriminate.
Qed.

(** A successful [Encrypt] adds 28 bytes. *)
Lemma Encrypt_Ok_length (e : Envelope) (rnd rnd' : Rand.Reader) (p c : list byte) :
  Encrypt e rnd p = (rnd', Ok c) ->
  List.length c = (List.length p + 28)%nat.
Proof.
  intros He. apply Encrypt_Ok_inv in He.
  destruct He as (blk & _ & _ & _ & Hs).
  destruct (GcmFacts.Seal_Ok _ _ _ _ _ _ Hs) as (Hn & _ & ->).
  rewrite !length_app, GcmFacts.counterCrypt_length, GcmFacts.auth_length, Hn.
  unfold Gcm.NonceSize. lia.
Qed.

End CryptoFacts.

(* ----------------------------------------------------------------- *)
(** ** The S3 backend *)

Module StorageFacts.
Import Storage.
Local Open Scope string_scope.

Section S3.
Context {W : Type} `{Http.Client W}.

(** Every field of the reference a successful [Store] returns. *)
Lemma S3Store_Ok_inv (s : S3Backend) (w w' : W)
      (traceID spanID attrKey : string) (data : list byte) (r : Reference) :
  S3Store s w traceID spanID attrKey data = (w', Ok r) ->
  r = mkReference
        (uriPrefix ++ bucket s ++ "/"
           ++ (prefix s ++ traceID ++ "/" ++ spanID ++ "/" ++ attrKey))
        (Hex.EncodeToString (Sha256.Sum256 data))
        false
        (Z.of_nat (List.length data)).
Proof.
  unfold S3Store.
  destruct (Http.NewRequest "PUT" _ data) as [req|err|m];
    [|intros E; apply pair_inj in E; destruct E; discriminate ..].
  destruct (Http.Do w _) as [w1 [resp|err|m]];
    [|intros E; apply pair_inj in E; destruct E; discriminate ..].
  destruct (300 <=? Http.StatusCode resp)%Z;
    intros E; apply pair_inj in E; destruct E as [_ E];
    [discriminate|].
  apply Ok_inj in E. subst r. reflexivity.
Qed.

(** [Retrieve] in one equation, for a URI long enough to be sliced. *)
Lemma S3Retrieve_readsBack (s : S3Backend) (w w' : W) (ref : Reference)
      (data : list byte) :
  readsBack s w ref w' data ->
  S3Retrieve s w ref
  = (w', if String.eqb (Hex.EncodeToString (Sha256.Sum256 data)) (Checksum ref)
         then Ok data
         else Err (ChecksumMismatch (Checksum ref)
                     (Hex.EncodeToString (Sha256.Sum256 data)))).
Proof.
  intros (Hl & req & resp & Hreq & Hdo & Hst & Hre & Hbody).
  unfold S3Retrieve.
  destruct (Nat.ltb_spec (String.length (URI ref)) (String.length uriPrefix));
    [lia|].
  fold (objectPath (URI ref)). fold (objectURL s (URI ref)).
  rewrite Hreq, Hdo.
  destruct (Z.leb_spec 300 (Http.StatusCode resp)); [lia|].
  rewrite Hre, Hbody.
  destruct (String.eqb _ (Checksum ref)); reflexivity.
Qed.

Lemma S3Retrieve_readsBack_match (s : S3Backend) (w w' : W) (ref : Reference)
      (data : list byte) :
  readsBack s w ref w' data ->
  Hex.EncodeToString (Sha256.Sum256 data) = Checksum ref ->
  S3Retrieve s w ref = (w', Ok data).
Proof.
  intros Hrb Hc. rewrite (S3Retrieve_readsBack _ _ _ _ _ Hrb), Hc.
  rewrite String.eqb_refl. reflexivity.
Qed.

(** Whatever [Retrieve] returns was read back and has the reference's
    digest. *)
Lemma S3Retrieve_Ok_inv (s : S3Backend) (w w' : W) (ref : Reference)
      (d : list byte) :
  S3Retrieve s w ref = (w', Ok d) ->
  readsBack s w ref w' d /\
  Hex.EncodeToString (Sha256.Sum256 d) = Checksum ref.
Proof.
  unfold S3Retrieve, readsBack.
  destruct (Nat.ltb_spec (String.length (URI ref)) (String.length uriPrefix))
    as [Hl|Hl];
    [intros E; apply pair_inj in E; destruct E; discriminate|].
  fold (objectPath (URI ref)). fold (objectURL s (URI ref)).
  destruct (Http.NewRequest "GET" _ []) as [req|err|m] eqn:Hreq;
    [|intros E; apply pair_inj in E; destruct E; discriminate ..].
  destruct (Http.Do w req) as [w1 [resp|err|m]] eqn:Hdo;
    [|intros E; apply pair_inj in E; destruct E; discriminate ..].
  destruct (Z.leb_spec 300 (Http.StatusCode resp)) as [Hs|Hs];
    [intros E; apply pair_inj in E; destruct E; discriminate|].
  destruct (Http.ReadErr resp) as [re|] eqn:Hre;
    [intros E; apply pair_inj in E; destruct E; discriminate|].
  destruct (String.eqb_spec (Hex.EncodeToString (Sha256.Sum256 (Http.RespBody resp)))
                            (Checksum ref)) as [Hc|Hc]; cbn [negb];
    intros E; apply pair_inj in E; destruct E as [<- E];
    [|discriminate].
  apply Ok_inj in E. subst d.
  split; [|exact Hc]. split; [exact Hl|].
  exists req, resp. auto.
Qed.

End S3.

End StorageFacts.

(* ----------------------------------------------------------------- *)
(** ** processSpan *)

Module ProcessorFacts.
Import Processor.
Local Open Scope string_scope.

Lemma of_string_length (s : string) :
  List.length (Bytes.of_string s) = String.length s.
Proof.
  unfold Bytes.of_string, list_byte_of_string. rewrite length_map.
  induction s as [|c s IH]; simpl; congruence.
Qed.

Section S3.
Context {W : Type} `{Http.Client W}.

(** One attribute under an enabled envelope: either nothing is
    recorded, or the recorded reference describes the bytes [Encrypt]
    returned, which are what [Store] was given. *)
Lemma visit_encrypted (p : vaultProcessor Storage.S3Backend)
      (e : Crypto.Envelope) (traceID spanID k : string) (v : Pdata.Value)
      (env env' : Env) (ops ops' : list pendingOp) :
  envelope p = Some e ->
  visit p traceID spanID (env, ops) (k, v) = Ok (env', ops') ->
  ops' = ops \/
  exists rnd' c,
    Crypto.Encrypt e (entropy env) (Bytes.of_string (Pdata.Str v))
    = (rnd', Ok c) /\
    ops' = (ops ++
            [mkOp k (Storage.mkReference
                       (Storage.uriPrefix ++ Storage.bucket (backend p) ++ "/"
                          ++ (Storage.prefix (backend p) ++ traceID ++ "/"
                                ++ spanID ++ "/" ++ k))
                       (Hex.EncodeToString (Sha256.Sum256 c))
                       true
                       (Z.of_nat (List.length c)))])%list.
Proof.
  intros He. unfold visit. rewrite He.
  destruct (inKeySet p k); cbn [negb];
    [|intros E; apply Ok_inj, pair_inj in E; destruct E; auto].
  destruct (Z.of_nat (String.length (Pdata.Str v)) <? SizeThreshold (cfg p))%Z;
    [intros E; apply Ok_inj, pair_inj in E; destruct E; auto|].
  destruct (Crypto.Encrypt e (entropy env) (Bytes.of_string (Pdata.Str v)))
    as [rnd [c|err|m]] eqn:Henc;
    [| intros E; apply Ok_inj, pair_inj in E; destruct E; auto
     | discriminate].
  cbn [Storage.Store Storage.S3_Backend].
  destruct (Storage.S3Store (backend p) (world env) traceID spanID k c)
    as [w1 [r|err|m]] eqn:Hst;
    [| intros E; apply Ok_inj, pair_inj in E; destruct E; auto
     | discriminate].
  intros E. apply Ok_inj, pair_inj in E. destruct E as [_ <-].
  right. exists rnd, c. split; [reflexivity|].
  apply StorageFacts.S3Store_Ok_inv in Hst. subst r. reflexivity.
Qed.

(** The loop keeps [recordedEncrypted] for every operation it adds. *)
Lemma range_encrypted (p : vaultProcessor Storage.S3Backend)
      (e : Crypto.Envelope) (span : Pdata.Span) (traceID spanID : string)
      (attrs : Pdata.Map) :
  envelope p = Some e ->
  (forall kv, In kv attrs -> In kv (Pdata.Attributes span)) ->
  forall (env env' : Env) (ops ops' : list pendingOp),
    range p traceID spanID (env, ops) attrs = Ok (env', ops') ->
    Forall (recordedEncrypted e span) ops ->
    Forall (recordedEncrypted e span) ops'.
Proof.
  intros He. induction attrs as [|[k v] rest IH]; intros Hin env env' ops ops'.
  - cbn [range]. intros E. apply Ok_inj, pair_inj in E. destruct E as [_ <-].
    auto.
  - cbn [range]. unfold bind.
    destruct (visit p traceID spanID (env, ops) (k, v)) as [[env1 ops1]|[]|m]
      eqn:Hv; [|discriminate].
    intros Hr Hall. apply (IH (fun kv H => Hin kv (or_intror H)) _ _ _ _ Hr).
    destruct (visit_encrypted _ _ _ _ _ _ _ _ _ _ He Hv)
      as [->|(rnd' & c & Henc & ->)]; [exact Hall|].
    apply Forall_app. split; [exact Hall|].
    constructor; [|constructor].
    exists v, (entropy env), rnd', c. cbn [key ref].
    repeat split; auto. apply Hin. left. reflexivity.
Qed.

Lemma collectOps_encrypted (p : vaultProcessor Storage.S3Backend)
      (e : Crypto.Envelope) (span : Pdata.Span) (env env' : Env)
      (ops : list pendingOp) :
  envelope p = Some e ->
  collectOps p env span = Ok (env', ops) ->
  Forall (recordedEncrypted e span) ops.
Proof.
  intros He Hc. unfold collectOps in Hc.
  apply (range_encrypted p e span _ _ _ He (fun kv H => H) _ _ _ _ Hc).
  constructor.
Qed.

End S3.

End ProcessorFacts.

(* ----------------------------------------------------------------- *)
(** ** The object store of the examples returns what it was given *)

Module MemS3Facts.
Import Storage.
Local Open Scope string_scope.

Lemma length_append (a b : string) :
  String.length (a ++ b) = (String.length a + String.length b)%nat.
Proof. induction a as [|c a IH]; simpl; congruence. Qed.

Lemma substring_all (b : string) : String.substring 0 (String.length b) b = b.
Proof. induction b as [|c b IH]; simpl; congruence. Qed.

Lemma substring_append (a b : string) :
  String.substring (String.length a)
                   (String.length (a ++ b) - String.length a) (a ++ b) = b.
Proof.
  rewrite length_append.
  replace (String.length a + String.length b - String.length a)%nat
    with (String.length b) by lia.
  induction a as [|c a IH]; simpl; [apply substring_all | exact IH].
Qed.

Lemma objectPath_uri (rest : string) : objectPath (uriPrefix ++ rest) = rest.
Proof. unfold objectPath. apply substring_append. Qed.

(** [Store] followed by [Retrieve]: the reference resolves to the bytes
    stored, whatever was in the store before. *)
Lemma Store_Retrieve (s : S3Backend) (w w' : MemS3.world)
      (traceID spanID attrKey : string) (data : list byte) (r : Reference) :
  S3Store s w traceID spanID attrKey data = (w', Ok r) ->
  S3Retrieve s w' r = (w', Ok data).
Proof.
  intros Hs. pose proof (StorageFacts.S3Store_Ok_inv _ _ _ _ _ _ _ _ Hs) as Hr.
  revert Hs. unfold S3Store, Http.NewRequest.
  set (key := prefix s ++ traceID ++ "/" ++ spanID ++ "/" ++ attrKey) in *.
  set (url := scheme s ++ "://" ++ endpoint s ++ "/" ++ bucket s ++ "/" ++ key).
  destruct (Http.validURL url) eqn:Hv;
    [|intros E; apply pair_inj in E; destruct E; discriminate].
  cbn [Http.Do MemS3.client MemS3.serve Http.SetHeader Http.SetContentLength
       Http.Method Http.URL Http.Body Http.StatusCode].
  change (String.eqb "PUT" "PUT") with true. cbv iota.
  change (300 <=? 200)%Z with false. cbv iota.
  intros E. apply pair_inj in E. destruct E as [Hw _].
  apply StorageFacts.S3Retrieve_readsBack_match.
  - split.
    + subst r. cbn [URI]. rewrite length_append. lia.
    + exists (Http.mkRequest "GET" url [] 0 []),
             (Http.mkResponse 200 data None).
      assert (Hu : objectURL s (URI r) = url).
      { subst r. cbn [URI]. unfold objectURL. rewrite objectPath_uri.
        reflexivity. }
      rewrite Hu. unfold Http.NewRequest. rewrite Hv.
      repeat split; try reflexivity; try lia.
      subst w'. cbn [Http.Do MemS3.client].
      unfold MemS3.serve, Http.SetContentLength, Http.SetHeader.
      cbn [Http.Method Http.URL Http.Body MemS3.objects MemS3.lookup].
      change (String.eqb "GET" "PUT") with false. cbv iota.
      change (String.eqb "GET" "GET") with true. cbv iota.
      rewrite String.eqb_refl. reflexivity.
  - subst r. reflexivity.
Qed.

End MemS3Facts.

(* ----------------------------------------------------------------- *)
(** ** The scenarios of the repository's tests *)

Module RepoTests.
Import Fixture.
Local Open Scope string_scope.

(** TestEncryptProducesDifferentCiphertexts: two nonces, two outputs. *)
Example Encrypt_depends_on_nonce :
  sealed Fixture.env "abcdefghijkl" "same input"
  <> sealed Fixture.env "mnopqrstuvwx" "same input".
Proof. vm_compute. discriminate. Qed.

(** TestDecryptWithWrongKey. *)
Example Decrypt_wrong_key :
  Crypto.Decrypt
    (envelopeOf "abcdef0123456789abcdef0123456789abcdef0123456789abcdef0123456789"
                "secret")
    (sealed Fixture.env "abcdefghijkl" "secret data")
  = Err (Crypto.DecryptionFailed Gcm.errOpen).
Proof. vm_compute. reflexivity. Qed.

(** One flipped bit in the ciphertext, and a blob cut short. *)
Example Decrypt_corrupted :
  let c := sealed Fixture.env "abcdefghijkl" "secret data" in
  Crypto.Decrypt Fixture.env
    (firstn 12 c ++ Bytes.xor (nth 12 c x00) x01 :: skipn 13 c)
  = Err (Crypto.DecryptionFailed Gcm.errOpen) /\
  Crypto.Decrypt Fixture.env (removelast c)
  = Err (Crypto.DecryptionFailed Gcm.errOpen).
Proof. split; vm_compute; reflexivity. Qed.

(** TestHMACSignVerify and TestHMACDifferentSecrets. *)
Example VerifyMetadata_tampered :
  let e := envelopeOf Fixture.testKey "hmac-secret-123" in
  let metadata := "uri=promptvault://fs/abc/def/key checksum=aabbcc" in
  Crypto.VerifyMetadata e (metadata ++ "tampered") (Crypto.SignMetadata e metadata)
  = false.
Proof. vm_compute. reflexivity. Qed.

Example SignMetadata_secrets :
  Crypto.SignMetadata (envelopeOf Fixture.testKey "secret1") "test metadata"
  <> Crypto.SignMetadata (envelopeOf Fixture.testKey "secret2") "test metadata".
Proof. vm_compute. discriminate. Qed.

(** Without encryption the processor records the digest and the length
    of the value itself. *)
Example collectOps_plain :
  exists env',
    Processor.collectOps (Fixture.proc None) Fixture.start Fixture.span
    = Ok (env',
          [Processor.mkOp "gen_ai.prompt"
             (Storage.mkReference
                ("promptvault://s3/prompts/pv/0102030405060708090a0b0c0d0e0f10"
                 ++ "/0102030405060708/gen_ai.prompt")
                (sha256_hex "hello") false 5)]).
Proof. eexists. vm_compute. reflexivity. Qed.

End RepoTests.

(* ================================================================= *)
(** * The claims *)

(* ----------------------------------------------------------------- *)
(** ** Envelope encryption and the metadata signer *)

(** C6. For an envelope that [NewEnvelope] built and every blob:
    [Decrypt] fails on a blob shorter than the 12-byte nonce; it fails,
    with no plaintext, on a blob whose remainder after the nonce does
    not authenticate under the envelope's key (wrong key, corrupted or
    truncated ciphertext); on every other blob it returns the
    counter-mode decryption of the remainder without its tag, the first
    12 bytes being the nonce. *)
Theorem Decrypt_fails_closed (hexKey secret : string) (e : Crypto.Envelope)
        (blob : list byte) :
  Crypto.NewEnvelope hexKey secret = Ok e ->
  let nonce := firstn 12 blob in
  let rest := skipn 12 blob in
  ((List.length blob < 12)%nat ->
   Crypto.Decrypt e blob = Err Crypto.CiphertextTooShort) /\
  ((12 <= List.length blob)%nat ->
   ~ Gcm.authentic (Crypto.gcmOf e) nonce rest [] ->
   Crypto.Decrypt e blob = Err (Crypto.DecryptionFailed Gcm.errOpen)) /\
  ((12 <= List.length blob)%nat ->
   Gcm.authentic (Crypto.gcmOf e) nonce rest [] ->
   Crypto.Decrypt e blob
   = Ok (Gcm.counterCrypt (Gcm.cipher (Crypto.gcmOf e))
                          (Gcm.inc32 (Gcm.counter0 nonce))
                          (firstn (List.length rest - 16) rest))).
Proof.
  intros He nonce rest.
  apply CryptoFacts.NewEnvelope_Ok_inv in He. destruct He as (_ & Hk & _).
  pose proof (CryptoFacts.Decrypt_keyed e _ blob (CryptoFacts.NewCipher_256 _ Hk))
    as Hd.
  change Gcm.NonceSize with 12%nat in Hd. fold nonce rest in Hd.
  assert (Hn : (12 <= List.length blob)%nat -> List.length nonce = Gcm.NonceSize).
  { intros Hl. unfold nonce. rewrite length_firstn. unfold Gcm.NonceSize. lia. }
  repeat split.
  - intros Hl. rewrite Hd.
    destruct (Nat.ltb_spec (List.length blob) 12); [reflexivity|lia].
  - intros Hl Hna. rewrite Hd.
    destruct (Nat.ltb_spec (List.length blob) 12); [lia|].
    rewrite (GcmFacts.Open_not_authentic _ _ _ _ (Hn Hl) Hna). reflexivity.
  - intros Hl Ha. rewrite Hd.
    destruct (Nat.ltb_spec (List.length blob) 12); [lia|].
    rewrite (GcmFacts.Open_authentic _ _ _ _ (Hn Hl) Ha). reflexivity.
Qed.

(** The envelope of the tests, an 11-byte blob and a 40-byte blob of
    zeros: the first is too short, the second does not authenticate. *)
Lemma Decrypt_fails_closed_witness :
  Crypto.NewEnvelope Fixture.testKey "test-hmac-secret" = Ok Fixture.env /\
  Crypto.Decrypt Fixture.env (repeat x00 11) = Err Crypto.CiphertextTooShort /\
  Crypto.Decrypt Fixture.env (repeat x00 40)
  = Err (Crypto.DecryptionFailed Gcm.errOpen).
Proof.
  assert (He : Crypto.NewEnvelope Fixture.testKey "test-hmac-secret"
               = Ok Fixture.env) by (vm_compute; reflexivity).
  split; [exact He|]. split.
  - apply (Decrypt_fails_closed _ _ _ (repeat x00 11) He). simpl. lia.
  - apply (Decrypt_fails_closed _ _ _ (repeat x00 40) He).
    + simpl. lia.
    + intros (_ & _ & Ha). vm_compute in Ha. discriminate Ha.
Defined.

(** C7. [NewEnvelope] fails exactly when the hex string does not decode
    or the decoded key is not 32 bytes long, and it never panics; put in
    terms of the string, it succeeds exactly on 64 hex digits, whatever
    the HMAC secret, and the envelope then holds the decoded key and the
    secret's bytes. *)
Theorem NewEnvelope_fails_exactly (hexKey secret : string) :
  (is_err (Crypto.NewEnvelope hexKey secret) = true <->
   snd (Hex.DecodeString hexKey) <> None \/
   List.length (fst (Hex.DecodeString hexKey)) <> 32%nat) /\
  (is_ok (Crypto.NewEnvelope hexKey secret) = negb (is_err (Crypto.NewEnvelope hexKey secret))) /\
  (String.length hexKey = 64%nat /\
   forallb Hex.isHexDigit (list_ascii_of_string hexKey) = true <->
   Crypto.NewEnvelope hexKey secret
   = Ok (Crypto.mkEnvelope (fst (Hex.DecodeString hexKey))
                           (Bytes.of_string secret))).
Proof.
  pose proof (HexFacts.Decode_ok_iff hexKey) as Hok.
  pose proof (HexFacts.Decode_length hexKey) as Hlen.
  unfold Crypto.NewEnvelope, Hex.DecodeString in *.
  destruct (Hex.Decode hexKey) as [k [err|]]; cbn [fst snd] in *.
  - split; [|split].
    + split; [intros _; left; discriminate | reflexivity].
    + reflexivity.
    + split; [|discriminate].
      intros [Hl Hh]. exfalso.
      assert (Hev : Nat.even (String.length hexKey) = true)
        by (rewrite Hl; reflexivity).
      destruct Hok as [_ Hok]. specialize (Hok (conj Hev Hh)). discriminate.
  - specialize (Hlen eq_refl).
    destruct (Nat.eqb_spec (List.length k) 32) as [E|E]; cbn [negb];
      (split; [|split]).
    + split; [discriminate|]. intros [H|H]; contradiction.
    + reflexivity.
    + split; [reflexivity|]. intros _. split; [lia|].
      apply Hok. reflexivity.
    + split; [intros _; right; exact E | reflexivity].
    + reflexivity.
    + split; [|discriminate]. intros [Hl _]. exfalso. lia.
Qed.

(** The key of the tests is accepted, the 16-digit key of
    [TestInvalidKeyLength] is not. *)
Lemma NewEnvelope_fails_exactly_witness :
  Crypto.NewEnvelope Fixture.testKey "secret"
  = Ok (Crypto.mkEnvelope (fst (Hex.DecodeString Fixture.testKey))
                          (Bytes.of_string "secret")) /\
  is_err (Crypto.NewEnvelope "0123456789abcdef" "secret") = true.
Proof.
  split.
  - destruct (NewEnvelope_fails_exactly Fixture.testKey "secret")
      as (_ & _ & H3).
    apply H3. split; reflexivity.
  - destruct (NewEnvelope_fails_exactly "0123456789abcdef" "secret")
      as (H1 & _ & _).
    apply H1. right. vm_compute. discriminate.
Defined.

(** C8. For every envelope and every byte sequence [b] (the non-empty
    ones in particular): when [Encrypt] of [b] succeeds with [c],
    [Decrypt] of [c] on the same envelope succeeds with exactly [b]. *)
Theorem Decrypt_Encrypt_roundtrip (e : Crypto.Envelope)
        (rnd rnd' : Rand.Reader) (b c : list byte) :
  Crypto.Encrypt e rnd b = (rnd', Ok c) ->
  Crypto.Decrypt e c = Ok b.
Proof.
  intros He. apply CryptoFacts.Encrypt_Ok_inv in He.
  destruct He as (blk & Hb & Hl & _ & Hs).
  rewrite (CryptoFacts.Decrypt_keyed e blk c Hb).
  set (nonce := firstn Gcm.NonceSize rnd) in *.
  assert (Hn : List.length nonce = Gcm.NonceSize)
    by (unfold nonce; rewrite length_firstn; lia).
  destruct (GcmFacts.Seal_Ok _ _ _ _ _ _ Hs) as (_ & Hm & Hc).
  assert (Hs0 : Gcm.Seal (Crypto.gcmOf e) [] nonce b []
                = Ok (skipn Gcm.NonceSize c)).
  { rewrite Hc, <- Hn, GcmFacts.skipn_length_app.
    unfold Gcm.Seal. rewrite Hn, Nat.eqb_refl. simpl negb. cbv iota.
    destruct (Z.ltb_spec Gcm.maxPlaintext (Z.of_nat (List.length b))); [lia|].
    reflexivity. }
  assert (Hf : firstn Gcm.NonceSize c = nonce)
    by (rewrite Hc, <- Hn; apply GcmFacts.firstn_length_app).
  assert (Hlc : (Gcm.NonceSize <= List.length c)%nat)
    by (rewrite Hc, length_app; lia).
  destruct (Nat.ltb_spec (List.length c) Gcm.NonceSize); [lia|].
  rewrite Hf, (GcmFacts.Open_Seal _ _ _ _ _ Hs0). reflexivity.
Qed.

(** The envelope of the tests encrypts "hello" under twelve bytes of
    entropy and decrypts the result. *)
Lemma Decrypt_Encrypt_roundtrip_witness :
  exists c,
    Crypto.Encrypt Fixture.env Fixture.entropy (Bytes.of_string "hello")
    = ([], Ok c) /\
    Crypto.Decrypt Fixture.env c = Ok (Bytes.of_string "hello").
Proof.
  eexists. split.
  - vm_compute. reflexivity.
  - apply (Decrypt_Encrypt_roundtrip Fixture.env Fixture.entropy []).
    vm_compute. reflexivity.
Defined.

(** C9. For every envelope, hence every HMAC secret, and every text,
    [VerifyMetadata] accepts the signature [SignMetadata] computes. *)
Theorem VerifyMetadata_SignMetadata (e : Crypto.Envelope) (text : string) :
  Crypto.VerifyMetadata e text (Crypto.SignMetadata e text) = true.
Proof.
  unfold Crypto.VerifyMetadata, Hmac.Equal.
  rewrite SubtleFacts.ConstantTimeCompare_refl. reflexivity.
Qed.

(** C10. A successful [Encrypt] of [p] returns the 12-byte nonce read
    from the entropy source, followed by a ciphertext as long as [p] and
    a 16-byte tag: [len p + 28] bytes in all. *)
Theorem Encrypt_layout (e : Crypto.Envelope) (rnd rnd' : Rand.Reader)
        (p c : list byte) :
  Crypto.Encrypt e rnd p = (rnd', Ok c) ->
  exists nonce ct tag,
    c = nonce ++ ct ++ tag /\
    nonce = firstn 12 rnd /\
    ct = Gcm.counterCrypt (Gcm.cipher (Crypto.gcmOf e))
                          (Gcm.inc32 (Gcm.counter0 nonce)) p /\
    tag = Gcm.auth (Gcm.cipher (Crypto.gcmOf e)) nonce ct [] /\
    List.length nonce = 12%nat /\
    List.length ct = List.length p /\
    List.length tag = 16%nat /\
    List.length c = (List.length p + 28)%nat.
Proof.
  intros He. apply CryptoFacts.Encrypt_Ok_inv in He.
  destruct He as (blk & _ & Hl & _ & Hs).
  destruct (GcmFacts.Seal_Ok _ _ _ _ _ _ Hs) as (Hn & _ & Hc).
  change Gcm.NonceSize with 12%nat in *.
  exists (firstn 12 rnd).
  exists (Gcm.counterCrypt (Gcm.cipher (Crypto.gcmOf e))
                           (Gcm.inc32 (Gcm.counter0 (firstn 12 rnd))) p).
  eexists. split; [exact Hc|].
  rewrite Hc, !length_app, GcmFacts.counterCrypt_length, GcmFacts.auth_length.
  repeat split; try reflexivity; try exact Hn. rewrite Hn. lia.
Qed.

(** "hello" under the envelope of the tests: 5 + 28 = 33 bytes. *)
Lemma Encrypt_layout_witness :
  exists c,
    Crypto.Encrypt Fixture.env Fixture.entropy (Bytes.of_string "hello")
    = ([], Ok c) /\
    List.length c = 33%nat.
Proof.
  eexists. split.
  - vm_compute. reflexivity.
  - destruct (Encrypt_layout Fixture.env Fixture.entropy []
                (Bytes.of_string "hello") _ eq_refl)
      as (nonce & ct & tag & _ & _ & _ & _ & _ & _ & _ & Hlen).
    exact Hlen.
Defined.

(* ----------------------------------------------------------------- *)
(** ** The object-store backend *)

Section ObjectStore.
Context {W : Type} `{Http.Client W}.
Local Open Scope string_scope.

(** C3, as the code has it. For every successful [Store] on the
    object-store backend with bucket [b], prefix [p] and arguments
    [(traceID, spanID, attrKey)], the returned reference's uri is
    ["promptvault://s3/"] followed by [b], ["/"] and the key
    [p + traceID + "/" + spanID + "/" + attrKey]: the scheme token is
    ["promptvault"]. *)
Theorem S3Store_uri (s : Storage.S3Backend) (w w' : W)
        (traceID spanID attrKey : string) (data : list byte)
        (r : Storage.Reference) :
  Storage.S3Store s w traceID spanID attrKey data = (w', Ok r) ->
  Storage.URI r
  = "promptvault://s3/" ++ Storage.bucket s ++ "/"
      ++ (Storage.prefix s ++ traceID ++ "/" ++ spanID ++ "/" ++ attrKey).
Proof.
  intros Hs. apply StorageFacts.S3Store_Ok_inv in Hs. subst r. reflexivity.
Qed.

(** C4, as the code has it. If [Retrieve] of a reference succeeds
    against a state of the medium (as it does for a reference fresh from
    [Store] on a medium that returns what it was given), then [Retrieve]
    against that state of a copy with the same uri and any other
    checksum fails with a checksum mismatch and returns no data; and
    whatever the uri of a reference, bytes that [Retrieve] returns have
    the reference's checksum as their digest. *)
Theorem S3Retrieve_mutated_checksum (s : Storage.S3Backend) (w w' : W)
        (r : Storage.Reference) (data : list byte) :
  Storage.S3Retrieve s w r = (w', Ok data) ->
  (forall r',
      Storage.URI r' = Storage.URI r ->
      Storage.Checksum r' <> Storage.Checksum r ->
      Storage.S3Retrieve s w r'
      = (w', Err (Storage.ChecksumMismatch (Storage.Checksum r')
                                           (Storage.Checksum r)))) /\
  (forall r' w'' d,
      Storage.S3Retrieve s w r' = (w'', Ok d) ->
      Hex.EncodeToString (Sha256.Sum256 d) = Storage.Checksum r').
Proof.
  intros Hr. split.
  - intros r' Hu Hc.
    apply StorageFacts.S3Retrieve_Ok_inv in Hr. destruct Hr as [Hrb Hd].
    assert (Hrb' : Storage.readsBack s w r' w' data)
      by (unfold Storage.readsBack in *; rewrite Hu; exact Hrb).
    rewrite (StorageFacts.S3Retrieve_readsBack _ _ _ _ _ Hrb'), Hd.
    destruct (String.eqb_spec (Storage.Checksum r) (Storage.Checksum r'))
      as [E|E]; [congruence|reflexivity].
  - intros r' w'' d Hr'.
    apply StorageFacts.S3Retrieve_Ok_inv in Hr'. apply Hr'.
Qed.

(** C5. For every [Retrieve] on the object-store backend that reads
    bytes back from the medium: the SHA-256 digest of those bytes is
    compared with the reference's checksum; when they differ the call
    returns a checksum-mismatch error and no bytes, when they agree it
    returns exactly the bytes read.  Conversely, bytes are returned only
    if they were read back and their digest is the checksum. *)
Theorem S3Retrieve_verifies (s : Storage.S3Backend) (w w' : W)
        (r : Storage.Reference) :
  (forall data,
      Storage.readsBack s w r w' data ->
      (Hex.EncodeToString (Sha256.Sum256 data) <> Storage.Checksum r ->
       Storage.S3Retrieve s w r
       = (w', Err (Storage.ChecksumMismatch
                     (Storage.Checksum r)
                     (Hex.EncodeToString (Sha256.Sum256 data))))) /\
      (Hex.EncodeToString (Sha256.Sum256 data) = Storage.Checksum r ->
       Storage.S3Retrieve s w r = (w', Ok data))) /\
  (forall d,
      Storage.S3Retrieve s w r = (w', Ok d) ->
      Storage.readsBack s w r w' d /\
      Hex.EncodeToString (Sha256.Sum256 d) = Storage.Checksum r).
Proof.
  split.
  - intros data Hrb.
    rewrite (StorageFacts.S3Retrieve_readsBack _ _ _ _ _ Hrb).
    destruct (String.eqb_spec (Hex.EncodeToString (Sha256.Sum256 data))
                              (Storage.Checksum r)) as [E|E];
      split; intros E'; congruence.
  - intros d. apply StorageFacts.S3Retrieve_Ok_inv.
Qed.

End ObjectStore.

(** C3, as stated, fails: the uri of the reference stored for the
    scenario of the tests does not start with ["vault://s3/"]. *)
Lemma S3Store_uri_vault_counterexample :
  exists w r,
    Fixture.stored = (w, Ok r) /\
    Storage.URI r
    <> ("vault://s3/" ++ Storage.bucket Fixture.s3 ++ "/"
          ++ (Storage.prefix Fixture.s3 ++ "trace123" ++ "/" ++ "span456"
                ++ "/" ++ "gen_ai.input.messages"))%string.
Proof.
  eexists. eexists. split.
  - vm_compute. reflexivity.
  - vm_compute. discriminate.
Qed.

(** The scenario of the tests is stored under the [promptvault] scheme. *)
Lemma S3Store_uri_witness :
  exists w r,
    Fixture.stored = (w, Ok r) /\
    Storage.URI r
    = "promptvault://s3/prompts/pv/trace123/span456/gen_ai.input.messages"%string.
Proof.
  eexists. eexists. split.
  - vm_compute. reflexivity.
  - eapply (S3Store_uri Fixture.s3 MemS3.empty _ "trace123" "span456"
                        "gen_ai.input.messages" Fixture.prompt).
    vm_compute. reflexivity.
Defined.

(** C4, as stated, fails: with the 17 bytes in front of the object path
    rewritten, the reference names the same object and [Retrieve]
    returns the stored bytes. *)
Lemma S3Retrieve_mutated_uri_counterexample :
  exists w r,
    Fixture.stored = (w, Ok r) /\
    let r' := Storage.mkReference
                "PROMPTVAULT://S3/prompts/pv/trace123/span456/gen_ai.input.messages"
                (Storage.Checksum r) (Storage.Encrypted r) (Storage.SizeBytes r) in
    Storage.URI r' <> Storage.URI r /\
    Storage.S3Retrieve Fixture.s3 w r' = (w, Ok Fixture.prompt).
Proof.
  eexists. eexists. split.
  - vm_compute. reflexivity.
  - split.
    + vm_compute. discriminate.
    + vm_compute. reflexivity.
Qed.

(** A uri shorter than the 17 bytes [Retrieve] skips is a run-time
    panic, before anything is requested. *)
Lemma S3Retrieve_short_uri_panics {W : Type} `{Http.Client W}
      (s : Storage.S3Backend) (w : W) (r : Storage.Reference) :
  (String.length (Storage.URI r) < 17)%nat ->
  Storage.S3Retrieve s w r = (w, Panic "runtime error: slice bounds out of range").
Proof.
  intros Hl. unfold Storage.S3Retrieve.
  change (String.length Storage.uriPrefix) with 17%nat.
  destruct (Nat.ltb_spec (String.length (Storage.URI r)) 17); [reflexivity|lia].
Qed.

(** The stored reference resolves; with its checksum overwritten, as in
    TestFilesystemChecksumMismatch, it does not. *)
Lemma S3Retrieve_mutated_checksum_witness :
  exists w r,
    Fixture.stored = (w, Ok r) /\
    Storage.S3Retrieve Fixture.s3 w r = (w, Ok Fixture.prompt) /\
    Storage.S3Retrieve Fixture.s3 w
      (Storage.mkReference (Storage.URI r) "deadbeef" false (Storage.SizeBytes r))
    = (w, Err (Storage.ChecksumMismatch "deadbeef" (Storage.Checksum r))).
Proof.
  eexists. eexists. split; [vm_compute; reflexivity|].
  match goal with
  | |- ?G /\ _ => assert (Hr : G) by (vm_compute; reflexivity)
  end.
  split; [exact Hr|].
  apply (proj1 (S3Retrieve_mutated_checksum _ _ _ _ _ Hr)).
  - reflexivity.
  - vm_compute. discriminate.
Defined.

(** The scenario of the tests: the object is read back; it is returned
    under its own checksum and refused under another. *)
Lemma S3Retrieve_verifies_witness :
  exists w r,
    Fixture.stored = (w, Ok r) /\
    Storage.readsBack Fixture.s3 w r w Fixture.prompt /\
    Storage.S3Retrieve Fixture.s3 w r = (w, Ok Fixture.prompt) /\
    Storage.S3Retrieve Fixture.s3 w
      (Storage.mkReference (Storage.URI r) "deadbeef" false (Storage.SizeBytes r))
    = (w, Err (Storage.ChecksumMismatch
                 "deadbeef"
                 (Hex.EncodeToString (Sha256.Sum256 Fixture.prompt)))).
Proof.
  eexists. eexists. split; [vm_compute; reflexivity|].
  match goal with
  | |- ?G /\ _ => assert (Hrb : G)
  end.
  { split; [vm_compute; lia|].
    eexists. eexists.
    split; [vm_compute; reflexivity|].
    split; [vm_compute; reflexivity|].
    split; [vm_compute; reflexivity|].
    split; vm_compute; reflexivity. }
  split; [exact Hrb|]. split.
  - apply (proj1 (S3Retrieve_verifies _ _ _ _) _ Hrb).
    vm_compute. reflexivity.
  - match goal with
    | |- Storage.S3Retrieve _ ?w ?r' = _ =>
        assert (Hrb' : Storage.readsBack Fixture.s3 w r' w Fixture.prompt)
          by exact Hrb
    end.
    apply (proj1 (S3Retrieve_verifies _ _ _ _) _ Hrb').
    vm_compute. discriminate.
Defined.

(* ----------------------------------------------------------------- *)
(** ** The processor: checksum and size under encryption *)

(** C1, evaluated where it fails. The processor of the fixture, with
    the envelope enabled, offloads the attribute ["gen_ai.prompt"] whose
    value is ["hello"]: [Encrypt] runs first and its output replaces
    [data], so the reference that [Store] returns and that is written
    into the span has [encrypted = true] and the digest of the
    ciphertext as its checksum, which is not the digest of ["hello"]. *)
Theorem processSpan_checksum_of_ciphertext :
  forall Marshal : Storage.Reference -> string,
  exists rnd' c env' r,
    Crypto.Encrypt Fixture.env Fixture.entropy (Bytes.of_string "hello")
    = (rnd', Ok c) /\
    Processor.processSpan Marshal (Fixture.proc (Some Fixture.env))
                          Fixture.start Fixture.span
    = Ok (env',
          Pdata.mkSpan (Pdata.TraceID Fixture.span) (Pdata.SpanID Fixture.span)
            [("gen_ai.prompt"%string, Pdata.ValueStr (Marshal r));
             ("gen_ai.model"%string, Pdata.ValueStr "gpt-4")]) /\
    Storage.Encrypted r = true /\
    Storage.Checksum r = Hex.EncodeToString (Sha256.Sum256 c) /\
    Storage.Checksum r
    <> Hex.EncodeToString (Sha256.Sum256 (Bytes.of_string "hello")).
Proof.
  intros Marshal.
  eexists. eexists. eexists.
  eexists (Storage.mkReference _ _ _ _).
  split; [vm_compute; reflexivity|].
  split; [vm_compute; reflexivity|].
  split; [reflexivity|].
  split; [vm_compute; reflexivity|].
  vm_compute. discriminate.
Qed.

(** C2, as the code has it under encryption. Every reference the
    processor records for a span while the envelope is enabled belongs
    to an attribute of the span, is marked encrypted, and has as
    [size_bytes] the length of the attribute's value plus the 28 bytes
    of nonce and tag, the length of what was written to the backend; it
    is never the length of the value. *)
Theorem collectOps_size_of_ciphertext {W : Type} `{Http.Client W}
        (p : Processor.vaultProcessor Storage.S3Backend)
        (e : Crypto.Envelope) (span : Pdata.Span)
        (env env' : Processor.Env) (ops : list Processor.pendingOp) :
  Processor.envelope p = Some e ->
  Processor.collectOps p env span = Ok (env', ops) ->
  Forall
    (fun op =>
       exists v,
         In (Processor.key op, v) (Pdata.Attributes span) /\
         Storage.Encrypted (Processor.ref op) = true /\
         Storage.SizeBytes (Processor.ref op)
         = (Z.of_nat (String.length (Pdata.Str v)) + 28)%Z /\
         Storage.SizeBytes (Processor.ref op)
         <> Z.of_nat (String.length (Pdata.Str v)))
    ops.
Proof.
  intros He Hc.
  pose proof (ProcessorFacts.collectOps_encrypted _ _ _ _ _ _ He Hc) as Hall.
  eapply Forall_impl; [|exact Hall].
  intros op (v & rnd & rnd' & c & Hin & Henc & _ & Hsz & Hen).
  exists v. split; [exact Hin|]. split; [exact Hen|].
  apply CryptoFacts.Encrypt_Ok_length in Henc.
  rewrite Hsz, Henc, ProcessorFacts.of_string_length. split; lia.
Qed.

(** The failing input: ["hello"], 5 bytes, is recorded with
    [size_bytes = 33]. *)
Lemma collectOps_size_of_ciphertext_witness :
  exists env' r,
    Processor.collectOps (Fixture.proc (Some Fixture.env)) Fixture.start
                         Fixture.span
    = Ok (env', [Processor.mkOp "gen_ai.prompt" r]) /\
    Storage.SizeBytes r = 33%Z.
Proof.
  eexists. eexists (Storage.mkReference _ _ _ _).
  match goal with
  | |- ?G /\ _ => assert (Hc : G) by (vm_compute; reflexivity)
  end.
  split; [exact Hc|].
  pose proof (collectOps_size_of_ciphertext (Fixture.proc (Some Fixture.env))
                Fixture.env _ _ _ _ eq_refl Hc) as Hall.
  apply Forall_inv in Hall. destruct Hall as (v & Hin & _ & Hsz & _).
  cbn [Processor.key Processor.ref] in Hin, Hsz.
  destruct Hin as [Hin|[Hin|[]]]; [|discriminate Hin].
  injection Hin as <-. exact Hsz.
Defined.

(* ================================================================= *)
(** * Further properties of the code *)

(* ----------------------------------------------------------------- *)
(** ** Shared lemmas *)

Module MoreFacts.
Local Open Scope Z_scope.

Lemma of_string_inj (a b : string) :
  Bytes.of_string a = Bytes.of_string b -> a = b.
Proof.
  unfold Bytes.of_string. intros E.
  rewrite <- (string_of_list_byte_of_string a),
          <- (string_of_list_byte_of_string b), E.
  reflexivity.
Qed.

Lemma append_inv_head (a x y : string) :
  (a ++ x)%string = (a ++ y)%string -> x = y.
Proof.
  induction a as [|c a IH]; simpl; intros E; [exact E|].
  injection E as E. auto.
Qed.

Lemma Sum256_length (data : list byte) :
  List.length (Sha256.Sum256 data) = 32%nat.
Proof.
  unfold Sha256.Sum256. cbv zeta.
  set (st := fold_left Sha256.compress _ _).
  cbn [map List.concat]. rewrite !length_app, !BytesFacts.be_length.
  reflexivity.
Qed.

Lemma EncodeToString_length (l : list byte) :
  String.length (Hex.EncodeToString l) = (2 * List.length l)%nat.
Proof.
  induction l as [|b l IH]; cbn [Hex.EncodeToString String.length List.length];
    [reflexivity|].
  rewrite IH. lia.
Qed.

(** The two digits of a byte: lower-case, and read back as the byte. *)
Lemma digits_of_byte (b : byte) :
  let hi := Hex.digit (Z.shiftr (Bytes.to_Z b) 4) in
  let lo := Hex.digit (Z.land (Bytes.to_Z b) 15) in
  Shape.isLowerHexDigit hi = true /\
  Shape.isLowerHexDigit lo = true /\
  exists x y,
    Hex.fromHexChar hi = Some x /\ Hex.fromHexChar lo = Some y /\
    Bytes.of_Z (Z.lor (Z.shiftl x 4) y) = b.
Proof.
  assert (Hall : forallb Shape.digitsReadBack
                         (map (fun n => Bytes.of_Z (Z.of_nat n)) (seq 0 256))
                 = true) by (vm_compute; reflexivity).
  rewrite forallb_forall in Hall.
  assert (Hb : Shape.digitsReadBack b = true).
  { apply Hall. rewrite <- (BytesFacts.of_to_Z b) at 1.
    apply in_map_iff. exists (Z.to_nat (Bytes.to_Z b)).
    pose proof (BytesFacts.to_Z_range b).
    split; [rewrite Z2Nat.id by lia; reflexivity | apply in_seq; lia]. }
  unfold Shape.digitsReadBack in Hb. cbv zeta in *.
  apply andb_true_iff in Hb. destruct Hb as [Hb Hr].
  apply andb_true_iff in Hb. destruct Hb as [Hhi Hlo].
  split; [exact Hhi|]. split; [exact Hlo|].
  destruct (Hex.fromHexChar (Hex.digit (Z.shiftr (Bytes.to_Z b) 4)))
    as [x|]; [|discriminate].
  destruct (Hex.fromHexChar (Hex.digit (Z.land (Bytes.to_Z b) 15)))
    as [y|]; [|discriminate].
  exists x, y. repeat split. apply Byte.byte_dec_bl. exact Hr.
Qed.

Lemma EncodeToString_lowerHex (l : list byte) :
  Shape.lowerHex (Hex.EncodeToString l) = true.
Proof.
  unfold Shape.lowerHex.
  induction l as [|b l IH];
    cbn [Hex.EncodeToString list_ascii_of_string forallb]; [reflexivity|].
  destruct (digits_of_byte b) as (Hhi & Hlo & _).
  cbv zeta in Hhi, Hlo. change 0x0f with 15. rewrite Hhi, Hlo, IH. reflexivity.
Qed.

(** encoding/hex round trip. *)
Lemma Decode_EncodeToString (l : list byte) :
  Hex.Decode (Hex.EncodeToString l) = (l, None).
Proof.
  induction l as [|b l IH]; cbn [Hex.EncodeToString Hex.Decode];
    [reflexivity|].
  destruct (digits_of_byte b) as (_ & _ & x & y & Hx & Hy & Hb).
  change 0x0f with 15. rewrite Hx, Hy, IH, Hb. reflexivity.
Qed.

Lemma EncodeToString_inj (a b : list byte) :
  Hex.EncodeToString a = Hex.EncodeToString b -> a = b.
Proof.
  intros E. pose proof (Decode_EncodeToString a) as Ha.
  rewrite E, Decode_EncodeToString in Ha.
  apply pair_inj in Ha. symmetry. apply Ha.
Qed.

(** [Open] returns bytes only for an authentic input. *)
Lemma Open_Ok_inv (g : Gcm.GCM) (nonce c aad p : list byte) :
  List.length nonce = Gcm.NonceSize ->
  Gcm.Open g [] nonce c aad = Ok p ->
  Gcm.authentic g nonce c aad /\
  p = Gcm.counterCrypt (Gcm.cipher g) (Gcm.inc32 (Gcm.counter0 nonce))
                       (firstn (List.length c - Gcm.TagSize) c).
Proof.
  intros Hn. unfold Gcm.Open.
  rewrite Hn, Nat.eqb_refl. simpl negb. cbv iota.
  destruct (Nat.ltb_spec (List.length c) Gcm.TagSize) as [Hl|Hl];
    [discriminate|].
  destruct (Z.ltb_spec (Gcm.maxPlaintext + Z.of_nat Gcm.TagSize)
                       (Z.of_nat (List.length c))) as [Hx|Hx]; [discriminate|].
  cbv zeta.
  destruct (Z.eqb_spec
              (Subtle.ConstantTimeCompare
                 (Gcm.auth (Gcm.cipher g) nonce
                           (firstn (List.length c - Gcm.TagSize) c) aad)
                 (skipn (List.length c - Gcm.TagSize) c)) 1) as [E|E];
    cbn [negb]; [|discriminate].
  intros Hp. apply Ok_inj in Hp. cbn [app] in Hp.
  apply SubtleFacts.ConstantTimeCompare_eq in E.
  split; [unfold Gcm.authentic; auto | symmetry; exact Hp].
Qed.

(** A successful [Decrypt], spelled out. *)
Lemma Decrypt_Ok_inv (e : Crypto.Envelope) (blob p : list byte) :
  Crypto.Decrypt e blob = Ok p ->
  (exists b, Aes.NewCipher (Crypto.key e) = Ok b) /\
  (12 <= List.length blob)%nat /\
  Gcm.authentic (Crypto.gcmOf e) (firstn 12 blob) (skipn 12 blob) [] /\
  p = Gcm.counterCrypt (Gcm.cipher (Crypto.gcmOf e))
                       (Gcm.inc32 (Gcm.counter0 (firstn 12 blob)))
                       (firstn (List.length (skipn 12 blob) - 16)
                               (skipn 12 blob)).
Proof.
  intros Hd.
  destruct (Aes.NewCipher (Crypto.key e)) as [b|x|m] eqn:Hb;
    [|unfold Crypto.Decrypt in Hd; rewrite Hb in Hd; discriminate ..].
  rewrite (CryptoFacts.Decrypt_keyed e b blob Hb) in Hd.
  change Gcm.NonceSize with 12%nat in Hd.
  destruct (Nat.ltb_spec (List.length blob) 12) as [Hl|Hl]; [discriminate|].
  assert (Hn : List.length (firstn 12 blob) = Gcm.NonceSize)
    by (rewrite length_firstn; unfold Gcm.NonceSize; lia).
  destruct (Gcm.Open (Crypto.gcmOf e) [] (firstn 12 blob) (skipn 12 blob) [])
    as [q|x|m] eqn:Ho; try discriminate.
  cbn [wrap] in Hd. apply Ok_inj in Hd. subst q.
  apply (Open_Ok_inv _ _ _ _ _ Hn) in Ho. destruct Ho as [Ha Hp].
  split; [exists b; reflexivity|]. split; [exact Hl|]. split; [exact Ha|].
  exact Hp.
Qed.

Lemma firstn_app_exact {A} (n : nat) (a b : list A) :
  List.length a = n -> firstn n (a ++ b) = a.
Proof. intros <-. apply GcmFacts.firstn_length_app. Qed.

Lemma skipn_app_exact {A} (n : nat) (a b : list A) :
  List.length a = n -> skipn n (a ++ b) = b.
Proof. intros <-. apply GcmFacts.skipn_length_app. Qed.

(** A list split where its last [n] elements begin. *)
Lemma split_tail {A} (a t : list A) :
  firstn (List.length (a ++ t) - List.length t) (a ++ t) = a /\
  skipn (List.length (a ++ t) - List.length t) (a ++ t) = t.
Proof.
  rewrite length_app.
  replace (List.length a + List.length t - List.length t)%nat
    with (List.length a) by lia.
  split; [apply GcmFacts.firstn_length_app | apply GcmFacts.skipn_length_app].
Qed.

(** [Encrypt] under a key the cipher accepts. *)
Lemma Encrypt_keyed (e : Crypto.Envelope) (b : Aes.Block) (rnd : Rand.Reader)
      (p : list byte) :
  Aes.NewCipher (Crypto.key e) = Ok b ->
  Crypto.Encrypt e rnd p
  = (let (rnd', r) := Rand.ReadFull rnd Gcm.NonceSize in
     (rnd',
      bind (wrap Crypto.GenerateNonce r)
           (fun nonce => never (Gcm.Seal (Crypto.gcmOf e) nonce nonce p [])))).
Proof.
  intros Hb. unfold Crypto.Encrypt. rewrite Hb.
  apply CryptoFacts.NewCipher_Ok_inv in Hb. subst b. reflexivity.
Qed.

Lemma Encrypt_keyed_Ok (e : Crypto.Envelope) (b : Aes.Block) (rnd : Rand.Reader)
      (p : list byte) :
  Aes.NewCipher (Crypto.key e) = Ok b ->
  (12 <= List.length rnd)%nat ->
  Z.of_nat (List.length p) <= Gcm.maxPlaintext ->
  Crypto.Encrypt e rnd p
  = (skipn 12 rnd,
     Ok (firstn 12 rnd
           ++ Gcm.counterCrypt (Gcm.cipher (Crypto.gcmOf e))
                (Gcm.inc32 (Gcm.counter0 (firstn 12 rnd))) p
           ++ Gcm.auth (Gcm.cipher (Crypto.gcmOf e)) (firstn 12 rnd)
                (Gcm.counterCrypt (Gcm.cipher (Crypto.gcmOf e))
                   (Gcm.inc32 (Gcm.counter0 (firstn 12 rnd))) p) [])).
Proof.
  intros Hb Hl Hm. rewrite (Encrypt_keyed e b rnd p Hb).
  unfold Rand.ReadFull. change Gcm.NonceSize with 12%nat.
  destruct (Nat.leb_spec 12 (List.length rnd)); [|lia].
  cbn [wrap bind]. unfold Gcm.Seal.
  assert (Hn : List.length (firstn 12 rnd) = Gcm.NonceSize)
    by (rewrite length_firstn; unfold Gcm.NonceSize; lia).
  rewrite Hn, Nat.eqb_refl. simpl negb. cbv iota.
  destruct (Z.ltb_spec Gcm.maxPlaintext (Z.of_nat (List.length p))); [lia|].
  reflexivity.
Qed.

(** The pieces of a successful [Encrypt]. *)
Lemma Encrypt_Ok_pieces (e : Crypto.Envelope) (rnd rnd' : Rand.Reader)
      (p c : list byte) :
  Crypto.Encrypt e rnd p = (rnd', Ok c) ->
  exists b ct,
    Aes.NewCipher (Crypto.key e) = Ok b /\
    (12 <= List.length rnd)%nat /\
    rnd' = skipn 12 rnd /\
    Z.of_nat (List.length p) <= Gcm.maxPlaintext /\
    ct = Gcm.counterCrypt (Gcm.cipher (Crypto.gcmOf e))
           (Gcm.inc32 (Gcm.counter0 (firstn 12 rnd))) p /\
    List.length ct = List.length p /\
    c = firstn 12 rnd ++ ct
          ++ Gcm.auth (Gcm.cipher (Crypto.gcmOf e)) (firstn 12 rnd) ct [].
Proof.
  intros He. apply CryptoFacts.Encrypt_Ok_inv in He.
  destruct He as (b & Hb & Hl & Hr & Hs).
  destruct (GcmFacts.Seal_Ok _ _ _ _ _ _ Hs) as (_ & Hm & Hc).
  change Gcm.NonceSize with 12%nat in *.
  exists b. eexists. repeat split; try eassumption; try reflexivity.
  apply GcmFacts.counterCrypt_length.
Qed.

End MoreFacts.

(* ----------------------------------------------------------------- *)
(** ** envelope.go *)

(** X1. [VerifyMetadata] accepts a signature for a text exactly when it
    is the string [SignMetadata] computes for that text: no other
    string, of any length or case, verifies. *)
Theorem VerifyMetadata_exact (e : Crypto.Envelope) (text signature : string) :
  Crypto.VerifyMetadata e text signature = true <->
  signature = Crypto.SignMetadata e text.
Proof.
  unfold Crypto.VerifyMetadata, Hmac.Equal.
  rewrite Z.eqb_eq, SubtleFacts.ConstantTimeCompare_eq.
  split.
  - intros E. symmetry. apply MoreFacts.of_string_inj. exact E.
  - intros ->. reflexivity.
Qed.

(** X2. A signature is always 64 characters long, all of them
    lower-case hex digits. *)
Theorem SignMetadata_shape (e : Crypto.Envelope) (text : string) :
  String.length (Crypto.SignMetadata e text) = 64%nat /\
  Shape.lowerHex (Crypto.SignMetadata e text) = true.
Proof.
  unfold Crypto.SignMetadata, Hmac.Sum. split.
  - rewrite MoreFacts.EncodeToString_length, MoreFacts.Sum256_length.
    reflexivity.
  - apply MoreFacts.EncodeToString_lowerHex.
Qed.

(** X3. [NewEnvelope] given the hex encoding of any 32-byte key
    succeeds, and the envelope holds exactly that key and the bytes of
    the secret. *)
Theorem NewEnvelope_of_encoded_key (k : list byte) (secret : string) :
  List.length k = 32%nat ->
  Crypto.NewEnvelope (Hex.EncodeToString k) secret
  = Ok (Crypto.mkEnvelope k (Bytes.of_string secret)).
Proof.
  intros Hl. unfold Crypto.NewEnvelope, Hex.DecodeString.
  rewrite MoreFacts.Decode_EncodeToString, Hl. reflexivity.
Qed.

Lemma NewEnvelope_of_encoded_key_witness :
  Crypto.NewEnvelope (Hex.EncodeToString (repeat x01 32)) "secret"
  = Ok (Crypto.mkEnvelope (repeat x01 32) (Bytes.of_string "secret")).
Proof. apply (NewEnvelope_of_encoded_key (repeat x01 32) "secret"). reflexivity. Defined.

(** X4. An envelope that [NewEnvelope] built never fails on its key:
    [Encrypt] fails with the nonce error when the entropy source
    delivers fewer than 12 bytes, and otherwise succeeds on every
    plaintext within the GCM limit, taking exactly 12 bytes from the
    source. *)
Theorem Encrypt_outcome (hexKey secret : string) (e : Crypto.Envelope)
        (rnd : Rand.Reader) (p : list byte) :
  Crypto.NewEnvelope hexKey secret = Ok e ->
  ((List.length rnd < 12)%nat ->
   exists err, Crypto.Encrypt e rnd p = ([], Err (Crypto.GenerateNonce err))) /\
  ((12 <= List.length rnd)%nat ->
   (Z.of_nat (List.length p) <= Gcm.maxPlaintext)%Z ->
   exists c, Crypto.Encrypt e rnd p = (skipn 12 rnd, Ok c)).
Proof.
  intros He. apply CryptoFacts.NewEnvelope_Ok_inv in He.
  destruct He as (_ & Hk & _).
  pose proof (CryptoFacts.NewCipher_256 _ Hk) as Hb.
  split.
  - intros Hl. rewrite (MoreFacts.Encrypt_keyed e _ rnd p Hb).
    unfold Rand.ReadFull. change Gcm.NonceSize with 12%nat.
    destruct (Nat.leb_spec 12 (List.length rnd)); [lia|].
    eexists. reflexivity.
  - intros Hl Hm. eexists.
    apply (MoreFacts.Encrypt_keyed_Ok e _ rnd p Hb Hl Hm).
Qed.

Lemma Encrypt_outcome_witness :
  (exists err,
      Crypto.Encrypt Fixture.env (Bytes.of_string "short") (Bytes.of_string "hello")
      = ([], Err (Crypto.GenerateNonce err))) /\
  (exists c,
      Crypto.Encrypt Fixture.env (Bytes.of_string "abcdefghijklmnop")
                     (Bytes.of_string "hello")
      = (Bytes.of_string "mnop", Ok c)).
Proof.
  assert (He : Crypto.NewEnvelope Fixture.testKey "test-hmac-secret"
               = Ok Fixture.env) by (vm_compute; reflexivity).
  split.
  - apply (Encrypt_outcome _ _ _ (Bytes.of_string "short")
                           (Bytes.of_string "hello") He).
    simpl. lia.
  - apply (Encrypt_outcome _ _ _ (Bytes.of_string "abcdefghijklmnop")
                           (Bytes.of_string "hello") He).
    + simpl. lia.
    + vm_compute. discriminate.
Defined.

(** X5. Two successive calls of [Encrypt] on one entropy source: each
    output starts with the 12 bytes it read, the second reads the 12
    bytes after the first, 24 bytes are gone afterwards, and the two
    outputs differ whenever those two 12-byte chunks differ, even for
    equal plaintexts. *)
Theorem Encrypt_twice (e : Crypto.Envelope) (rnd rnd1 rnd2 : Rand.Reader)
        (p1 p2 c1 c2 : list byte) :
  Crypto.Encrypt e rnd p1 = (rnd1, Ok c1) ->
  Crypto.Encrypt e rnd1 p2 = (rnd2, Ok c2) ->
  firstn 12 c1 = firstn 12 rnd /\
  firstn 12 c2 = firstn 12 (skipn 12 rnd) /\
  rnd2 = skipn 24 rnd /\
  (firstn 12 rnd <> firstn 12 (skipn 12 rnd) -> c1 <> c2).
Proof.
  intros H1 H2.
  apply MoreFacts.Encrypt_Ok_pieces in H1.
  destruct H1 as (b1 & ct1 & _ & Hl1 & -> & _ & _ & _ & ->).
  apply MoreFacts.Encrypt_Ok_pieces in H2.
  destruct H2 as (b2 & ct2 & _ & Hl2 & -> & _ & _ & _ & ->).
  assert (F : forall (r : list byte) (x : list byte),
             (12 <= List.length r)%nat -> firstn 12 (firstn 12 r ++ x) = firstn 12 r).
  { intros r x Hr. apply MoreFacts.firstn_app_exact.
    rewrite length_firstn. lia. }
  rewrite !F by assumption.
  split; [reflexivity|]. split; [reflexivity|]. split.
  - rewrite skipn_skipn. reflexivity.
  - intros Hne E. apply Hne.
    apply (f_equal (firstn 12)) in E. rewrite !F in E by assumption. exact E.
Qed.

Lemma Encrypt_twice_witness :
  exists rnd1 rnd2 c1 c2,
    Crypto.Encrypt Fixture.env (Bytes.of_string "abcdefghijklmnopqrstuvwx")
                   (Bytes.of_string "same input") = (rnd1, Ok c1) /\
    Crypto.Encrypt Fixture.env rnd1 (Bytes.of_string "same input")
    = (rnd2, Ok c2) /\
    rnd2 = [] /\ c1 <> c2.
Proof.
  do 4 eexists.
  match goal with
  | |- ?A /\ ?B /\ _ =>
      assert (H1 : A) by (vm_compute; reflexivity);
      assert (H2 : B) by (vm_compute; reflexivity)
  end.
  split; [exact H1|]. split; [exact H2|].
  destruct (Encrypt_twice _ _ _ _ _ _ _ _ H1 H2) as (_ & _ & Hr & Hne).
  split; [exact Hr|]. apply Hne. vm_compute. discriminate.
Defined.

(** X6. An output of [Encrypt] whose last 16 bytes, the tag, are
    replaced by any other 16 bytes is refused by [Decrypt] with the
    decryption error. *)
Theorem Decrypt_rejects_other_tag (e : Crypto.Envelope)
        (rnd rnd' : Rand.Reader) (p c tag' : list byte) :
  Crypto.Encrypt e rnd p = (rnd', Ok c) ->
  List.length tag' = 16%nat ->
  tag' <> skipn (List.length c - 16) c ->
  Crypto.Decrypt e (firstn (List.length c - 16) c ++ tag')
  = Err (Crypto.DecryptionFailed Gcm.errOpen).
Proof.
  intros He Hlt Hne.
  apply MoreFacts.Encrypt_Ok_pieces in He.
  destruct He as (b & ct & Hb & Hl & _ & _ & _ & Hlc & Hc).
  set (nonce := firstn 12 rnd) in *.
  set (tag := Gcm.auth (Gcm.cipher (Crypto.gcmOf e)) nonce ct []) in *.
  assert (Hn : List.length nonce = 12%nat)
    by (unfold nonce; rewrite length_firstn; lia).
  assert (Htag : List.length tag = 16%nat) by apply GcmFacts.auth_length.
  assert (Hsplit : firstn (List.length c - 16) c = nonce ++ ct /\
                   skipn (List.length c - 16) c = tag).
  { rewrite Hc, app_assoc, <- Htag. apply MoreFacts.split_tail. }
  destruct Hsplit as [Hf Hs]. rewrite Hf. rewrite Hs in Hne.
  rewrite (CryptoFacts.Decrypt_keyed e b _ Hb).
  change Gcm.NonceSize with 12%nat.
  destruct (Nat.ltb_spec (List.length ((nonce ++ ct) ++ tag')) 12) as [Hx|Hx];
    [rewrite !length_app in Hx; lia|].
  rewrite <- app_assoc.
  rewrite (MoreFacts.firstn_app_exact 12 nonce _ Hn),
          (MoreFacts.skipn_app_exact 12 nonce _ Hn).
  rewrite GcmFacts.Open_not_authentic; [reflexivity|exact Hn|].
  intros (_ & _ & Ha). change Gcm.TagSize with 16%nat in Ha.
  rewrite <- Hlt in Ha.
  destruct (MoreFacts.split_tail ct tag') as [Hf' Hs'].
  rewrite Hf', Hs' in Ha. apply Hne. symmetry. exact Ha.
Qed.

Lemma Decrypt_rejects_other_tag_witness :
  exists c,
    Crypto.Encrypt Fixture.env Fixture.entropy (Bytes.of_string "hello")
    = ([], Ok c) /\
    Crypto.Decrypt Fixture.env (firstn (List.length c - 16) c ++ repeat x00 16)
    = Err (Crypto.DecryptionFailed Gcm.errOpen).
Proof.
  eexists.
  match goal with
  | |- ?A /\ _ => assert (H1 : A) by (vm_compute; reflexivity)
  end.
  split; [exact H1|].
  apply (Decrypt_rejects_other_tag _ _ _ _ _ (repeat x00 16) H1).
  - reflexivity.
  - vm_compute. discriminate.
Defined.

(** X7. Whatever [Decrypt] returns is 28 bytes shorter than the blob it
    was given; in particular no blob of fewer than 28 bytes decrypts. *)
Theorem Decrypt_length (e : Crypto.Envelope) (blob p : list byte) :
  Crypto.Decrypt e blob = Ok p ->
  List.length blob = (List.length p + 28)%nat.
Proof.
  intros Hd. apply MoreFacts.Decrypt_Ok_inv in Hd.
  destruct Hd as (_ & Hl & (Ht & _ & _) & ->).
  rewrite GcmFacts.counterCrypt_length, length_firstn.
  rewrite length_skipn in *. unfold Gcm.TagSize in Ht. lia.
Qed.

Lemma Decrypt_length_witness :
  exists c,
    Crypto.Decrypt Fixture.env c = Ok (Bytes.of_string "hello") /\
    List.length c = 33%nat.
Proof.
  exists (Fixture.sealed Fixture.env "abcdefghijkl" "hello").
  match goal with
  | |- ?A /\ _ => assert (H1 : A) by (vm_compute; reflexivity)
  end.
  split; [exact H1|].
  apply (Decrypt_length _ _ _ H1).
Defined.

(** X8. A blob that [Decrypt] accepts is the very output of [Encrypt]
    for the plaintext returned, under the blob's first 12 bytes as
    nonce: per key, nonce and plaintext there is one accepted blob. *)
Theorem Encrypt_of_Decrypt (e : Crypto.Envelope) (blob p : list byte)
        (more : Rand.Reader) :
  Crypto.Decrypt e blob = Ok p ->
  Crypto.Encrypt e (firstn 12 blob ++ more) p = (more, Ok blob).
Proof.
  intros Hd. apply MoreFacts.Decrypt_Ok_inv in Hd.
  destruct Hd as ((b & Hb) & Hl & (Ht & Hx & Ha) & Hp).
  set (nonce := firstn 12 blob) in *.
  set (rest := skipn 12 blob) in *.
  change Gcm.TagSize with 16%nat in *.
  set (ct := firstn (List.length rest - 16) rest) in *.
  assert (Hn : List.length nonce = 12%nat)
    by (unfold nonce; rewrite length_firstn; lia).
  assert (Hct : (List.length ct = List.length rest - 16)%nat)
    by (unfold ct; rewrite length_firstn; lia).
  pose proof (MoreFacts.firstn_app_exact 12 nonce more Hn) as Hfn.
  pose proof (MoreFacts.skipn_app_exact 12 nonce more Hn) as Hsn.
  rewrite (MoreFacts.Encrypt_keyed_Ok e b (nonce ++ more) p Hb).
  - rewrite Hfn, Hsn, Hp, GcmFacts.counterCrypt_involutive.
    cbn [Gcm.cipher Crypto.gcmOf] in Ha |- *. rewrite Ha.
    unfold ct. rewrite firstn_skipn.
    unfold nonce, rest. rewrite firstn_skipn. reflexivity.
  - rewrite length_app. lia.
  - rewrite Hp, GcmFacts.counterCrypt_length, Hct. lia.
Qed.

Lemma Encrypt_of_Decrypt_witness :
  let c := Fixture.sealed Fixture.env "abcdefghijkl" "hello" in
  Crypto.Decrypt Fixture.env c = Ok (Bytes.of_string "hello") /\
  Crypto.Encrypt Fixture.env (firstn 12 c ++ Bytes.of_string "rest")
                 (Bytes.of_string "hello")
  = (Bytes.of_string "rest", Ok c).
Proof.
  cbv zeta.
  match goal with
  | |- ?A /\ _ => assert (H1 : A) by (vm_compute; reflexivity)
  end.
  split; [exact H1|].
  apply (Encrypt_of_Decrypt _ _ _ (Bytes.of_string "rest") H1).
Defined.

(* ----------------------------------------------------------------- *)
(** ** The object-store backend: Store and Retrieve together *)

Module StoreFacts.
Import Storage.
Local Open Scope string_scope.

Section S3.
Context {W : Type} `{Http.Client W}.

(** The request a successful [Store] sent, and the answer it got. *)
Lemma S3Store_request (s : S3Backend) (w w' : W)
      (traceID spanID attrKey : string) (data : list byte) (r : Reference) :
  S3Store s w traceID spanID attrKey data = (w', Ok r) ->
  exists resp,
    Http.Do w (Http.mkRequest
                 "PUT"
                 (scheme s ++ "://" ++ endpoint s ++ "/" ++ bucket s ++ "/"
                    ++ (prefix s ++ traceID ++ "/" ++ spanID ++ "/" ++ attrKey))
                 [("Content-Type", "application/octet-stream")]
                 (Z.of_nat (List.length data))
                 data)
    = (w', Ok resp) /\
    (Http.StatusCode resp < 300)%Z.
Proof.
  unfold S3Store, Http.NewRequest.
  destruct (Http.validURL _);
    [|intros E; apply pair_inj in E; destruct E; discriminate].
  unfold Http.SetContentLength, Http.SetHeader.
  cbn [Http.Method Http.URL Http.Header Http.ContentLength Http.Body].
  destruct (Http.Do w _) as [w1 [resp|err|m]];
    [|intros E; apply pair_inj in E; destruct E; discriminate ..].
  destruct (Z.leb_spec 300 (Http.StatusCode resp));
    intros E; apply pair_inj in E; destruct E as [<- E]; [discriminate|].
  exists resp. split; [reflexivity|lia].
Qed.

End S3.

End StoreFacts.

Section StoreAndRetrieve.
Context {W : Type} `{Http.Client W}.
Local Open Scope string_scope.

(** X9. The reference of a successful [Store] has a checksum of 64
    lower-case hex digits, is not marked encrypted, and has the length
    of the data given as its size. *)
Theorem S3Store_reference_shape (s : Storage.S3Backend) (w w' : W)
        (traceID spanID attrKey : string) (data : list byte)
        (r : Storage.Reference) :
  Storage.S3Store s w traceID spanID attrKey data = (w', Ok r) ->
  String.length (Storage.Checksum r) = 64%nat /\
  Shape.lowerHex (Storage.Checksum r) = true /\
  Storage.Encrypted r = false /\
  Storage.SizeBytes r = Z.of_nat (List.length data).
Proof.
  intros Hs. apply StorageFacts.S3Store_Ok_inv in Hs. subst r.
  cbn [Storage.Checksum Storage.Encrypted Storage.SizeBytes].
  rewrite MoreFacts.EncodeToString_length, MoreFacts.Sum256_length.
  repeat split. apply MoreFacts.EncodeToString_lowerHex.
Qed.

(** X10. [Store] and [Retrieve] agree on the object: a successful
    [Store] has PUT the data, with its length and content type, to the
    very URL that [Retrieve] of the returned reference asks for, and
    whatever a later [Retrieve] of that reference returns, in any state
    of the medium, has the SHA-256 digest of the data stored. *)
Theorem S3Store_then_Retrieve (s : Storage.S3Backend) (w w' : W)
        (traceID spanID attrKey : string) (data : list byte)
        (r : Storage.Reference) :
  Storage.S3Store s w traceID spanID attrKey data = (w', Ok r) ->
  (exists resp,
      Http.Do w (Http.mkRequest "PUT" (Storage.objectURL s (Storage.URI r))
                   [("Content-Type", "application/octet-stream")]
                   (Z.of_nat (List.length data)) data)
      = (w', Ok resp) /\
      (Http.StatusCode resp < 300)%Z) /\
  (forall w2 w3 d,
      Storage.S3Retrieve s w2 r = (w3, Ok d) ->
      Sha256.Sum256 d = Sha256.Sum256 data).
Proof.
  intros Hs. pose proof (StoreFacts.S3Store_request _ _ _ _ _ _ _ _ Hs) as Hreq.
  apply StorageFacts.S3Store_Ok_inv in Hs. subst r. cbn [Storage.URI].
  split.
  - unfold Storage.objectURL. rewrite MemS3Facts.objectPath_uri. exact Hreq.
  - intros w2 w3 d Hr. apply StorageFacts.S3Retrieve_Ok_inv in Hr.
    destruct Hr as [_ Hd]. cbn [Storage.Checksum] in Hd.
    apply MoreFacts.EncodeToString_inj. exact Hd.
Qed.

(** X11. Under one backend, trace and span, two attribute keys that
    differ are stored under uris that differ. *)
Theorem S3Store_uri_distinct (s : Storage.S3Backend) (w1 w1' w2 w2' : W)
        (traceID spanID k1 k2 : string) (d1 d2 : list byte)
        (r1 r2 : Storage.Reference) :
  Storage.S3Store s w1 traceID spanID k1 d1 = (w1', Ok r1) ->
  Storage.S3Store s w2 traceID spanID k2 d2 = (w2', Ok r2) ->
  k1 <> k2 ->
  Storage.URI r1 <> Storage.URI r2.
Proof.
  intros H1 H2 Hne E.
  apply StorageFacts.S3Store_Ok_inv in H1, H2. subst r1 r2.
  cbn [Storage.URI] in E.
  repeat (apply MoreFacts.append_inv_head in E). contradiction.
Qed.

(** X12. With a client that does not panic, [Retrieve] panics exactly
    on a uri of fewer than 17 bytes, and then before any request is
    made: the medium is left as it was. *)
Theorem S3Retrieve_panics_iff (s : Storage.S3Backend) (w : W)
        (r : Storage.Reference) :
  (forall w0 req w1 m, Http.Do w0 req <> (w1, Panic m)) ->
  (forall w' m, Storage.S3Retrieve s w r = (w', Panic m) ->
                (String.length (Storage.URI r) < 17)%nat /\ w' = w) /\
  ((String.length (Storage.URI r) < 17)%nat ->
   exists m, Storage.S3Retrieve s w r = (w, Panic m)).
Proof.
  intros Hnp. unfold Storage.S3Retrieve, Http.NewRequest.
  change (String.length Storage.uriPrefix) with 17%nat.
  destruct (Nat.ltb_spec (String.length (Storage.URI r)) 17) as [Hl|Hl].
  - split.
    + intros w' m E. apply pair_inj in E. destruct E as [<- _]. auto.
    + intros _. eexists. reflexivity.
  - split; [|lia]. intros w' m.
    destruct (Http.validURL _);
      [|intros E; apply pair_inj in E; destruct E; discriminate].
    destruct (Http.Do w _) as [w1 [resp|err|m1]] eqn:Hdo;
      [ | intros E; apply pair_inj in E; destruct E; discriminate
        | exfalso; exact (Hnp _ _ _ _ Hdo) ].
    destruct (300 <=? Http.StatusCode resp)%Z;
      [intros E; apply pair_inj in E; destruct E; discriminate|].
    destruct (Http.ReadErr resp);
      [intros E; apply pair_inj in E; destruct E; discriminate|].
    destruct (negb _);
      intros E; apply pair_inj in E; destruct E; discriminate.
Qed.

(** X13. [Retrieve] looks at nothing of a reference but the uri from
    its 18th byte on and the checksum: references that agree on these
    two are treated alike, whatever their first 17 bytes, their
    encrypted flag and their size. *)
Theorem S3Retrieve_reads_path_and_checksum (s : Storage.S3Backend) (w : W)
        (r1 r2 : Storage.Reference) :
  (17 <= String.length (Storage.URI r1))%nat ->
  (17 <= String.length (Storage.URI r2))%nat ->
  Storage.objectPath (Storage.URI r1) = Storage.objectPath (Storage.URI r2) ->
  Storage.Checksum r1 = Storage.Checksum r2 ->
  Storage.S3Retrieve s w r1 = Storage.S3Retrieve s w r2.
Proof.
  intros H1 H2 Hp Hc. unfold Storage.S3Retrieve.
  change (String.length Storage.uriPrefix) with 17%nat.
  destruct (Nat.ltb_spec (String.length (Storage.URI r1)) 17); [lia|].
  destruct (Nat.ltb_spec (String.length (Storage.URI r2)) 17); [lia|].
  unfold Storage.objectPath in Hp.
  change (String.length Storage.uriPrefix) with 17%nat in Hp.
  rewrite Hp, Hc. reflexivity.
Qed.

End StoreAndRetrieve.

Lemma S3Store_reference_shape_witness :
  exists w r,
    Fixture.stored = (w, Ok r) /\
    String.length (Storage.Checksum r) = 64%nat /\
    Storage.SizeBytes r = 34%Z.
Proof.
  eexists. eexists.
  match goal with
  | |- ?A /\ _ => assert (H1 : A) by (vm_compute; reflexivity)
  end.
  split; [exact H1|].
  destruct (S3Store_reference_shape _ _ _ _ _ _ _ _ H1) as (Hl & _ & _ & Hs).
  split; [exact Hl | exact Hs].
Defined.

Lemma S3Store_then_Retrieve_witness :
  exists w r,
    Fixture.stored = (w, Ok r) /\
    Storage.S3Retrieve Fixture.s3 w r = (w, Ok Fixture.prompt) /\
    Sha256.Sum256 Fixture.prompt = Sha256.Sum256 Fixture.prompt.
Proof.
  eexists. eexists.
  match goal with
  | |- ?A /\ ?B /\ _ =>
      assert (H1 : A) by (vm_compute; reflexivity);
      assert (H2 : B) by (vm_compute; reflexivity)
  end.
  split; [exact H1|]. split; [exact H2|].
  exact (proj2 (S3Store_then_Retrieve _ _ _ _ _ _ _ _ H1) _ _ _ H2).
Defined.

Lemma S3Store_uri_distinct_witness :
  exists w1 r1 w2 r2,
    Storage.S3Store Fixture.s3 MemS3.empty "t1" "s1" "gen_ai.input.messages"
                    (Bytes.of_string "prompt") = (w1, Ok r1) /\
    Storage.S3Store Fixture.s3 w1 "t1" "s1" "gen_ai.output.messages"
                    (Bytes.of_string "response") = (w2, Ok r2) /\
    Storage.URI r1 <> Storage.URI r2.
Proof.
  do 4 eexists.
  match goal with
  | |- ?A /\ ?B /\ _ =>
      assert (H1 : A) by (vm_compute; reflexivity);
      assert (H2 : B) by (vm_compute; reflexivity)
  end.
  split; [exact H1|]. split; [exact H2|].
  apply (S3Store_uri_distinct _ _ _ _ _ _ _ _ _ _ _ _ _ H1 H2). discriminate.
Defined.

(** The object store of the examples never panics. *)
Lemma MemS3_no_panic (w0 : MemS3.world) (req : Http.Request)
      (w1 : MemS3.world) (m : string) :
  Http.Do w0 req <> (w1, Panic m).
Proof.
  cbn [Http.Do MemS3.client]. unfold MemS3.serve.
  destruct (String.eqb (Http.Method req) "PUT");
    [intros E; apply pair_inj in E; destruct E; discriminate|].
  destruct (String.eqb (Http.Method req) "GET");
    [|intros E; apply pair_inj in E; destruct E; discriminate].
  destruct (MemS3.lookup _ _);
    intros E; apply pair_inj in E; destruct E; discriminate.
Qed.

Lemma S3Retrieve_panics_iff_witness :
  exists m,
    Storage.S3Retrieve Fixture.s3 MemS3.empty
      (Storage.mkReference "vault://s3/x" "00" false 0)
    = (MemS3.empty, Panic m).
Proof.
  apply (proj2 (S3Retrieve_panics_iff Fixture.s3 MemS3.empty
                  (Storage.mkReference "vault://s3/x" "00" false 0)
                  MemS3_no_panic)).
  simpl. lia.
Defined.

Lemma S3Retrieve_reads_path_and_checksum_witness :
  exists w r,
    Fixture.stored = (w, Ok r) /\
    Storage.S3Retrieve Fixture.s3 w
      (Storage.mkReference
         "-----------------prompts/pv/trace123/span456/gen_ai.input.messages"
         (Storage.Checksum r) true 0)
    = Storage.S3Retrieve Fixture.s3 w r.
Proof.
  eexists. eexists. split; [vm_compute; reflexivity|].
  apply S3Retrieve_reads_path_and_checksum.
  - vm_compute. lia.
  - vm_compute. lia.
  - vm_compute. reflexivity.
  - reflexivity.
Defined.

(* ----------------------------------------------------------------- *)
(** ** processSpan *)

Module SpanFacts.
Import Processor.
Local Open Scope string_scope.

(** [PutStr] on a key that is present keeps the keys and their order. *)
Lemma PutStr_keys (k v : string) (m : Pdata.Map) :
  In k (map fst m) -> map fst (Pdata.PutStr k v m) = map fst m.
Proof.
  induction m as [|[k' v'] m IH]; cbn [map fst Pdata.PutStr In];
    [contradiction|].
  destruct (String.eqb_spec k' k) as [->|Hne]; cbn [map fst]; [reflexivity|].
  intros [E|Hin]; [contradiction|]. rewrite (IH Hin). reflexivity.
Qed.

(** [PutStr] leaves the entries of every other key alone. *)
Lemma PutStr_other (k v k' : string) (x : Pdata.Value) (m : Pdata.Map) :
  k' <> k -> In (k', x) m -> In (k', x) (Pdata.PutStr k v m).
Proof.
  intros Hne. induction m as [|[k0 v0] m IH]; cbn [Pdata.PutStr In];
    [contradiction|].
  destruct (String.eqb_spec k0 k) as [->|Hk]; cbn [In].
  - intros [E|Hin]; [|right; exact Hin].
    apply pair_inj in E. destruct E as [E _]. congruence.
  - intros [E|Hin]; [left; exact E | right; exact (IH Hin)].
Qed.

(** [Remove] leaves the entries of every other key in the map. *)
Lemma removeWith_other (k k' : string) (x : Pdata.Value) (m : Pdata.Map)
      (d : string * Pdata.Value) :
  k' <> k -> In (k', x) m -> In (k', x) (Pdata.removeWith k (last m d) m).
Proof.
  intros Hne. induction m as [|[k0 v0] rest IH]; [contradiction|].
  destruct rest as [|e rest'].
  - cbn [Pdata.removeWith In]. intros [E|[]].
    apply pair_inj in E. destruct E as [-> ->].
    destruct (String.eqb_spec k' k); [contradiction|]. left. reflexivity.
  - change (last ((k0, v0) :: e :: rest') d) with (last (e :: rest') d).
    change (Pdata.removeWith k (last (e :: rest') d) ((k0, v0) :: e :: rest'))
      with (if String.eqb k0 k
            then last (e :: rest') d :: removelast (e :: rest')
            else (k0, v0) :: Pdata.removeWith k (last (e :: rest') d) (e :: rest')).
    intros [E|Hin].
    + apply pair_inj in E. destruct E as [-> ->].
      destruct (String.eqb_spec k' k); [contradiction|]. left. reflexivity.
    + destruct (String.eqb_spec k0 k) as [->|Hk].
      * assert (Hnil : e :: rest' <> []) by discriminate.
        rewrite (app_removelast_last d Hnil) in Hin.
        apply in_app_or in Hin. destruct Hin as [Hin|[E|[]]].
        -- right. exact Hin.
        -- left. exact E.
      * right. exact (IH Hin).
Qed.

Lemma Remove_other (k k' : string) (x : Pdata.Value) (m : Pdata.Map) :
  k' <> k -> In (k', x) m -> In (k', x) (Pdata.Remove k m).
Proof.
  intros Hne Hin. destruct m as [|e m]; [contradiction|].
  unfold Pdata.Remove. apply removeWith_other; assumption.
Qed.

Section Generic.
Context {B W : Type} `{Storage.Backend B W}.

Lemma visit_skips (p : vaultProcessor B) (traceID spanID : string)
      (acc : Env * list pendingOp) (kv : string * Pdata.Value) :
  Shape.qualifies p kv = false -> visit p traceID spanID acc kv = Ok acc.
Proof.
  unfold Shape.qualifies, visit. destruct acc as [env ops], kv as [k v].
  cbn [fst snd]. destruct (inKeySet p k); cbn [negb andb]; [|reflexivity].
  destruct (Z.of_nat (String.length (Pdata.Str v)) <? SizeThreshold (cfg p))%Z;
    [reflexivity|discriminate].
Qed.

(** One attribute adds at most one operation, for itself, and only if
    it qualifies. *)
Lemma visit_ops (p : vaultProcessor B) (traceID spanID : string)
      (env env' : Env) (ops ops' : list pendingOp) (kv : string * Pdata.Value) :
  visit p traceID spanID (env, ops) kv = Ok (env', ops') ->
  ops' = ops \/
  (Shape.qualifies p kv = true /\ exists r, ops' = (ops ++ [mkOp (fst kv) r])%list).
Proof.
  destruct (Shape.qualifies p kv) eqn:Hq.
  2:{ rewrite (visit_skips _ _ _ _ _ Hq). intros E.
      apply Ok_inj, pair_inj in E. destruct E. auto. }
  unfold Shape.qualifies in Hq. apply andb_true_iff in Hq. destruct Hq as [Hk Ht].
  unfold visit. destruct kv as [k v]. cbn [fst snd] in *.
  rewrite Hk. cbn [negb].
  destruct (Z.of_nat (String.length (Pdata.Str v)) <? SizeThreshold (cfg p))%Z;
    [discriminate|].
  destruct (match envelope p with
            | Some e => Crypto.Encrypt e (entropy env)
                                       (Bytes.of_string (Pdata.Str v))
            | None => (entropy env, Ok (Bytes.of_string (Pdata.Str v)))
            end) as [rnd [c|err|m]];
    [| intros E; apply Ok_inj, pair_inj in E; destruct E; auto
     | discriminate].
  destruct (Storage.Store (backend p) (world env) traceID spanID k c)
    as [w1 [r|err|m]];
    [| intros E; apply Ok_inj, pair_inj in E; destruct E; auto
     | discriminate].
  intros E. apply Ok_inj, pair_inj in E. destruct E as [_ <-].
  right. split; [reflexivity|]. eexists. reflexivity.
Qed.

(** The loop, for any predicate on operations that each added
    operation satisfies. *)
Lemma range_ops (p : vaultProcessor B) (traceID spanID : string)
      (P : pendingOp -> Prop) (attrs : Pdata.Map) :
  (forall kv r, In kv attrs -> Shape.qualifies p kv = true -> P (mkOp (fst kv) r)) ->
  forall (env env' : Env) (ops ops' : list pendingOp),
    range p traceID spanID (env, ops) attrs = Ok (env', ops') ->
    Forall P ops ->
    Forall P ops' /\
    (List.length ops' <= List.length ops + List.length attrs)%nat.
Proof.
  induction attrs as [|kv rest IH]; intros HP env env' ops ops'.
  - cbn [range]. intros E. apply Ok_inj, pair_inj in E. destruct E as [_ <-].
    intros Hall. split; [exact Hall|lia].
  - cbn [range]. unfold bind.
    destruct (visit p traceID spanID (env, ops) kv) as [[env1 ops1]|[]|m]
      eqn:Hv; [|discriminate].
    intros Hr Hall.
    assert (Hall1 : Forall P ops1 /\
                    (List.length ops1 <= List.length ops + 1)%nat).
    { destruct (visit_ops _ _ _ _ _ _ _ _ Hv) as [->|(Hq & r & ->)].
      - split; [exact Hall|lia].
      - split; [|rewrite length_app; cbn [List.length]; lia].
        apply Forall_app. split; [exact Hall|].
        constructor; [|constructor]. apply HP; [left; reflexivity|exact Hq]. }
    destruct Hall1 as [Hall1 Hlen1].
    destruct (IH (fun kv r Hin => HP kv r (or_intror Hin)) _ _ _ _ Hr Hall1)
      as [Hall' Hlen'].
    split; [exact Hall'|]. cbn [List.length]. lia.
Qed.

(** The loop on attributes none of which qualifies does nothing. *)
Lemma range_inert (p : vaultProcessor B) (traceID spanID : string)
      (acc : Env * list pendingOp) (attrs : Pdata.Map) :
  forallb (fun kv => negb (Shape.qualifies p kv)) attrs = true ->
  range p traceID spanID acc attrs = Ok acc.
Proof.
  induction attrs as [|kv rest IH]; cbn [forallb range]; [reflexivity|].
  intros Ha. apply andb_true_iff in Ha. destruct Ha as [Hq Hr].
  apply negb_true_iff in Hq. rewrite (visit_skips _ _ _ _ _ Hq).
  cbn [bind]. exact (IH Hr).
Qed.

(** The loop when no operation can be recorded: every qualifying
    attribute ends in an error of [Encrypt] or of [Store]. [I] is what
    the environment keeps. *)
Lemma range_no_op (p : vaultProcessor B) (traceID spanID : string)
      (I : Env -> Prop) (attrs : Pdata.Map) :
  (forall env ops kv,
      I env ->
      exists env', visit p traceID spanID (env, ops) kv = Ok (env', ops) /\
                   I env') ->
  forall env ops,
    I env ->
    exists env', range p traceID spanID (env, ops) attrs = Ok (env', ops) /\
                 I env'.
Proof.
  intros Hv. induction attrs as [|kv rest IH]; intros env ops HI.
  - exists env. split; [reflexivity|exact HI].
  - cbn [range]. destruct (Hv env ops kv HI) as (env1 & -> & HI1).
    cbn [bind]. exact (IH env1 ops HI1).
Qed.

(** Every operation of the loop is for a qualifying attribute of the
    span, and there are no more operations than attributes. *)
Lemma collectOps_provenance (p : vaultProcessor B) (env env' : Env)
      (span : Pdata.Span) (ops : list pendingOp) :
  collectOps p env span = Ok (env', ops) ->
  Forall (fun op => exists v, In (key op, v) (Pdata.Attributes span) /\
                              Shape.qualifies p (key op, v) = true) ops /\
  (List.length ops <= List.length (Pdata.Attributes span))%nat.
Proof.
  intros Hc. unfold collectOps in Hc.
  refine (range_ops p _ _ _ (Pdata.Attributes span) _ _ _ _ _ Hc (Forall_nil _)).
  intros [k v] r Hin Hq. exists v. cbn [key fst]. split; assumption.
Qed.

(** One operation applied: entries whose key is neither the
    operation's nor its reference key stay. *)
Lemma apply_other (Marshal : Storage.Reference -> string)
      (p : vaultProcessor B) (m : Pdata.Map) (op : pendingOp)
      (k : string) (x : Pdata.Value) :
  k <> key op -> k <> Shape.refKey (key op) ->
  In (k, x) m -> In (k, x) (apply Marshal p m op).
Proof.
  intros H1 H2 Hin. unfold apply, Shape.refKey in *.
  destruct (String.eqb (Mode (cfg p)) "replace_with_ref");
    [apply PutStr_other; assumption|].
  destruct (String.eqb (Mode (cfg p)) "drop");
    [apply PutStr_other; [assumption|apply Remove_other; assumption]|].
  destruct (String.eqb (Mode (cfg p)) "keep_and_ref");
    [apply PutStr_other; assumption | exact Hin].
Qed.

Lemma fold_apply_other (Marshal : Storage.Reference -> string)
      (p : vaultProcessor B) (ops : list pendingOp) (m : Pdata.Map)
      (k : string) (x : Pdata.Value) :
  Forall (fun op => k <> key op /\ k <> Shape.refKey (key op)) ops ->
  In (k, x) m -> In (k, x) (fold_left (apply Marshal p) ops m).
Proof.
  revert m. induction ops as [|op ops IH]; intros m Hall Hin; [exact Hin|].
  cbn [fold_left]. inversion Hall as [|? ? [H1 H2] Hrest]; subst.
  apply IH; [exact Hrest|]. apply apply_other; assumption.
Qed.

(** A successful [processSpan], in its two halves. *)
Lemma processSpan_Ok_inv (Marshal : Storage.Reference -> string)
      (p : vaultProcessor B) (env env' : Env) (span span' : Pdata.Span) :
  processSpan Marshal p env span = Ok (env', span') ->
  exists ops,
    collectOps p env span = Ok (env', ops) /\
    span' = Pdata.mkSpan (Pdata.TraceID span) (Pdata.SpanID span)
              (fold_left (apply Marshal p) ops (Pdata.Attributes span)).
Proof.
  unfold processSpan, bind.
  destruct (collectOps p env span) as [[env1 ops]|[]|m]; [|discriminate].
  intros E. apply Ok_inj, pair_inj in E. destruct E as [<- <-].
  exists ops. split; reflexivity.
Qed.

End Generic.

End SpanFacts.

Section SpanProperties.
Context {B W : Type} `{Storage.Backend B W}.
Variable Marshal : Storage.Reference -> string.
Local Open Scope string_scope.

(** X14. A span none of whose attributes has a configured key and a
    string value of at least the threshold goes through [processSpan]
    unchanged, and nothing is stored, encrypted or logged. *)
Theorem processSpan_inert (p : Processor.vaultProcessor B)
        (env : Processor.Env) (span : Pdata.Span) :
  forallb (fun kv => negb (Shape.qualifies p kv)) (Pdata.Attributes span) = true ->
  Processor.processSpan Marshal p env span = Ok (env, span).
Proof.
  intros Ha. unfold Processor.processSpan, Processor.collectOps.
  rewrite (SpanFacts.range_inert _ _ _ _ _ Ha). cbn [bind fold_left].
  destruct span. reflexivity.
Qed.

(** X16. Every operation [processSpan] records is for an attribute of
    the span whose key is configured and whose value is not below the
    threshold, and there are at most as many operations as attributes. *)
Theorem collectOps_only_configured (p : Processor.vaultProcessor B)
        (env env' : Processor.Env) (span : Pdata.Span)
        (ops : list Processor.pendingOp) :
  Processor.collectOps p env span = Ok (env', ops) ->
  Forall (fun op =>
            Processor.inKeySet p (Processor.key op) = true /\
            exists v,
              In (Processor.key op, v) (Pdata.Attributes span) /\
              (Processor.SizeThreshold (Processor.cfg p)
               <= Z.of_nat (String.length (Pdata.Str v)))%Z) ops /\
  (List.length ops <= List.length (Pdata.Attributes span))%nat.
Proof.
  intros Hc. destruct (SpanFacts.collectOps_provenance _ _ _ _ _ Hc) as [Hall Hlen].
  split; [|exact Hlen].
  eapply Forall_impl; [|exact Hall].
  intros op (v & Hin & Hq). unfold Shape.qualifies in Hq. cbn [fst snd] in Hq.
  apply andb_true_iff in Hq. destruct Hq as [Hk Ht].
  split; [exact Hk|]. exists v. split; [exact Hin|].
  apply negb_true_iff, Z.ltb_ge in Ht. exact Ht.
Qed.

(** X17. In every mode, an attribute whose key is not configured and is
    not a configured key followed by [.vault_ref] is still in the span
    after [processSpan], with its value. *)
Theorem processSpan_keeps_unrelated (p : Processor.vaultProcessor B)
        (env env' : Processor.Env) (span span' : Pdata.Span)
        (k : string) (v : Pdata.Value) :
  Processor.processSpan Marshal p env span = Ok (env', span') ->
  In (k, v) (Pdata.Attributes span) ->
  Processor.inKeySet p k = false ->
  (forall k0, Processor.inKeySet p k0 = true -> k <> Shape.refKey k0) ->
  In (k, v) (Pdata.Attributes span').
Proof.
  intros Hp Hin Hk Href.
  destruct (SpanFacts.processSpan_Ok_inv _ _ _ _ _ _ Hp) as (ops & Hc & ->).
  cbn [Pdata.Attributes]. apply SpanFacts.fold_apply_other; [|exact Hin].
  destruct (SpanFacts.collectOps_provenance _ _ _ _ _ Hc) as [Hall _].
  eapply Forall_impl; [|exact Hall].
  intros op (v0 & _ & Hq). unfold Shape.qualifies in Hq. cbn [fst] in Hq.
  apply andb_true_iff in Hq. destruct Hq as [Hq _].
  split; [intros ->; congruence | exact (Href _ Hq)].
Qed.

(** X18. In mode [replace_with_ref], [processSpan] neither adds nor
    removes nor reorders attributes: the keys after are the keys before,
    and the identifiers of the span are kept. *)
Theorem processSpan_replace_keeps_keys (p : Processor.vaultProcessor B)
        (env env' : Processor.Env) (span span' : Pdata.Span) :
  Processor.Mode (Processor.cfg p) = "replace_with_ref" ->
  Processor.processSpan Marshal p env span = Ok (env', span') ->
  map fst (Pdata.Attributes span') = map fst (Pdata.Attributes span) /\
  Pdata.TraceID span' = Pdata.TraceID span /\
  Pdata.SpanID span' = Pdata.SpanID span.
Proof.
  intros Hm Hp.
  destruct (SpanFacts.processSpan_Ok_inv _ _ _ _ _ _ Hp) as (ops & Hc & ->).
  cbn [Pdata.Attributes Pdata.TraceID Pdata.SpanID].
  split; [|split; reflexivity].
  destruct (SpanFacts.collectOps_provenance _ _ _ _ _ Hc) as [Hall _].
  assert (Hkeys : Forall (fun op => In (Processor.key op)
                                       (map fst (Pdata.Attributes span))) ops).
  { eapply Forall_impl; [|exact Hall]. intros op (v & Hin & _).
    apply in_map_iff. exists (Processor.key op, v). auto. }
  clear Hall Hc Hp.
  generalize dependent (Pdata.Attributes span). intros m0.
  assert (G : forall m, map fst m = map fst m0 ->
                        Forall (fun op => In (Processor.key op) (map fst m0)) ops ->
                        map fst (fold_left (Processor.apply Marshal p) ops m)
                        = map fst m0).
  { induction ops as [|op ops IH]; intros m Hm0 Hall; [exact Hm0|].
    cbn [fold_left]. inversion Hall as [|? ? Hk Hrest]; subst.
    apply IH; [|exact Hrest].
    unfold Processor.apply. rewrite Hm. cbn [String.eqb Ascii.eqb Bool.eqb].
    rewrite SpanFacts.PutStr_keys; [exact Hm0 | rewrite Hm0; exact Hk]. }
  intros Hall. apply G; [reflexivity|exact Hall].
Qed.

(** X19. In mode [keep_and_ref], every attribute of the span, the
    offloaded ones included, is still there with its value after
    [processSpan], unless its key is a configured key followed by
    [.vault_ref]. *)
Theorem processSpan_keep_and_ref_keeps (p : Processor.vaultProcessor B)
        (env env' : Processor.Env) (span span' : Pdata.Span)
        (k : string) (v : Pdata.Value) :
  Processor.Mode (Processor.cfg p) = "keep_and_ref" ->
  Processor.processSpan Marshal p env span = Ok (env', span') ->
  In (k, v) (Pdata.Attributes span) ->
  (forall k0, Processor.inKeySet p k0 = true -> k <> Shape.refKey k0) ->
  In (k, v) (Pdata.Attributes span').
Proof.
  intros Hm Hp Hin Href.
  destruct (SpanFacts.processSpan_Ok_inv _ _ _ _ _ _ Hp) as (ops & Hc & ->).
  cbn [Pdata.Attributes].
  destruct (SpanFacts.collectOps_provenance _ _ _ _ _ Hc) as [Hall _].
  assert (Hk : Forall (fun op => k <> Shape.refKey (Processor.key op)) ops).
  { eapply Forall_impl; [|exact Hall]. intros op (v0 & _ & Hq).
    unfold Shape.qualifies in Hq. cbn [fst] in Hq.
    apply andb_true_iff in Hq. destruct Hq as [Hq _]. exact (Href _ Hq). }
  clear Hall Hc Hp. revert Hin. generalize (Pdata.Attributes span).
  induction ops as [|op ops IH]; intros m Hin; [exact Hin|].
  cbn [fold_left]. inversion Hk as [|? ? H1 Hrest]; subst.
  apply IH; [exact Hrest|].
  unfold Processor.apply. rewrite Hm. cbn [String.eqb Ascii.eqb Bool.eqb].
  apply SpanFacts.PutStr_other; assumption.
Qed.

(** X20. While every [Store] of the backend fails, a processor without
    envelope leaves the span exactly as it was, in every mode, [drop]
    included: nothing is removed that was not stored. *)
Theorem processSpan_store_down (p : Processor.vaultProcessor B)
        (env : Processor.Env) (span : Pdata.Span) :
  Processor.envelope p = None ->
  (forall w t s k d,
      exists w' err,
        Storage.Store (Processor.backend p) w t s k d = (w', Err err)) ->
  exists env',
    Processor.processSpan Marshal p env span = Ok (env', span) /\
    Processor.entropy env' = Processor.entropy env.
Proof.
  intros He Hdown. unfold Processor.processSpan, Processor.collectOps.
  destruct (SpanFacts.range_no_op p
              (Pdata.idString (Pdata.TraceID span))
              (Pdata.idString (Pdata.SpanID span))
              (fun e' => Processor.entropy e' = Processor.entropy env)
              (Pdata.Attributes span)) with (env := env) (ops := @nil Processor.pendingOp)
    as (env' & Hr & HI).
  - intros env0 ops [k v] HI. unfold Processor.visit. rewrite He.
    destruct (negb (Processor.inKeySet p k)); [eauto|].
    destruct (Z.of_nat (String.length (Pdata.Str v))
              <? Processor.SizeThreshold (Processor.cfg p))%Z; [eauto|].
    destruct (Hdown (Processor.world env0)
                    (Pdata.idString (Pdata.TraceID span))
                    (Pdata.idString (Pdata.SpanID span)) k
                    (Bytes.of_string (Pdata.Str v))) as (w' & err & ->).
    eexists. split; [reflexivity|exact HI].
  - reflexivity.
  - rewrite Hr. cbn [bind fold_left]. exists env'.
    split; [destruct span; reflexivity | exact HI].
Qed.

End SpanProperties.

(** With fewer than 12 bytes of entropy [Encrypt] returns an error, and
    the source stays short. *)
Lemma Encrypt_dry (e : Crypto.Envelope) (rnd : Rand.Reader) (p : list byte) :
  (List.length rnd < 12)%nat ->
  exists rnd' err,
    Crypto.Encrypt e rnd p = (rnd', Err err) /\ (List.length rnd' < 12)%nat.
Proof.
  intros Hl. destruct (Aes.NewCipher (Crypto.key e)) as [b|x|m] eqn:Hb.
  - rewrite (MoreFacts.Encrypt_keyed e b rnd p Hb).
    unfold Rand.ReadFull. change Gcm.NonceSize with 12%nat.
    destruct (Nat.leb_spec 12 (List.length rnd)); [lia|].
    do 2 eexists. split; [reflexivity|]. cbn [List.length]. lia.
  - unfold Crypto.Encrypt. rewrite Hb. cbn [wrap].
    do 2 eexists. split; [reflexivity|exact Hl].
  - exfalso. unfold Aes.NewCipher in Hb.
    destruct (_ || _ || _)%bool in Hb; discriminate.
Qed.

Section SpanUnderFailure.
Context {B W : Type} `{Storage.Backend B W}.
Variable Marshal : Storage.Reference -> string.

(** X21. With the envelope enabled and fewer than 12 bytes of entropy
    left, [processSpan] stores nothing and leaves the span as it was:
    a value that could not be encrypted is never written in the clear,
    and never removed. *)
Theorem processSpan_entropy_dry (p : Processor.vaultProcessor B)
        (e : Crypto.Envelope) (env : Processor.Env) (span : Pdata.Span) :
  Processor.envelope p = Some e ->
  (List.length (Processor.entropy env) < 12)%nat ->
  exists env',
    Processor.processSpan Marshal p env span = Ok (env', span) /\
    Processor.world env' = Processor.world env.
Proof.
  intros He Hl. unfold Processor.processSpan, Processor.collectOps.
  destruct (SpanFacts.range_no_op p
              (Pdata.idString (Pdata.TraceID span))
              (Pdata.idString (Pdata.SpanID span))
              (fun e' => Processor.world e' = Processor.world env /\
                         (List.length (Processor.entropy e') < 12)%nat)
              (Pdata.Attributes span)) with (env := env) (ops := @nil Processor.pendingOp)
    as (env' & Hr & HI & _).
  - intros env0 ops [k v] [Hw Hd]. unfold Processor.visit. rewrite He.
    destruct (negb (Processor.inKeySet p k)); [eauto|].
    destruct (Z.of_nat (String.length (Pdata.Str v))
              <? Processor.SizeThreshold (Processor.cfg p))%Z; [eauto|].
    destruct (Encrypt_dry e (Processor.entropy env0)
                          (Bytes.of_string (Pdata.Str v)) Hd)
      as (rnd' & err & -> & Hd').
    eexists. split; [reflexivity|]. cbn [Processor.world Processor.entropy].
    split; assumption.
  - split; [reflexivity|exact Hl].
  - rewrite Hr. cbn [bind fold_left]. exists env'.
    split; [destruct span; reflexivity | exact HI].
Qed.

End SpanUnderFailure.

Module PlainFacts.
Import Processor.
Local Open Scope string_scope.

Section S3.
Context {W : Type} `{Http.Client W}.

Lemma visit_plain (p : vaultProcessor Storage.S3Backend)
      (traceID spanID k : string) (v : Pdata.Value)
      (env env' : Env) (ops ops' : list pendingOp) :
  envelope p = None ->
  visit p traceID spanID (env, ops) (k, v) = Ok (env', ops') ->
  ops' = ops \/
  ops' = (ops ++
          [mkOp k (Storage.mkReference
                     (Storage.uriPrefix ++ Storage.bucket (backend p) ++ "/"
                        ++ (Storage.prefix (backend p) ++ traceID ++ "/"
                              ++ spanID ++ "/" ++ k))
                     (Hex.EncodeToString
                        (Sha256.Sum256 (Bytes.of_string (Pdata.Str v))))
                     false
                     (Z.of_nat (String.length (Pdata.Str v))))])%list.
Proof.
  intros He. unfold visit. rewrite He.
  destruct (inKeySet p k); cbn [negb];
    [|intros E; apply Ok_inj, pair_inj in E; destruct E; auto].
  destruct (Z.of_nat (String.length (Pdata.Str v)) <? SizeThreshold (cfg p))%Z;
    [intros E; apply Ok_inj, pair_inj in E; destruct E; auto|].
  cbn [Storage.Store Storage.S3_Backend].
  destruct (Storage.S3Store (backend p) (world env) traceID spanID k
                            (Bytes.of_string (Pdata.Str v)))
    as [w1 [r|err|m]] eqn:Hst;
    [| intros E; apply Ok_inj, pair_inj in E; destruct E; auto
     | discriminate].
  intros E. apply Ok_inj, pair_inj in E. destruct E as [_ <-].
  right. apply StorageFacts.S3Store_Ok_inv in Hst. subst r.
  rewrite ProcessorFacts.of_string_length. reflexivity.
Qed.

Lemma range_plain (p : vaultProcessor Storage.S3Backend)
      (span : Pdata.Span) (traceID spanID : string) (attrs : Pdata.Map) :
  envelope p = None ->
  (forall kv, In kv attrs -> In kv (Pdata.Attributes span)) ->
  forall (env env' : Env) (ops ops' : list pendingOp),
    range p traceID spanID (env, ops) attrs = Ok (env', ops') ->
    Forall (Shape.recordedPlain p traceID spanID span) ops ->
    Forall (Shape.recordedPlain p traceID spanID span) ops'.
Proof.
  intros He. induction attrs as [|[k v] rest IH]; intros Hin env env' ops ops'.
  - cbn [range]. intros E. apply Ok_inj, pair_inj in E. destruct E as [_ <-].
    auto.
  - cbn [range]. unfold bind.
    destruct (visit p traceID spanID (env, ops) (k, v)) as [[env1 ops1]|[]|m]
      eqn:Hv; [|discriminate].
    intros Hr Hall. apply (IH (fun kv H => Hin kv (or_intror H)) _ _ _ _ Hr).
    destruct (visit_plain _ _ _ _ _ _ _ _ _ He Hv) as [->| ->]; [exact Hall|].
    apply Forall_app. split; [exact Hall|].
    constructor; [|constructor].
    exists v. cbn [key ref]. split; [|reflexivity].
    apply Hin. left. reflexivity.
Qed.

End S3.

End PlainFacts.

(** X15. Without envelope, every reference [processSpan] records on the
    object-store backend describes the attribute's value itself: its
    checksum is the SHA-256 digest of the value, its size the length of
    the value, it is not marked encrypted, and its uri ends in the
    trace id, the span id and the attribute key. *)
Theorem collectOps_plain_references {W : Type} `{Http.Client W}
        (p : Processor.vaultProcessor Storage.S3Backend)
        (env env' : Processor.Env) (span : Pdata.Span)
        (ops : list Processor.pendingOp) :
  Processor.envelope p = None ->
  Processor.collectOps p env span = Ok (env', ops) ->
  Forall
    (fun op =>
       exists v,
         In (Processor.key op, v) (Pdata.Attributes span) /\
         Processor.ref op
         = Storage.mkReference
             ("promptvault://s3/" ++ Storage.bucket (Processor.backend p) ++ "/"
                ++ (Storage.prefix (Processor.backend p)
                      ++ Pdata.idString (Pdata.TraceID span) ++ "/"
                      ++ Pdata.idString (Pdata.SpanID span) ++ "/"
                      ++ Processor.key op))%string
             (Hex.EncodeToString
                (Sha256.Sum256 (Bytes.of_string (Pdata.Str v))))
             false
             (Z.of_nat (String.length (Pdata.Str v))))
    ops.
Proof.
  intros He Hc. unfold Processor.collectOps in Hc.
  exact (PlainFacts.range_plain p span _ _ _ He (fun kv Hin => Hin)
           _ _ _ _ Hc (Forall_nil _)).
Qed.

(** The configured keys of the example processors. *)
Lemma procWith_keys (mode : string) (t : Z) (e : option Crypto.Envelope)
      (k0 : string) :
  Processor.inKeySet (Fixture.procWith mode t e) k0 = true ->
  k0 = "gen_ai.prompt"%string \/ k0 = "gen_ai.completion"%string.
Proof.
  unfold Processor.inKeySet.
  cbn [Processor.keySet Fixture.procWith existsb].
  rewrite orb_false_r. intros Hk. apply orb_true_iff in Hk.
  destruct Hk as [Hk|Hk]; apply String.eqb_eq in Hk; auto.
Qed.

(** The backend whose endpoint is no host name refuses every [Store]. *)
Lemma unreachable_down (w : MemS3.world) (t s k : string) (d : list byte) :
  exists w' err,
    Storage.Store (Processor.backend Fixture.unreachable) w t s k d
    = (w', Err err).
Proof.
  cbn [Storage.Store Storage.S3_Backend]. unfold Storage.S3Store, Http.NewRequest.
  cbv zeta. cbn [Http.validURL MemS3.client].
  match goal with
  | |- context [forallb MemS3.printable ?l] =>
      assert (Hv : forallb MemS3.printable l = false) by (lazy; reflexivity);
      rewrite Hv
  end.
  do 2 eexists. reflexivity.
Qed.

(** The threshold scenario of the tests: nothing qualifies. *)
Lemma processSpan_inert_witness :
  Processor.processSpan Storage.URI (Fixture.procWith "replace_with_ref" 100 None)
                        Fixture.start Fixture.chat
  = Ok (Fixture.start, Fixture.chat).
Proof. apply (processSpan_inert Storage.URI). vm_compute. reflexivity. Defined.

Lemma collectOps_plain_references_witness :
  exists env' r,
    Processor.collectOps (Fixture.proc None) Fixture.start Fixture.span
    = Ok (env', [Processor.mkOp "gen_ai.prompt" r]) /\
    Storage.Checksum r = Fixture.sha256_hex "hello" /\
    Storage.SizeBytes r = 5%Z.
Proof.
  eexists. eexists (Storage.mkReference _ _ _ _).
  match goal with
  | |- ?A /\ _ => assert (H1 : A) by (vm_compute; reflexivity)
  end.
  split; [exact H1|].
  pose proof (collectOps_plain_references (Fixture.proc None) _ _ _ _
                eq_refl H1) as Hall.
  apply Forall_inv in Hall. destruct Hall as (v & Hin & Href).
  cbn [Processor.key Processor.ref] in Hin, Href.
  destruct Hin as [Hin|[Hin|[]]]; [|discriminate Hin].
  apply pair_inj in Hin. destruct Hin as [_ <-].
  split; [exact (f_equal Storage.Checksum Href)
         | exact (f_equal Storage.SizeBytes Href)].
Defined.

Lemma collectOps_only_configured_witness :
  exists env' ops,
    Processor.collectOps (Fixture.procWith "drop" 3 None) Fixture.start
                         Fixture.chat = Ok (env', ops) /\
    (List.length ops <= 3)%nat.
Proof.
  do 2 eexists.
  match goal with
  | |- ?A /\ _ => assert (H1 : A) by (vm_compute; reflexivity)
  end.
  split; [exact H1|].
  exact (proj2 (collectOps_only_configured _ _ _ _ _ H1)).
Defined.

Lemma processSpan_keeps_unrelated_witness :
  exists env' span',
    Processor.processSpan Storage.URI (Fixture.procWith "drop" 0 None)
                          Fixture.start Fixture.chat = Ok (env', span') /\
    In ("gen_ai.model"%string, Pdata.ValueStr "gpt-4") (Pdata.Attributes span').
Proof.
  do 2 eexists.
  match goal with
  | |- ?A /\ _ => assert (H1 : A) by (vm_compute; reflexivity)
  end.
  split; [exact H1|].
  apply (processSpan_keeps_unrelated _ _ _ _ _ _ _ _ H1).
  - right. left. reflexivity.
  - reflexivity.
  - intros k0 Hk. apply procWith_keys in Hk.
    destruct Hk as [-> | ->]; discriminate.
Defined.

Lemma processSpan_replace_keeps_keys_witness :
  exists env' span',
    Processor.processSpan Storage.URI (Fixture.procWith "replace_with_ref" 0 None)
                          Fixture.start Fixture.chat = Ok (env', span') /\
    map fst (Pdata.Attributes span')
    = ["gen_ai.prompt"; "gen_ai.model"; "gen_ai.completion"]%string.
Proof.
  do 2 eexists.
  match goal with
  | |- ?A /\ _ => assert (H1 : A) by (vm_compute; reflexivity)
  end.
  split; [exact H1|].
  exact (proj1 (processSpan_replace_keeps_keys Storage.URI
                  (Fixture.procWith "replace_with_ref" 0 None) _ _ _ _
                  eq_refl H1)).
Defined.

Lemma processSpan_keep_and_ref_keeps_witness :
  exists env' span',
    Processor.processSpan Storage.URI (Fixture.procWith "keep_and_ref" 0 None)
                          Fixture.start Fixture.chat = Ok (env', span') /\
    In ("gen_ai.prompt"%string, Pdata.ValueStr "What is the meaning of life?")
       (Pdata.Attributes span').
Proof.
  do 2 eexists.
  match goal with
  | |- ?A /\ _ => assert (H1 : A) by (vm_compute; reflexivity)
  end.
  split; [exact H1|].
  apply (processSpan_keep_and_ref_keeps Storage.URI
           (Fixture.procWith "keep_and_ref" 0 None) _ _ _ _ _ _ eq_refl H1).
  - left. reflexivity.
  - intros k0 Hk. apply procWith_keys in Hk.
    destruct Hk as [-> | ->]; discriminate.
Defined.

Lemma processSpan_store_down_witness :
  exists env',
    Processor.processSpan Storage.URI Fixture.unreachable Fixture.start
                          Fixture.span = Ok (env', Fixture.span).
Proof.
  destruct (processSpan_store_down Storage.URI Fixture.unreachable
              Fixture.start Fixture.span eq_refl unreachable_down)
    as (env' & Hp & _).
  exists env'. exact Hp.
Defined.

Lemma processSpan_entropy_dry_witness :
  exists env',
    Processor.processSpan Storage.URI (Fixture.proc (Some Fixture.env))
      (Processor.mkEnv MemS3.empty (Bytes.of_string "short") [])
      Fixture.span
    = Ok (env', Fixture.span) /\
    Processor.world env' = MemS3.empty.
Proof.
  apply (processSpan_entropy_dry Storage.URI (Fixture.proc (Some Fixture.env))
           Fixture.env
           (Processor.mkEnv MemS3.empty (Bytes.of_string "short") [])
           Fixture.span eq_refl).
  simpl. lia.
Defined.

(* ================================================================= *)
(** * The collector around the processor: configuration, life cycle,
      span events, ConsumeTraces and the command line *)

Local Open Scope string_scope.

(** The default configuration of the factory passes [Validate]. *)
Example createDefaultConfig_valid :
  Config.Validate Config.createDefaultConfig = None.
Proof. reflexivity. Qed.

(** X22. [Validate] accepts a configuration exactly when the backend
    is [filesystem] with a base path or [s3] with a bucket, the mode is
    one of the three modes, there is at least one key, and, with
    encryption enabled, the key source is [env] or [static]. *)
Theorem Validate_accepts_iff (c : Config.Config) :
  Config.Validate c = None <->
  ((Config.Backend (Config.Storage c) = "filesystem" /\
    Config.BasePath (Config.Filesystem (Config.Storage c)) <> "") \/
   (Config.Backend (Config.Storage c) = "s3" /\
    Config.Bucket (Config.S3 (Config.Storage c)) <> "")) /\
  (Processor.Mode (Config.Vault c) = "replace_with_ref" \/
   Processor.Mode (Config.Vault c) = "drop" \/
   Processor.Mode (Config.Vault c) = "keep_and_ref") /\
  Processor.Keys (Config.Vault c) <> [] /\
  (Config.Enable (Config.Crypto c) = true ->
   Config.KeySource (Config.Crypto c) = "env" \/
   Config.KeySource (Config.Crypto c) = "static").
Proof.
  unfold Config.Validate.
  destruct (String.eqb_spec (Config.Backend (Config.Storage c)) "filesystem") as [Hf|Hf];
  destruct (String.eqb_spec (Config.Backend (Config.Storage c)) "s3") as [Hs|Hs];
  try (rewrite Hf in Hs; discriminate Hs);
  destruct (String.eqb_spec (Config.BasePath (Config.Filesystem (Config.Storage c))) "") as [Hp|Hp];
  destruct (String.eqb_spec (Config.Bucket (Config.S3 (Config.Storage c))) "") as [Hb|Hb];
  cbn [negb orb andb];
  try (split; [discriminate | intros ([(?&?)|(?&?)]&_); congruence]);
  destruct (String.eqb_spec (Processor.Mode (Config.Vault c)) "replace_with_ref") as [M1|M1];
  destruct (String.eqb_spec (Processor.Mode (Config.Vault c)) "drop") as [M2|M2];
  destruct (String.eqb_spec (Processor.Mode (Config.Vault c)) "keep_and_ref") as [M3|M3];
  cbn [negb orb andb];
  try (split; [discriminate | intros (_&[?|[?|?]]&_); congruence]);
  (destruct (Processor.Keys (Config.Vault c)) as [|k ks] eqn:K; cbn [List.length Nat.eqb];
   [split; [discriminate | intros (_&_&?&_); congruence]|]);
  (destruct (Config.Enable (Config.Crypto c));
   [ destruct (String.eqb_spec (Config.KeySource (Config.Crypto c)) "env") as [S1|S1];
     destruct (String.eqb_spec (Config.KeySource (Config.Crypto c)) "static") as [S2|S2];
     cbn [negb orb andb];
     try (split; [discriminate | intros (_&_&_&X); destruct (X eq_refl); congruence])
   | ]);
  (split; [intros _|reflexivity]);
  (repeat split; [tauto | tauto | discriminate | intros; tauto || discriminate ]).
Qed.

Module LifecycleFacts.
Import Collector.

Section Generic.
Context {W FS : Type} {client : Http.Client W} {fsBackend : Storage.Backend FS W}.

(** On a processor without backend and envelope the attribute loop
    panics at the first attribute it would offload. *)
Lemma range_nil_backend (p : vaultProcessor (FS := FS)) (t s : string)
      (acc : Processor.Env * list Processor.pendingOp) (attrs : Pdata.Map) :
  backend p = None ->
  envelope p = None ->
  existsb (Shape.qualifies (view p)) attrs = true ->
  Processor.range (view p) t s acc attrs = Panic nilDereference.
Proof.
  intros Hb He. revert acc.
  induction attrs as [|[k v] rest IH]; intros acc Hq; [discriminate Hq|].
  cbn [existsb] in Hq. cbn [Processor.range].
  unfold Processor.visit at 1. destruct acc as [env ops].
  unfold Shape.qualifies in Hq at 1. cbn [fst snd] in Hq.
  destruct (Processor.inKeySet (view p) k); cbn [negb andb orb] in Hq |- *.
  - cbn [view Processor.cfg Processor.envelope Processor.backend] in *.
    destruct (Z.of_nat (String.length (Pdata.Str v))
              <? Processor.SizeThreshold (Config.Vault (cfg p)))%Z;
      cbn [negb orb] in Hq.
    + cbn [bind]. apply IH, Hq.
    + rewrite He, Hb. reflexivity.
  - cbn [bind]. apply IH, Hq.
Qed.

End Generic.
End LifecycleFacts.

Section Lifecycle.
Context {W FS : Type} {client : Http.Client W} {fsBackend : Storage.Backend FS W}.
Variable NewFilesystemBackend : string -> W -> W * result Storage.error FS.
Variable Getenv : string -> string.
Variable Marshal : Storage.Reference -> string.

(** X23. Between [newProcessor] and [Start] the processor has no
    backend: [processSpan] panics with a nil dereference on the first
    span that has an attribute to offload, while [Shutdown] returns nil
    and does nothing. *)
Theorem processSpan_before_Start_panics (c : Config.Config)
        (p : Collector.vaultProcessor (FS := FS))
        (env : Processor.Env) (span : Pdata.Span) :
  Collector.newProcessor c = Ok p ->
  existsb (Shape.qualifies (Collector.view p)) (Pdata.Attributes span) = true ->
  Processor.processSpan Marshal (Collector.view p) env span
  = Panic Collector.nilDereference /\
  Collector.Shutdown p (Processor.world env) = (Processor.world env, None).
Proof.
  unfold Collector.newProcessor.
  destruct (Config.Validate c); [discriminate|].
  intros E Hq. apply Ok_inj in E. subst p.
  split; [|reflexivity].
  unfold Processor.processSpan, Processor.collectOps.
  rewrite LifecycleFacts.range_nil_backend by (reflexivity || exact Hq).
  reflexivity.
Qed.

(** X24. When [Start] succeeds on a validated configuration, the
    processor has a backend, it has an envelope exactly when encryption
    is enabled, its configuration and key set are kept, and one line is
    logged. *)
Theorem Start_installs (p p' : Collector.vaultProcessor (FS := FS)) (w w' : W)
        (lines : list Collector.logLine) :
  Config.Validate (Collector.cfg p) = None ->
  Collector.envelope p = None ->
  Collector.Start NewFilesystemBackend Getenv p w = (w', p', lines, Ok tt) ->
  Collector.backend p' <> None /\
  (Collector.envelope p' <> None <->
   Config.Enable (Config.Crypto (Collector.cfg p)) = true) /\
  Collector.cfg p' = Collector.cfg p /\
  Collector.keySet p' = Collector.keySet p /\
  List.length lines = 1%nat.
Proof.
  intros V He. unfold Config.Validate in V. unfold Collector.Start.
  destruct (String.eqb (Config.Backend (Config.Storage (Collector.cfg p))) "filesystem").
  - destruct (NewFilesystemBackend _ w) as [w1 [be|err|m]];
      [|intros X; apply pair_inj in X; destruct X as [_ X]; discriminate X ..].
    destruct (Config.Enable (Config.Crypto (Collector.cfg p))).
    + destruct (Crypto.NewEnvelope _ _) as [e|err|m];
        intros X; apply pair_inj in X; destruct X as [X R]; try discriminate R;
        apply pair_inj in X; destruct X as [X L]; apply pair_inj in X;
        destruct X as [_ X]; subst p' lines; cbn.
      repeat split; try discriminate; auto.
    + intros X; apply pair_inj in X; destruct X as [X R];
        apply pair_inj in X; destruct X as [X L]; apply pair_inj in X;
        destruct X as [_ X]; subst p' lines; cbn.
      rewrite He. repeat split; try discriminate; auto; congruence.
  - destruct (String.eqb (Config.Backend (Config.Storage (Collector.cfg p))) "s3");
      [|discriminate V].
    cbn [negb orb andb] in V.
    destruct (Storage.NewS3Backend _) as [be|err|m];
      [|intros X; apply pair_inj in X; destruct X as [_ X]; discriminate X ..].
    destruct (Config.Enable (Config.Crypto (Collector.cfg p))).
    + destruct (Crypto.NewEnvelope _ _) as [e|err|m];
        intros X; apply pair_inj in X; destruct X as [X R]; try discriminate R;
        apply pair_inj in X; destruct X as [X L]; apply pair_inj in X;
        destruct X as [_ X]; subst p' lines; cbn.
      repeat split; try discriminate; auto.
    + intros X; apply pair_inj in X; destruct X as [X R];
        apply pair_inj in X; destruct X as [X L]; apply pair_inj in X;
        destruct X as [_ X]; subst p' lines; cbn.
      rewrite He. repeat split; try discriminate; auto; congruence.
Qed.

(** X25. When [Start] fails on a validated configuration, nothing is
    logged and no envelope is set; the failure is never the bucket check
    of [NewS3Backend], which [Validate] has made already; a failure of
    the filesystem backend leaves the processor as it was; a failure of
    [NewEnvelope] happens with encryption enabled and leaves the backend
    that was just created in place. *)
Theorem Start_failure (p p' : Collector.vaultProcessor (FS := FS)) (w w' : W)
        (lines : list Collector.logLine) (err : Collector.error) :
  Config.Validate (Collector.cfg p) = None ->
  Collector.Start NewFilesystemBackend Getenv p w = (w', p', lines, Err err) ->
  lines = [] /\
  Collector.envelope p' = Collector.envelope p /\
  match err with
  | Collector.InitFilesystem _ =>
      p' = p /\
      Config.Backend (Config.Storage (Collector.cfg p)) = "filesystem"
  | Collector.InitEncryption cause =>
      Collector.backend p' <> None /\
      Config.Enable (Config.Crypto (Collector.cfg p)) = true /\
      exists hexKey,
        Crypto.NewEnvelope hexKey
          (Config.HMACSecret (Config.Crypto (Collector.cfg p))) = Err cause
  | Collector.InitS3 _ | Collector.InvalidConfig _ => False
  end.
Proof.
  intros V. unfold Config.Validate in V. unfold Collector.Start.
  destruct (String.eqb_spec (Config.Backend (Config.Storage (Collector.cfg p))) "filesystem")
    as [Hf|Hf].
  - destruct (NewFilesystemBackend _ w) as [w1 [be|e1|m]].
    + destruct (Config.Enable (Config.Crypto (Collector.cfg p))).
      * destruct (Crypto.NewEnvelope _ _) as [e|e1|m] eqn:N;
          intros X; apply pair_inj in X; destruct X as [X R]; try discriminate R;
          apply pair_inj in X; destruct X as [X L]; apply pair_inj in X;
          destruct X as [_ X]; subst p' lines.
        injection R as <-. cbn. repeat split; try discriminate. eauto.
      * intros X; apply pair_inj in X; destruct X as [_ R]; discriminate R.
    + intros X; apply pair_inj in X; destruct X as [X R];
        apply pair_inj in X; destruct X as [X L]; apply pair_inj in X;
        destruct X as [_ X]; subst p' lines.
      injection R as <-. auto.
    + intros X; apply pair_inj in X; destruct X as [_ R]; discriminate R.
  - cbn [orb negb andb] in V.
    destruct (String.eqb (Config.Backend (Config.Storage (Collector.cfg p))) "s3");
      [|discriminate V].
    cbn [negb orb andb] in V.
    unfold Storage.NewS3Backend. cbn [Storage.Bucket].
    destruct (String.eqb (Config.Bucket (Config.S3 (Config.Storage (Collector.cfg p)))) "");
      [discriminate V|].
    destruct (Config.Enable (Config.Crypto (Collector.cfg p))).
    + destruct (Crypto.NewEnvelope _ _) as [e|e1|m] eqn:N;
        intros X; apply pair_inj in X; destruct X as [X R]; try discriminate R;
        apply pair_inj in X; destruct X as [X L]; apply pair_inj in X;
        destruct X as [_ X]; subst p' lines.
      injection R as <-. cbn. repeat split; try discriminate. eauto.
    + intros X; apply pair_inj in X; destruct X as [_ R]; discriminate R.
Qed.

End Lifecycle.

Module EventFacts.
Import Collector.

Example itoa_examples : map itoa [0; 7; 10; 123]%nat = ["0"; "7"; "10"; "123"].
Proof. reflexivity. Qed.

Lemma digits_no_slash (d : Decimal.uint) (c : ascii) :
  In c (list_ascii_of_string (DecimalString.NilEmpty.string_of_uint d)) ->
  c <> "/"%char.
Proof.
  induction d; cbn [DecimalString.NilEmpty.string_of_uint list_ascii_of_string In];
    [intros [] | intros [E|I]; [subst c; discriminate | auto] ..].
Qed.

Lemma itoa_no_slash (i : nat) (c : ascii) :
  In c (list_ascii_of_string (itoa i)) -> c <> "/"%char.
Proof.
  unfold itoa, DecimalString.NilZero.string_of_uint.
  destruct (Nat.to_uint i) eqn:E; try (rewrite <- E; apply digits_no_slash).
  cbn. intros [<-|[]]. discriminate.
Qed.

Lemma to_uint_nonnil (i : nat) : Nat.to_uint i <> Decimal.Nil.
Proof.
  rewrite <- (DecimalNat.Unsigned.of_to i) at 1.
  rewrite DecimalNat.Unsigned.to_of. apply DecimalFacts.unorm_nonnil.
Qed.

Lemma itoa_inj (i j : nat) : itoa i = itoa j -> i = j.
Proof.
  unfold itoa. intros E.
  apply DecimalNat.Unsigned.to_uint_inj.
  assert (H : Some (Nat.to_uint i) = Some (Nat.to_uint j)).
  { rewrite <- (DecimalString.NilZero.usu _ (to_uint_nonnil i)).
    rewrite <- (DecimalString.NilZero.usu _ (to_uint_nonnil j)).
    rewrite E. reflexivity. }
  congruence.
Qed.

(** Two strings without [/], each followed by [/]: where the first [/]
    stands decides both parts. *)
Lemma split_at_slash (a b x y : string) :
  (forall c, In c (list_ascii_of_string a) -> c <> "/"%char) ->
  (forall c, In c (list_ascii_of_string b) -> c <> "/"%char) ->
  a ++ "/" ++ x = b ++ "/" ++ y -> a = b /\ x = y.
Proof.
  revert b. induction a as [|c a IH]; intros [|c' b] Ha Hb E; cbn in E.
  - injection E as E. auto.
  - injection E as E1 E2. exfalso. apply (Hb c'); [left; reflexivity|auto].
  - injection E as E1 E2. exfalso. apply (Ha c); [left; reflexivity|auto].
  - injection E as E1 E2. subst c'.
    destruct (IH b) as [-> ->]; auto.
    + intros c0 I. apply Ha. right. exact I.
    + intros c0 I. apply Hb. right. exact I.
Qed.

Section S3.
Context {W FS : Type} {client : Http.Client W} {fsBackend : Storage.Backend FS W}.

Lemma visitEvent_ops (p : vaultProcessor (FS := FS)) (s3 : Storage.S3Backend)
      (t s : string) (i : nat) (st st' : State (W := W))
      (ops ops' : list Processor.pendingOp) (kv : string * Pdata.Value) :
  backend p = Some (inr s3) ->
  visitEvent p t s i (st, ops) kv = Ok (st', ops') ->
  ops' = ops \/
  exists op, ops' = (ops ++ [op])%list /\ Shape.eventReference p s3 t s i [kv] op.
Proof.
  intros Hb. unfold visitEvent. destruct kv as [k v].
  destruct (negb (Processor.inKeySet (view p) k)).
  { intros E. apply Ok_inj, pair_inj in E. destruct E as [_ <-]. auto. }
  destruct (Z.of_nat (String.length (Pdata.Str v))
            <? Processor.SizeThreshold (Config.Vault (cfg p)))%Z.
  { intros E. apply Ok_inj, pair_inj in E. destruct E as [_ <-]. auto. }
  rewrite Hb. cbn [Storage.Store Interface].
  unfold Shape.eventReference.
  destruct (envelope p) as [e|].
  - destruct (Crypto.Encrypt e (entropy st) (Bytes.of_string (Pdata.Str v)))
      as [rnd [c|err|m]] eqn:En.
    + destruct (Storage.S3Store s3 (world st) t s (eventKey s i k) c)
        as [w [r|err|m]] eqn:St; try discriminate.
      * intros E. apply Ok_inj, pair_inj in E. destruct E as [_ <-].
        right. eexists; split; [reflexivity|].
        apply StorageFacts.S3Store_Ok_inv in St. subst r.
        exists v, c. cbn [Processor.key Processor.ref]. split; [left; reflexivity|].
        split; [eauto|]. reflexivity.
      * intros E. apply Ok_inj, pair_inj in E. destruct E as [_ <-]. auto.
    + intros E. apply Ok_inj, pair_inj in E. destruct E as [_ <-]. auto.
    + discriminate.
  - destruct (Storage.S3Store s3 (world st) t s (eventKey s i k)
                (Bytes.of_string (Pdata.Str v)))
      as [w [r|err|m]] eqn:St; try discriminate.
    + intros E. apply Ok_inj, pair_inj in E. destruct E as [_ <-].
      right. eexists; split; [reflexivity|].
      apply StorageFacts.S3Store_Ok_inv in St. subst r.
      exists v, (Bytes.of_string (Pdata.Str v)).
      cbn [Processor.key Processor.ref]. split; [left; reflexivity|].
      split; reflexivity.
    + intros E. apply Ok_inj, pair_inj in E. destruct E as [_ <-]. auto.
Qed.

Lemma eventReference_mono (p : vaultProcessor (FS := FS)) (s3 : Storage.S3Backend)
      (t s : string) (i : nat) (a b : Pdata.Map) (op : Processor.pendingOp) :
  (forall x, In x a -> In x b) ->
  Shape.eventReference p s3 t s i a op -> Shape.eventReference p s3 t s i b op.
Proof.
  intros Hi (v & d & I & X). exists v, d. split; auto.
Qed.

Lemma rangeEvent_ops (p : vaultProcessor (FS := FS)) (s3 : Storage.S3Backend)
      (t s : string) (i : nat) (attrs : Pdata.Map) :
  backend p = Some (inr s3) ->
  forall (st st' : State (W := W)) (ops ops' : list Processor.pendingOp),
    rangeEvent p t s i (st, ops) attrs = Ok (st', ops') ->
    exists new, ops' = (ops ++ new)%list /\
                Forall (Shape.eventReference p s3 t s i attrs) new.
Proof.
  intros Hb. induction attrs as [|kv rest IH]; intros st st' ops ops' E.
  - cbn in E. apply Ok_inj, pair_inj in E. destruct E as [_ <-].
    exists []. rewrite app_nil_r. auto.
  - cbn [rangeEvent] in E.
    destruct (visitEvent p t s i (st, ops) kv) as [[st1 ops1]|[]|m] eqn:V;
      cbn [bind] in E; [|discriminate].
    apply IH in E. destruct E as (new & -> & F).
    assert (F' : Forall (Shape.eventReference p s3 t s i (kv :: rest)) new).
    { eapply Forall_impl; [|exact F]. intros op.
      apply eventReference_mono. intros x; right; assumption. }
    destruct (visitEvent_ops p s3 t s i st st1 ops ops1 kv Hb V)
      as [->|(op & -> & R)].
    + exists new. auto.
    + exists (op :: new). rewrite <- app_assoc. split; [reflexivity|].
      constructor; [|exact F'].
      eapply eventReference_mono; [|exact R].
      intros x [<-|[]]. left; reflexivity.
Qed.

End S3.
End EventFacts.

Section Events.
Context {W FS : Type} {client : Http.Client W} {fsBackend : Storage.Backend FS W}.

(** X26. Under one backend, trace and span, the attributes of two
    events are stored under uris that differ as soon as the events'
    indices or the attribute keys differ. *)
Theorem S3Store_event_uri_distinct (s : Storage.S3Backend) (w1 w1' w2 w2' : W)
        (traceID spanID : string) (i j : nat) (k1 k2 : string)
        (d1 d2 : list byte) (r1 r2 : Storage.Reference) :
  Storage.S3Store s w1 traceID spanID (Collector.eventKey spanID i k1) d1
  = (w1', Ok r1) ->
  Storage.S3Store s w2 traceID spanID (Collector.eventKey spanID j k2) d2
  = (w2', Ok r2) ->
  i <> j \/ k1 <> k2 ->
  Storage.URI r1 <> Storage.URI r2.
Proof.
  intros H1 H2 Hne E.
  apply StorageFacts.S3Store_Ok_inv in H1, H2. subst r1 r2.
  cbn [Storage.URI] in E.
  repeat (apply MoreFacts.append_inv_head in E).
  apply EventFacts.split_at_slash in E; try apply EventFacts.itoa_no_slash.
  destruct E as [E Hk]. apply EventFacts.itoa_inj in E.
  destruct Hne; contradiction.
Qed.

(** X27. Every operation the attribute loop of event [i] records on
    the object-store backend is for an attribute of that event; its
    reference has the checksum and the size of the bytes stored (the
    ciphertext under an envelope, the value itself without), is marked
    encrypted exactly under an envelope, and its uri ends in the trace
    id, the span id, the span id again, [event_i] and the key. *)
Theorem rangeEvent_references (p : Collector.vaultProcessor (FS := FS))
        (s3 : Storage.S3Backend) (traceID spanID : string) (i : nat)
        (st st' : Collector.State (W := W)) (attrs : Pdata.Map)
        (ops : list Processor.pendingOp) :
  Collector.backend p = Some (inr s3) ->
  Collector.rangeEvent p traceID spanID i (st, []) attrs = Ok (st', ops) ->
  Forall (Shape.eventReference p s3 traceID spanID i attrs) ops.
Proof.
  intros Hb E.
  destruct (EventFacts.rangeEvent_ops p s3 traceID spanID i attrs Hb _ _ _ _ E)
    as (new & -> & F).
  exact F.
Qed.

End Events.

Module TracesFacts.
Import Collector.

Section Generic.
Context {W FS : Type} {client : Http.Client W} {fsBackend : Storage.Backend FS W}.
Variable Marshal : Storage.Reference -> string.

Lemma forEach_map {A X : Type}
      (f : State (W := W) -> A -> result Empty_set (State (W := W) * A))
      (g : A -> X) :
  (forall st x st' x', f st x = Ok (st', x') -> g x' = g x) ->
  forall l st st' l',
    forEach f st l = Ok (st', l') -> map g l' = map g l.
Proof.
  intros Hf. induction l as [|x rest IH]; intros st st' l' E; cbn [forEach] in E.
  - apply Ok_inj, pair_inj in E. destruct E as [_ <-]. reflexivity.
  - destruct (f st x) as [[st1 x']|[]|m] eqn:F; cbn [bind] in E; [|discriminate].
    destruct (forEach f st1 rest) as [[st2 rest']|[]|m] eqn:R; cbn [bind] in E;
      [|discriminate].
    apply Ok_inj, pair_inj in E. destruct E as [_ <-].
    cbn [map]. f_equal; eauto.
Qed.


Lemma spanStep_ids (p : vaultProcessor (FS := FS)) (st st' : State (W := W))
      (sp sp' : Pdata.Span) :
  spanStep Marshal p st sp = Ok (st', sp') ->
  Pdata.TraceID sp' = Pdata.TraceID sp /\ Pdata.SpanID sp' = Pdata.SpanID sp.
Proof.
  unfold spanStep.
  destruct (Processor.processSpan _ _ _ sp) as [[env sp1]|[]|m] eqn:E;
    cbn [bind]; [|discriminate].
  intros X. apply Ok_inj, pair_inj in X. destruct X as [_ <-].
  apply SpanFacts.processSpan_Ok_inv in E. destruct E as (ops & _ & ->).
  split; reflexivity.
Qed.

Lemma eventsFrom_names (p : vaultProcessor (FS := FS)) (t s : string)
      (events : list Event) :
  forall (i : nat) (st st' : State (W := W)) (events' : list Event),
    eventsFrom Marshal p t s i st events = Ok (st', events') ->
    map EventName events' = map EventName events.
Proof.
  induction events as [|ev rest IH]; intros i st st' events' E;
    cbn [eventsFrom] in E.
  - apply Ok_inj, pair_inj in E. destruct E as [_ <-]. reflexivity.
  - unfold eventStep in E at 1.
    destruct (rangeEvent p t s i (st, []) (EventAttributes ev))
      as [[st1 ops]|[]|m]; cbn [bind] in E; [|discriminate].
    destruct (eventsFrom Marshal p t s (S i) st1 rest)
      as [[st2 rest']|[]|m] eqn:R; cbn [bind] in E; [|discriminate].
    apply Ok_inj, pair_inj in E. destruct E as [_ <-].
    cbn [map EventName]. f_equal. eauto.
Qed.

Lemma spanDataStep_outline (p : vaultProcessor (FS := FS))
      (st st' : State (W := W)) (d d' : SpanData) :
  spanDataStep Marshal p st d = Ok (st', d') ->
  (Pdata.TraceID (span d'), Pdata.SpanID (span d'), map EventName (Events d'))
  = (Pdata.TraceID (span d), Pdata.SpanID (span d), map EventName (Events d)).
Proof.
  unfold spanDataStep.
  destruct (spanStep Marshal p st (span d)) as [[st1 sp1]|[]|m] eqn:S1;
    cbn [bind]; [|discriminate].
  unfold processSpanEvents.
  destruct (eventsFrom _ _ _ _ _ _ _) as [[st2 evs]|[]|m] eqn:E2;
    cbn [bind]; [|discriminate].
  intros X. apply Ok_inj, pair_inj in X. destruct X as [_ <-].
  cbn [span Events].
  apply spanStep_ids in S1. destruct S1 as [-> ->].
  apply eventsFrom_names in E2. rewrite E2. reflexivity.
Qed.

(** ** Nothing panics on the object-store backend *)


Section S3.
Hypothesis quiet : forall (w0 : W) req w1 m, Http.Do w0 req <> (w1, Panic m).


Variable p : vaultProcessor (FS := FS).
Variable s3 : Storage.S3Backend.
Hypothesis started : backend p = Some (inr s3).







End S3.
End Generic.
End TracesFacts.

Section Traces.
Context {W FS : Type} {client : Http.Client W} {fsBackend : Storage.Backend FS W}.
Variable Marshal : Storage.Reference -> string.
Variable Next : W -> Collector.Traces -> W * option string.

(** X28. When [ConsumeTraces] returns, the traces it handed to the
    next consumer have the nesting, the span identifiers and the event
    names of the traces it was given, and its error is the one the next
    consumer returned for them. *)
Theorem ConsumeTraces_hands_on (p : Collector.vaultProcessor (FS := FS))
        (st st' : Collector.State (W := W)) (td td' : Collector.Traces)
        (err : option string) :
  Collector.ConsumeTraces Marshal Next p st td = Ok (st', td', err) ->
  Shape.outline td' = Shape.outline td /\
  exists w, Next w td' = (Collector.world st', err).
Proof.
  unfold Collector.ConsumeTraces.
  destruct (Collector.forEach _ st td) as [[st1 td1]|[]|m] eqn:E;
    cbn [bind]; [|discriminate].
  destruct (Next (Collector.world st1) td1) as [w e] eqn:N.
  intros X. apply Ok_inj, pair_inj in X. destruct X as [X <-].
  apply pair_inj in X. destruct X as [<- <-]. cbn [Collector.world].
  split; [|eauto].
  unfold Shape.outline.
  revert E. apply TracesFacts.forEach_map.
  intros s0 x s1 x'. apply TracesFacts.forEach_map.
  intros s2 y s3 y'. apply TracesFacts.forEach_map.
  intros s4 d s5 d'. apply TracesFacts.spanDataStep_outline.
Qed.


End Traces.

Module CtlFacts.

Lemma Decrypt_key_only (e e' : Crypto.Envelope) (blob : list byte) :
  Crypto.key e = Crypto.key e' -> Crypto.Decrypt e blob = Crypto.Decrypt e' blob.
Proof.
  destruct e as [k s], e' as [k' s']. cbn [Crypto.key]. intros <-. reflexivity.
Qed.

(** What [Encrypt] made is opened again under the same key. *)
Lemma Decrypt_of_Encrypt (e : Crypto.Envelope) (rnd rnd' : Rand.Reader)
      (plain blob : list byte) :
  Crypto.Encrypt e rnd plain = (rnd', Ok blob) -> Crypto.Decrypt e blob = Ok plain.
Proof.
  intros He.
  destruct (MoreFacts.Encrypt_Ok_pieces _ _ _ _ _ He)
    as (b & ct & Hb & Hl & _ & Hm & Hct & Hlen & Hc).
  rewrite (CryptoFacts.Decrypt_keyed e b blob Hb).
  change Gcm.NonceSize with 12%nat.
  assert (Hn : List.length (firstn 12 rnd) = 12%nat)
    by (rewrite length_firstn; lia).
  assert (Hf : firstn 12 blob = firstn 12 rnd).
  { rewrite Hc. rewrite <- Hn at 1. apply GcmFacts.firstn_length_app. }
  assert (Hs : skipn 12 blob
               = (ct ++ Gcm.auth (Gcm.cipher (Crypto.gcmOf e)) (firstn 12 rnd) ct [])%list).
  { rewrite Hc. rewrite <- Hn at 1. apply GcmFacts.skipn_length_app. }
  assert (Hlb : (12 <= List.length blob)%nat).
  { rewrite Hc, length_app. lia. }
  destruct (Nat.ltb_spec (List.length blob) 12); [lia|].
  rewrite Hf, Hs.
  rewrite (GcmFacts.Open_Seal (Crypto.gcmOf e) (firstn 12 rnd) plain []); [reflexivity|].
  unfold Gcm.Seal. change Gcm.NonceSize with 12%nat. rewrite Hn, Nat.eqb_refl.
  cbn [negb]. destruct (Z.ltb_spec Gcm.maxPlaintext (Z.of_nat (List.length plain))); [lia|].
  subst ct. reflexivity.
Qed.

End CtlFacts.

Section Ctl.
Context {W FS : Type} {fsBackend : Storage.Backend FS W}.
Variable NewFilesystemBackend : string -> W -> W * result Storage.error FS.
Variable Getenv : string -> string.
Variable Unmarshal : string -> result string Storage.Reference.

(** X30. [runGet] on an encrypted reference prints the plaintext and
    a line end, and returns nil, whenever the bytes retrieved are what
    [Encrypt] made of that plaintext under the key that
    [PROMPTVAULT_KEY] holds, whatever HMAC secret the two envelopes
    have; the backend is closed afterwards. *)
Theorem runGet_prints_plaintext (basePath refJSON : string)
        (ref : Storage.Reference) (be : FS) (w w1 w2 : W)
        (e sealer : Crypto.Envelope) (rnd rnd' : Rand.Reader)
        (plain blob : list byte) :
  Unmarshal refJSON = Ok ref ->
  NewFilesystemBackend basePath w = (w1, Ok be) ->
  Storage.Retrieve be w1 ref = (w2, Ok blob) ->
  Storage.Encrypted ref = true ->
  Getenv "PROMPTVAULT_KEY" <> "" ->
  Crypto.NewEnvelope (Getenv "PROMPTVAULT_KEY") (Getenv "PROMPTVAULT_HMAC_SECRET")
  = Ok e ->
  Crypto.key sealer = Crypto.key e ->
  Crypto.Encrypt sealer rnd plain = (rnd', Ok blob) ->
  Ctl.runGet NewFilesystemBackend Getenv Unmarshal [basePath; refJSON] w
  = (fst (Storage.Close be w2), [Bytes.to_string plain ++ Ctl.newline], Ok tt).
Proof.
  intros Hu Hn Hr He Hk Hv Hs Hc.
  apply CtlFacts.Decrypt_of_Encrypt in Hc.
  rewrite (CtlFacts.Decrypt_key_only _ _ _ Hs) in Hc.
  unfold Ctl.runGet. rewrite Hu, Hn. unfold Ctl.fetch. rewrite Hr, He.
  apply String.eqb_neq in Hk. rewrite Hk, Hv. cbn [wrap bind].
  rewrite Hc. reflexivity.
Qed.

End Ctl.

(* ----------------------------------------------------------------- *)
(** ** The properties above on the collector and the vault of the
       examples *)

Lemma processSpan_before_Start_panics_witness :
  Processor.processSpan Storage.URI
    (Collector.view (Scenario.fresh (Scenario.config false "")))
    Fixture.start Fixture.span
  = Panic Collector.nilDereference.
Proof.
  exact (proj1 (processSpan_before_Start_panics Storage.URI
                  (Scenario.config false "")
                  (Scenario.fresh (Scenario.config false ""))
                  Fixture.start Fixture.span eq_refl eq_refl)).
Defined.

Lemma Start_installs_witness :
  Collector.Start Scenario.openStore Scenario.getenv
                  (Scenario.fresh (Scenario.config true Fixture.testKey))
                  MemS3.empty
  = (MemS3.empty, Scenario.running,
     [Collector.Started "s3" "replace_with_ref" true 1], Ok tt) /\
  Collector.backend Scenario.running <> None.
Proof.
  match goal with
  | |- ?A /\ _ => assert (H1 : A) by (vm_compute; reflexivity)
  end.
  split; [exact H1|].
  exact (proj1 (Start_installs Scenario.openStore Scenario.getenv
                  (Scenario.fresh (Scenario.config true Fixture.testKey))
                  _ _ _ _ eq_refl eq_refl H1)).
Defined.

Lemma Start_failure_witness :
  exists p',
    Collector.Start Scenario.openStore Scenario.getenv
                    (Scenario.fresh (Scenario.config true "0123"))
                    MemS3.empty
    = (MemS3.empty, p', [],
       Err (Collector.InitEncryption (Crypto.KeyLength 2))) /\
    Collector.backend p' <> None.
Proof.
  eexists.
  match goal with
  | |- ?A /\ _ => assert (H1 : A) by (vm_compute; reflexivity)
  end.
  split; [exact H1|].
  pose proof (Start_failure Scenario.openStore Scenario.getenv
                (Scenario.fresh (Scenario.config true "0123"))
                _ _ _ _ _ eq_refl H1) as X.
  cbv beta iota in X. destruct X as (_ & _ & Hb & _). exact Hb.
Defined.

Lemma S3Store_event_uri_distinct_witness :
  exists w1 r1 w2 r2,
    Storage.S3Store Fixture.s3 MemS3.empty "trace123" "span456"
      (Collector.eventKey "span456" 0 "gen_ai.prompt") Fixture.prompt
    = (w1, Ok r1) /\
    Storage.S3Store Fixture.s3 MemS3.empty "trace123" "span456"
      (Collector.eventKey "span456" 1 "gen_ai.prompt") Fixture.prompt
    = (w2, Ok r2) /\
    Storage.URI r1 <> Storage.URI r2.
Proof.
  do 4 eexists.
  match goal with
  | |- ?A /\ ?B /\ _ =>
      assert (H1 : A) by (vm_compute; reflexivity);
      assert (H2 : B) by (vm_compute; reflexivity)
  end.
  split; [exact H1|]. split; [exact H2|].
  apply (S3Store_event_uri_distinct _ _ _ _ _ _ _ _ _ _ _ _ _ _ _ H1 H2).
  left. discriminate.
Defined.

Lemma rangeEvent_references_witness :
  exists st' ops,
    Collector.rangeEvent Scenario.running "trace123" "span456" 2
                         (Scenario.state, []) Scenario.prompted
    = Ok (st', ops) /\
    Forall (Shape.eventReference Scenario.running Fixture.s3
              "trace123" "span456" 2 Scenario.prompted) ops.
Proof.
  do 2 eexists.
  match goal with
  | |- ?A /\ _ => assert (H1 : A) by (vm_compute; reflexivity)
  end.
  split; [exact H1|].
  exact (rangeEvent_references Scenario.running Fixture.s3 _ _ _ _ _ _ _
           eq_refl H1).
Defined.

Lemma ConsumeTraces_hands_on_witness :
  exists st' td' err,
    Collector.ConsumeTraces Storage.URI Scenario.next Scenario.running
                            Scenario.state Scenario.traces
    = Ok (st', td', err) /\
    Shape.outline td' = Shape.outline Scenario.traces.
Proof.
  do 3 eexists.
  match goal with
  | |- ?A /\ _ => assert (H1 : A) by (vm_compute; reflexivity)
  end.
  split; [exact H1|].
  exact (proj1 (ConsumeTraces_hands_on Storage.URI Scenario.next
                  _ _ _ _ _ _ H1)).
Defined.


Lemma runGet_prints_plaintext_witness :
  exists line,
    Ctl.runGet Scenario.openStore Scenario.getenv Scenario.unmarshal
               ["/tmp/promptvault/"; "ref"] Scenario.vault
    = (Scenario.vault, [line], Ok tt) /\
    line = ("hello" ++ Ctl.newline)%string.
Proof.
  assert (Hb : exists be,
             Scenario.openStore "/tmp/promptvault/" Scenario.vault
             = (Scenario.vault, Ok be) /\
             Storage.Retrieve be Scenario.vault Scenario.reference
             = (Scenario.vault,
                Ok (Fixture.sealed Fixture.env "abcdefghijkl" "hello")) /\
             fst (Storage.Close be Scenario.vault) = Scenario.vault).
  { eexists. split; [vm_compute; reflexivity|].
    split; vm_compute; reflexivity. }
  destruct Hb as (be & Ho & Hr & Hc).
  assert (Hv : Crypto.NewEnvelope (Scenario.getenv "PROMPTVAULT_KEY")
                 (Scenario.getenv "PROMPTVAULT_HMAC_SECRET")
               = Ok (Crypto.mkEnvelope (Crypto.key Fixture.env) []))
    by (vm_compute; reflexivity).
  assert (Hs : Crypto.Encrypt Fixture.env (Bytes.of_string "abcdefghijkl")
                 (Bytes.of_string "hello")
               = ([], Ok (Fixture.sealed Fixture.env "abcdefghijkl" "hello")))
    by (vm_compute; reflexivity).
  assert (Hk : Scenario.getenv "PROMPTVAULT_KEY" <> ""%string)
    by (vm_compute; discriminate).
  exists ("hello" ++ Ctl.newline)%string. split; [|reflexivity].
  rewrite (runGet_prints_plaintext Scenario.openStore Scenario.getenv
             Scenario.unmarshal "/tmp/promptvault/" "ref" Scenario.reference
             be Scenario.vault Scenario.vault Scenario.vault
             (Crypto.mkEnvelope (Crypto.key Fixture.env) []) Fixture.env
             _ _ _ _ eq_refl Ho Hr eq_refl Hk Hv eq_refl Hs).
  rewrite Hc. reflexivity.
Defined.
